(** * PerformanceComparationFramework: statistics, comparison and scenario steps

    A shallow embedding of [src/utils/performance-analyzer.ts] and of the step
    validation and data substitution of [src/utils/scenario-runner.ts].
    With them come the rest of the runner (scenarios, steps, login), the
    analysis that the comparison test runs on the samples, the login check
    of the login page and the resource types of the metrics collector.

    The TypeScript code computes with JavaScript [number]s.  The embedding is
    written once, over the interface [JSNumber] of the operations the source
    applies to numbers, and is read at two instances:

    - [binary64]: Rocq's primitive floats, that is IEEE 754 binary64, the
      numbers JavaScript has.  Everything evaluates there, and what is
      proved there for all inputs (the order of finite numbers, the
      integers, the signs) is proved from the specification of the
      floating-point operations.
    - [rationals]: the rationals extended with NaN and the two infinities,
      where [+], [-], [*] and [/] incur no rounding.  Order and field laws
      hold there; it shows what the rounding of binary64 is responsible
      for.

    Statements that do not depend on any law of arithmetic are proved for every
    instance, hence for binary64. *)

From Stdlib Require Import List String Ascii Bool Arith ZArith QArith Qround Qabs.
From Stdlib Require Import Floats Uint63 Lia Lqa Permutation Sorted.
Import ListNotations.

Set Implicit Arguments.
Set Warnings "-register-all,-inexact-float".


(** ** Exceptions and fallible computations *)

(** What a [throw] carries.  The analyzer and the runner only ever construct
    [new Error(message)]; a property read on [undefined] raises a [TypeError];
    a Playwright call that gives up raises its [TimeoutError]. *)
Inductive exn : Type :=
| Error (message : string)
| TypeError (message : string)
| TimeoutError (message : string).

Inductive result (T : Type) : Type :=
| Ok (value : T)
| Throw (e : exn).

Arguments Ok {T} value.
Arguments Throw {T} e.

Definition bind {T U : Type} (r : result T) (k : T -> result U) : result U :=
  match r with
  | Ok v => k v
  | Throw e => Throw e
  end.

(** ** The numbers of the source *)

Declare Scope js_scope.
Delimit Scope js_scope with js.

(** The operations on [number] that the two source files use. *)
Class JSNumber (A : Type) : Type := {
  (** a decimal literal of the source text *)
  lit : Q -> A;
  nadd : A -> A -> A;
  nsub : A -> A -> A;
  nmul : A -> A -> A;
  ndiv : A -> A -> A;
  (** [Math.abs], [Math.sqrt], [Math.floor], [Math.ceil], [Math.round] *)
  Math_abs : A -> A;
  Math_sqrt : A -> A;
  Math_floor : A -> A;
  Math_ceil : A -> A;
  Math_round : A -> A;
  (** [x % 1] *)
  rem1 : A -> A;
  (** [x < y] and [x === y] *)
  nltb : A -> A -> bool;
  neqb : A -> A -> bool;
  (** the array index a number denotes when used as a property key:
      [Some i] for the integer [i >= 0], [None] otherwise *)
  to_index : A -> option nat
}.

Notation "x + y" := (nadd x y) : js_scope.
Notation "x - y" := (nsub x y) : js_scope.
Notation "x * y" := (nmul x y) : js_scope.
Notation "x / y" := (ndiv x y) : js_scope.
Notation "x <? y" := (nltb x y) (at level 70, no associativity) : js_scope.
Notation "x >? y" := (nltb y x) (at level 70, no associativity) : js_scope.
Notation "x === y" := (neqb x y) (at level 70, no associativity) : js_scope.

Section NumberOps.
Context {A : Type} {N : JSNumber A}.
Local Open Scope js_scope.

Definition int (z : Z) : A := lit (inject_Z z).

(** [xs.length] *)
Definition len {T : Type} (xs : list T) : A := int (Z.of_nat (List.length xs)).

Definition Infinity : A := int 1 / int 0.
Definition NaN : A := int 0 / int 0.
Definition isNaN (x : A) : bool := negb (x === x).

(** [x >= y] and [x <= y] are [x > y || x === y] and [x < y || x === y]. *)
Definition ngeb (x y : A) : bool := (y <? x) || (x === y).
Definition nleb (x y : A) : bool := (x <? y) || (x === y).

(** [x || 0]: a number is falsy when it is zero or NaN. *)
Definition truthy (x : A) : bool := negb (x === int 0) && negb (isNaN x).

(** [Math.pow(x, 2)] *)
Definition square (x : A) : A := x * x.

(** [Math.max(a, b)] and [Math.min(a, b)]: NaN when an argument is NaN. *)
Definition max2 (a b : A) : A :=
  if isNaN a then a else if isNaN b then b else if a <? b then b else a.

Definition min2 (a b : A) : A :=
  if isNaN a then a else if isNaN b then b else if b <? a then b else a.

(** [Math.max(...values)] starts from [-Infinity], [Math.min(...values)]
    from [Infinity]. *)
Definition Math_max (values : list A) : A :=
  fold_left max2 values (int 0 - Infinity).

Definition Math_min (values : list A) : A :=
  fold_left min2 values Infinity.

(** [xs[i]] for a number [i].  A read outside the array gives [undefined],
    on which all the arithmetic of the source yields NaN; it is read as NaN. *)
Definition at_index (xs : list A) (i : A) : A :=
  match to_index i with
  | Some k => nth k xs NaN
  | None => NaN
  end.

End NumberOps.

Notation "x >=? y" := (ngeb x y) (at level 70, no associativity) : js_scope.
Notation "x <=? y" := (nleb x y) (at level 70, no associativity) : js_scope.

(** ** IEEE 754 binary64 *)

Module Binary64.

Definition of_Z (z : Z) : float :=
  match z with
  | Z0 => PrimFloat.zero
  | Zpos _ => PrimFloat.of_uint63 (Uint63.of_Z z)
  | Zneg _ => PrimFloat.opp (PrimFloat.of_uint63 (Uint63.of_Z (Z.opp z)))
  end.

(** The binary64 nearest to the rational [n/d]: the quotient of two exactly
    represented integers, correctly rounded. *)
Definition of_Q (q : Q) : float :=
  PrimFloat.div (of_Z (Qnum q)) (of_Z (Zpos (Qden q))).

(** The greatest integer below a finite [x = (-1)^s m 2^e]. *)
Definition floor (x : float) : float :=
  match Prim2SF x with
  | S754_finite s m e =>
      if (0 <=? e)%Z then x
      else
        let q := Z.shiftr (Zpos m) (- e) in
        let exact := (Z.shiftl q (- e) =? Zpos m)%Z in
        if s then PrimFloat.opp (of_Z (if exact then q else q + 1)) else of_Z q
  | _ => x
  end.

Definition ceil (x : float) : float :=
  PrimFloat.opp (floor (PrimFloat.opp x)).

(** [Math.round]: the nearest integer, a tie going up; the sign of a zero
    result is the sign of [x]. *)
Definition round (x : float) : float :=
  let f := floor x in
  let r := if PrimFloat.ltb (PrimFloat.sub x f) 0.5 then f
           else PrimFloat.add f PrimFloat.one in
  if PrimFloat.is_zero r && PrimFloat.ltb x PrimFloat.zero
  then PrimFloat.neg_zero else r.

(** [x % 1]: what is left of [x] after its integer part, with the sign of [x]. *)
Definition frac (x : float) : float :=
  let t := if PrimFloat.ltb x PrimFloat.zero then ceil x else floor x in
  let r := PrimFloat.sub x t in
  if PrimFloat.is_zero r && PrimFloat.get_sign x then PrimFloat.neg_zero else r.

Definition index (x : float) : option nat :=
  match Prim2SF x with
  | S754_zero _ => Some 0%nat
  | S754_finite false m e =>
      if PrimFloat.eqb (floor x) x
      then Some (Z.to_nat (Z.shiftl (Zpos m) e))
      else None
  | _ => None
  end.

End Binary64.

#[export] Instance binary64 : JSNumber float := {|
  lit := Binary64.of_Q;
  nadd := PrimFloat.add;
  nsub := PrimFloat.sub;
  nmul := PrimFloat.mul;
  ndiv := PrimFloat.div;
  Math_abs := PrimFloat.abs;
  Math_sqrt := PrimFloat.sqrt;
  Math_floor := Binary64.floor;
  Math_ceil := Binary64.ceil;
  Math_round := Binary64.round;
  rem1 := Binary64.frac;
  nltb := PrimFloat.ltb;
  neqb := PrimFloat.eqb;
  to_index := Binary64.index
|}.

(** ** Exact arithmetic with the IEEE special values *)

Module Exact.

(** A rational, NaN, or an infinity.  The two zeros of binary64 are one. *)
Inductive xnum : Type :=
| Fin (q : Q)
| Nan
| PosInf
| NegInf.

Definition opp (x : xnum) : xnum :=
  match x with
  | Fin q => Fin (- q)
  | Nan => Nan
  | PosInf => NegInf
  | NegInf => PosInf
  end.

Definition add (x y : xnum) : xnum :=
  match x, y with
  | Nan, _ | _, Nan => Nan
  | Fin a, Fin b => Fin (a + b)
  | PosInf, NegInf | NegInf, PosInf => Nan
  | PosInf, _ | _, PosInf => PosInf
  | NegInf, _ | _, NegInf => NegInf
  end.

Definition sub (x y : xnum) : xnum := add x (opp y).

(** An infinity with the sign of [c] times the sign of [x]; NaN when [c = 0]. *)
Definition scaled_inf (c : comparison) (x : xnum) : xnum :=
  match c with
  | Eq => Nan
  | Gt => x
  | Lt => opp x
  end.

Definition sign (x : xnum) : comparison :=
  match x with
  | Fin q => q ?= 0
  | PosInf => Gt
  | NegInf => Lt
  | Nan => Eq
  end.

Definition mul (x y : xnum) : xnum :=
  match x, y with
  | Nan, _ | _, Nan => Nan
  | Fin a, Fin b => Fin (a * b)
  | Fin _, _ => scaled_inf (sign x) y
  | _, _ => scaled_inf (sign y) x
  end.

Definition div (x y : xnum) : xnum :=
  match x, y with
  | Nan, _ | _, Nan => Nan
  | Fin a, Fin b =>
      if Qeq_bool b 0 then scaled_inf (a ?= 0) PosInf else Fin (a / b)
  | Fin _, _ => Fin 0
  | _, Fin b => if Qle_bool 0 b then x else opp x
  | _, _ => Nan
  end.

Definition abs (x : xnum) : xnum :=
  match x with
  | Fin q => Fin (Qabs q)
  | Nan => Nan
  | _ => PosInf
  end.

Definition sqrt (sqrtQ : Q -> Q) (x : xnum) : xnum :=
  match x with
  | Fin q => if Qle_bool 0 q then Fin (sqrtQ q) else Nan
  | PosInf => PosInf
  | _ => Nan
  end.

Definition floor (x : xnum) : xnum :=
  match x with
  | Fin q => Fin (inject_Z (Qfloor q))
  | _ => x
  end.

Definition ceil (x : xnum) : xnum :=
  match x with
  | Fin q => Fin (inject_Z (Qceiling q))
  | _ => x
  end.

Definition round (x : xnum) : xnum :=
  match x with
  | Fin q => Fin (inject_Z (Qfloor (q + (1 # 2))))
  | _ => x
  end.

Definition frac (x : xnum) : xnum :=
  match x with
  | Fin q =>
      Fin (q - inject_Z (if Qle_bool 0 q then Qfloor q else Qceiling q))
  | _ => Nan
  end.

Definition ltb (x y : xnum) : bool :=
  match x, y with
  | Nan, _ | _, Nan => false
  | Fin a, Fin b => negb (Qle_bool b a)
  | NegInf, NegInf | PosInf, _ | _, NegInf => false
  | _, _ => true
  end.

Definition eqb (x y : xnum) : bool :=
  match x, y with
  | Fin a, Fin b => Qeq_bool a b
  | PosInf, PosInf | NegInf, NegInf => true
  | _, _ => false
  end.

Definition index (x : xnum) : option nat :=
  match x with
  | Fin q =>
      if Qeq_bool q (inject_Z (Qfloor q)) && (0 <=? Qfloor q)%Z
      then Some (Z.to_nat (Qfloor q))
      else None
  | _ => None
  end.

End Exact.

(** [Math.sqrt] does not stay within the rationals; this instance takes the
    rational it returns on a non-negative rational as a parameter. *)
Definition rationals (sqrtQ : Q -> Q) : JSNumber Exact.xnum := {|
  lit := Exact.Fin;
  nadd := Exact.add;
  nsub := Exact.sub;
  nmul := Exact.mul;
  ndiv := Exact.div;
  Math_abs := Exact.abs;
  Math_sqrt := Exact.sqrt sqrtQ;
  Math_floor := Exact.floor;
  Math_ceil := Exact.ceil;
  Math_round := Exact.round;
  rem1 := Exact.frac;
  nltb := Exact.ltb;
  neqb := Exact.eqb;
  to_index := Exact.index
|}.

(** ** Records of [src/types/index.ts] *)

Record CoreWebVitals (A : Type) : Type := {
  lcp : A;
  fid : option A;
  inp : option A;
  cls : A
}.

Record ResourceTiming (A : Type) : Type := {
  name : string;
  type : string;
  duration : A;
  size : A;
  transferSize : A
}.

Record PerformanceMetrics (A : Type) : Type := {
  ttfb : A;
  fcp : A;
  tti : A;
  dnsTime : A;
  sslTime : A;
  resourceLoadTimes : list (ResourceTiming A);
  totalPageLoadTime : A;
  domContentLoaded : A;
  loadComplete : A
}.

Record ApplicationMetrics (A : Type) : Type := {
  loginTime : option A;
  dashboardLoadTime : option A;
  navigationTimes : list (string * A);
  apiResponseTimes : list (string * A);
  formProcessingTimes : list (string * A)
}.

(** [MetricsResult]; its fields [url] and [scenario] are [page_url] and
    [run_scenario] here, the plain names being those of [TestStep] and
    [ComparisonResult]. *)
Record MetricsResult (A : Type) : Type := {
  timestamp : string;
  page_url : string;
  environment : string;
  application : string;
  run_scenario : string;
  iteration : A;
  coreWebVitals : CoreWebVitals A;
  performanceMetrics : PerformanceMetrics A;
  applicationMetrics : ApplicationMetrics A;
  userAgent : string;
  networkCondition : option string
}.

Record StatisticalSummary (A : Type) : Type := {
  mean : A;
  median : A;
  p95 : A;
  p99 : A;
  min : A;
  max : A;
  standardDeviation : A;
  variance : A
}.

(** ['app1' | 'app2' | 'tie'] *)
Inductive Winner : Type := App1 | App2 | Tie.

Record ComparisonResult (A : Type) : Type := {
  scenario : string;
  metric : string;
  app1 : StatisticalSummary A;
  app2 : StatisticalSummary A;
  improvement : A;
  significantDifference : bool;
  winner : Winner
}.

Record TestStep (A : Type) : Type := {
  action : string;
  selector : option string;
  value : option string;
  url : option string;
  timeout : option A;
  customFunction : option string
}.

Definition Winner_eqb (a b : Winner) : bool :=
  match a, b with
  | App1, App1 | App2, App2 | Tie, Tie => true
  | _, _ => false
  end.

(** ** [src/utils/performance-analyzer.ts] *)

Module PerformanceAnalyzer.
Section Analyzer.
Context {A : Type} {N : JSNumber A}.
Local Open Scope string_scope.
Local Open Scope js_scope.

(** [[...values].sort((a, b) => a - b)]: [x] goes after [y] when the
    comparator is positive on [(x, y)]; equal elements keep their order.
    On numbers that the comparator orders (no NaN) every sorting algorithm
    returns this array. *)
Fixpoint insert (x : A) (sorted : list A) : list A :=
  match sorted with
  | [] => [x]
  | y :: rest => if x - y >? int 0 then y :: insert x rest else x :: sorted
  end.

Definition sort (values : list A) : list A := fold_right insert [] values.

Definition calculatePercentile (sortedValues : list A) (percentile : A) : A :=
  let index := (percentile / int 100) * (len sortedValues - int 1) in
  let lower := Math_floor index in
  let upper := Math_ceil index in
  let weight := rem1 index in
  if upper >=? len sortedValues
  then at_index sortedValues (len sortedValues - int 1)
  else if lower <? int 0
  then at_index sortedValues (int 0)
  else at_index sortedValues lower * (int 1 - weight)
       + at_index sortedValues upper * weight.

(** [Math.round(x * 100) / 100] *)
Definition round2 (x : A) : A := Math_round (x * int 100) / int 100.

Definition calculateStatistics (values : list A)
  : result (StatisticalSummary A) :=
  if (List.length values =? 0)%nat
  then Throw (Error "Cannot calculate statistics for empty array")
  else
    let sortedValues := sort values in
    let n := len values in
    let mean := fold_left (fun sum val => sum + val) values (int 0) / n in
    let median := calculatePercentile sortedValues (int 50) in
    let p95 := calculatePercentile sortedValues (int 95) in
    let p99 := calculatePercentile sortedValues (int 99) in
    let min := Math_min values in
    let max := Math_max values in
    let variance :=
      fold_left (fun sum val => sum + square (val - mean)) values (int 0) / n in
    let standardDeviation := Math_sqrt variance in
    Ok {| mean := round2 mean;
          median := round2 median;
          p95 := round2 p95;
          p99 := round2 p99;
          min := round2 min;
          max := round2 max;
          standardDeviation := round2 standardDeviation;
          variance := round2 variance |}.

(** [x || 0] on an optional field. *)
Definition or_zero (x : option A) : A :=
  match x with
  | Some v => if truthy v then v else int 0
  | None => int 0
  end.

(** The [switch] of [extractMetricValues]. *)
Definition metricValue (metric : string) (result : MetricsResult A) : A :=
  if String.eqb metric "lcp" then lcp (coreWebVitals result)
  else if String.eqb metric "fid" then or_zero (fid (coreWebVitals result))
  else if String.eqb metric "inp" then or_zero (inp (coreWebVitals result))
  else if String.eqb metric "cls" then cls (coreWebVitals result)
  else if String.eqb metric "ttfb" then ttfb (performanceMetrics result)
  else if String.eqb metric "fcp" then fcp (performanceMetrics result)
  else if String.eqb metric "tti" then tti (performanceMetrics result)
  else if String.eqb metric "totalPageLoadTime"
  then totalPageLoadTime (performanceMetrics result)
  else if String.eqb metric "domContentLoaded"
  then domContentLoaded (performanceMetrics result)
  else int 0.

Definition extractMetricValues (results : list (MetricsResult A))
  (metric : string) : list A :=
  filter (fun value => value >? int 0) (map (metricValue metric) results).

Definition calculateImprovement (baseline comparison : A) : A :=
  if baseline === int 0 then int 0
  else Math_round (((baseline - comparison) / baseline) * int 100 * int 100)
       / int 100.

Definition isSignificantDifference (values1 values2 : list A) : result bool :=
  if (List.length values1 <? 2)%nat || (List.length values2 <? 2)%nat
  then Ok false
  else
    bind (calculateStatistics values1) (fun stats1 =>
    bind (calculateStatistics values2) (fun stats2 =>
    let pooledVariance :=
      ((len values1 - int 1) * variance stats1
       + (len values2 - int 1) * variance stats2)
      / (len values1 + len values2 - int 2) in
    let standardError :=
      Math_sqrt (pooledVariance * (int 1 / len values1 + int 1 / len values2)) in
    let tScore := Math_abs (mean stats1 - mean stats2) / standardError in
    let criticalValue := lit (2 # 1) in
    Ok (tScore >? criticalValue))).

Definition lowerIsBetter : list string :=
  ["lcp"; "fid"; "inp"; "cls"; "ttfb"; "fcp"; "tti";
   "totalPageLoadTime"; "domContentLoaded"].

Definition includes (xs : list string) (x : string) : bool :=
  existsb (String.eqb x) xs.

Definition determineWinner (value1 value2 : A) (metric : string) : Winner :=
  let threshold := lit (5 # 100) in
  let difference := Math_abs (value1 - value2) in
  let average := (value1 + value2) / int 2 in
  if difference / average <? threshold then Tie
  else if includes lowerIsBetter metric
  then (if value1 <? value2 then App1 else App2)
  else (if value1 >? value2 then App1 else App2).

Definition metrics : list string :=
  ["lcp"; "fid"; "inp"; "cls"; "ttfb"; "fcp"; "tti";
   "totalPageLoadTime"; "domContentLoaded"].

(** One turn of the loop of [compareApplications]: [comparisons] after the
    turn for [metric]. *)
Definition compareMetric (app1Results app2Results : list (MetricsResult A))
  (scenario : string) (comparisons : list (ComparisonResult A))
  (metric : string) : result (list (ComparisonResult A)) :=
  let app1Values := extractMetricValues app1Results metric in
  let app2Values := extractMetricValues app2Results metric in
  if (List.length app1Values =? 0)%nat || (List.length app2Values =? 0)%nat
  then Ok comparisons
  else
    bind (calculateStatistics app1Values) (fun app1Stats =>
    bind (calculateStatistics app2Values) (fun app2Stats =>
    let improvement := calculateImprovement (mean app1Stats) (mean app2Stats) in
    bind (isSignificantDifference app1Values app2Values)
      (fun significantDifference =>
    let winner := determineWinner (mean app1Stats) (mean app2Stats) metric in
    Ok ((comparisons ++
        [{| scenario := scenario;
            metric := metric;
            app1 := app1Stats;
            app2 := app2Stats;
            improvement := improvement;
            significantDifference := significantDifference;
            winner := winner |}])%list)))).

Definition compareApplications (app1Results app2Results : list (MetricsResult A))
  (scenario : string) : result (list (ComparisonResult A)) :=
  fold_left
    (fun acc metric =>
       bind acc (fun comparisons =>
         compareMetric app1Results app2Results scenario comparisons metric))
    metrics (Ok []).

(** [regressionThreshold] defaults to 10. *)
Definition detectRegressions (comparisons : list (ComparisonResult A))
  (regressionThreshold : option A) : list (ComparisonResult A) :=
  let regressionThreshold :=
    match regressionThreshold with Some t => t | None => int 10 end in
  filter
    (fun comparison =>
       Winner_eqb (winner comparison) App1
       && (Math_abs (improvement comparison) >? regressionThreshold)
       && significantDifference comparison)
    comparisons.

(** The body of the loop of [calculatePerformanceScore] for one [result]:
    the new [(totalScore, totalWeight)]. *)
Definition scoreStep (totals : A * A) (result : MetricsResult A) : A * A :=
  let w_lcp := lit (3 # 10) in
  let w_fid := lit (2 # 10) in
  let w_cls := lit (2 # 10) in
  let w_ttfb := lit (15 # 100) in
  let w_tti := lit (15 # 100) in
  let score := int 0 in
  let score :=
    score + w_lcp
            * max2 (int 0) (int 100 - lcp (coreWebVitals result) / int 25) in
  let score :=
    score + w_fid
            * max2 (int 0)
                (int 100 - or_zero (fid (coreWebVitals result)) / int 1) in
  let score :=
    score + w_cls
            * max2 (int 0) (int 100 - cls (coreWebVitals result) * int 1000) in
  let score :=
    score + w_ttfb
            * max2 (int 0) (int 100 - ttfb (performanceMetrics result) / int 6) in
  let score :=
    score + w_tti
            * max2 (int 0) (int 100 - tti (performanceMetrics result) / int 35) in
  (fst totals + score,
   snd totals
   + fold_left (fun sum weight => sum + weight)
       [w_lcp; w_fid; w_cls; w_ttfb; w_tti] (int 0)).

Definition calculatePerformanceScore (results : list (MetricsResult A)) : A :=
  let totals := fold_left scoreStep results (int 0, int 0) in
  let totalScore := fst totals in
  Math_round ((totalScore / len results) * int 100) / int 100.

End Analyzer.
End PerformanceAnalyzer.

(** ** Strings as the runner uses them *)

Module Str.
Local Open Scope string_scope.

(** [s.includes(sub)] *)
Fixpoint includes (sub s : string) : bool :=
  String.prefix sub s
  || match s with
     | EmptyString => false
     | String _ rest => includes sub rest
     end.

(** [s.slice(n)] *)
Fixpoint drop (n : nat) (s : string) : string :=
  match n, s with
  | O, _ => s
  | S k, String _ rest => drop k rest
  | S _, EmptyString => EmptyString
  end.

(** The replacement text of [String.prototype.replace] for a string pattern
    (no capture groups): [$$] is a dollar, [$&] the matched text, [$`] what
    precedes the match and [$'] what follows it; anything else is literal. *)
Fixpoint getSubstitution (matched before after replacement : string) : string :=
  match replacement with
  | String "$" (String c rest as tail) =>
      if Ascii.eqb c "$" then String "$" (getSubstitution matched before after rest)
      else if Ascii.eqb c "&" then matched ++ getSubstitution matched before after rest
      else if Ascii.eqb c "`" then before ++ getSubstitution matched before after rest
      else if Ascii.eqb c "'" then after ++ getSubstitution matched before after rest
      else String "$" (getSubstitution matched before after tail)
  | String c rest => String c (getSubstitution matched before after rest)
  | EmptyString => EmptyString
  end.

(** [s.replace(pattern, replacement)] for a string [pattern]: the first
    occurrence only.  [before] is the text already passed. *)
Fixpoint replace_from (before : string) (pattern replacement s : string) : string :=
  if String.prefix pattern s
  then before
       ++ getSubstitution pattern before (drop (String.length pattern) s) replacement
       ++ drop (String.length pattern) s
  else match s with
       | EmptyString => before
       | String c rest => replace_from (before ++ String c "") pattern replacement rest
       end.

Definition replace (pattern replacement s : string) : string :=
  replace_from "" pattern replacement s.

(** [\w] *)
Definition is_word (c : ascii) : bool :=
  let n := nat_of_ascii c in
  (((65 <=? n) && (n <=? 90)) || ((97 <=? n) && (n <=? 122))
   || ((48 <=? n) && (n <=? 57)) || (n =? 95))%nat.

(** The longest run of word characters [s] starts with. *)
Fixpoint word (s : string) : string :=
  match s with
  | String c rest => if is_word c then String c (word rest) else EmptyString
  | EmptyString => EmptyString
  end.

(** A match of [/\$\{(\w+)\}/] at the start of [s]: the captured key. *)
Definition placeholder_at (s : string) : option string :=
  if String.prefix "${" s
  then let key := word (drop 2 s) in
       if (0 <? String.length key)%nat
          && String.prefix "}" (drop (2 + String.length key) s)
       then Some key else None
  else None.

(** [s.replace(/\$\{(\w+)\}/g, f)]: at each position in turn, a match is
    replaced by [f match key] and the scan goes on after it; otherwise the
    character is kept.  [skip] counts the characters of a match still to pass. *)
Fixpoint replace_placeholders (f : string -> string -> string) (skip : nat)
  (s : string) : string :=
  match s with
  | EmptyString => EmptyString
  | String c rest =>
      match skip with
      | S k => replace_placeholders f k rest
      | O =>
          match placeholder_at s with
          | Some key =>
              f ("${" ++ key ++ "}") key
              ++ replace_placeholders f (String.length key + 2) rest
          | None => String c (replace_placeholders f 0 rest)
          end
      end
  end.

(** [s.split('.')] *)
Fixpoint split_dots (current s : string) : list string :=
  match s with
  | EmptyString => [current]
  | String c rest =>
      if Ascii.eqb c "."
      then current :: split_dots "" rest
      else split_dots (current ++ String c "") rest
  end.

Definition split (s : string) : list string := split_dots "" s.

(** The array index a property key denotes: decimal digits, no leading zero. *)
Fixpoint digits (acc : nat) (s : string) : option nat :=
  match s with
  | EmptyString => Some acc
  | String c rest =>
      let n := nat_of_ascii c in
      if ((48 <=? n) && (n <=? 57))%nat
      then digits (10 * acc + (n - 48)) rest
      else None
  end.

Definition index_of_key (k : string) : option nat :=
  match k with
  | EmptyString => None
  | String "0" EmptyString => Some 0%nat
  | String "0" _ => None
  | _ => digits 0 k
  end.

End Str.

(** ** The test data file *)

(** A parsed JSON value. *)
Inductive json : Type :=
| JNull
| JBool (b : bool)
| JNum (q : Q)
| JStr (s : string)
| JArr (items : list json)
| JObj (fields : list (string * json)).

Record User : Type := {
  username : string;
  password : string
}.

(** The [testData] object of [data/test-scenarios.json]: the user pool, when
    the file has one, and the other keys.  [users] lists records with a string
    [username] and a string [password], as the file's schema has them. *)
Record TestData : Type := {
  users : option (list User);
  entries : list (string * json)
}.

Module Json.
Local Open Scope string_scope.

Definition of_user (u : User) : json :=
  JObj [("username", JStr (username u)); ("password", JStr (password u))].

Fixpoint lookup (k : string) (fields : list (string * json)) : option json :=
  match fields with
  | [] => None
  | (k', v) :: rest => if String.eqb k k' then Some v else lookup k rest
  end.

(** The fields of the [testData] object. *)
Definition fields_of (data : TestData) : list (string * json) :=
  match users data with
  | Some us => ("users", JArr (map of_user us)) :: entries data
  | None => entries data
  end.

(** [value?.[k]], [None] being [undefined]: own properties of an object, the
    elements and the length of an array, the characters and the length of a
    string.  What the prototypes add are functions, which are not part of the
    data and are read as [undefined]. *)
Definition get (value : option json) (k : string) : option json :=
  match value with
  | Some (JObj fields) => lookup k fields
  | Some (JArr items) =>
      match Str.index_of_key k with
      | Some i => nth_error items i
      | None =>
          if String.eqb k "length"
          then Some (JNum (inject_Z (Z.of_nat (List.length items))))
          else None
      end
  | Some (JStr s) =>
      match Str.index_of_key k with
      | Some i =>
          match String.get i s with
          | Some c => Some (JStr (String c ""))
          | None => None
          end
      | None =>
          if String.eqb k "length"
          then Some (JNum (inject_Z (Z.of_nat (String.length s))))
          else None
      end
  | _ => None
  end.

End Json.

(** ** [src/utils/scenario-runner.ts] *)

(** The calls a step makes on the Playwright page and its locators. *)
Inductive PageCall (A : Type) : Type :=
| WaitFor (selector state : string) (timeout : A)
| Click (selector : string)
| Clear (selector : string)
| Fill (selector value : string)
| WaitForTimeout (ms : A).

Arguments Click {A} selector.
Arguments Clear {A} selector.
Arguments Fill {A} selector value.

(** What a run has done so far: the page calls issued, latest last, and the
    number of values drawn from [Math.random]. *)
Record World (A : Type) : Type := {
  calls : list (PageCall A);
  draws : nat
}.

Module ScenarioRunner.
Section Runner.
Context {A : Type} {N : JSNumber A}.
Local Open Scope string_scope.
Local Open Scope js_scope.

(** [this.testData.testData]: [None] when the data file could not be read or
    has no such key. *)
Variable testData : option TestData.

(** The [k]-th value [Math.random()] returns. *)
Variable random : nat -> A.

(** Whether the page rejects a call, given the calls before it: [Some message]
    is a [TimeoutError]. *)
Variable page : list (PageCall A) -> PageCall A -> option string.

Definition M (T : Type) : Type := World A -> result T * World A.

Definition ret {T : Type} (v : T) : M T := fun w => (Ok v, w).

Definition throw {T : Type} (e : exn) : M T := fun w => (Throw e, w).

Definition seq {T U : Type} (m : M T) (k : T -> M U) : M U :=
  fun w =>
    match m w with
    | (Ok v, w') => k v w'
    | (Throw e, w') => (Throw e, w')
    end.

(** An awaited page call. *)
Definition await (c : PageCall A) : M unit :=
  fun w =>
    let w' := {| calls := (calls w ++ [c])%list; draws := draws w |} in
    match page (calls w) c with
    | Some message => (Throw (TimeoutError message), w')
    | None => (Ok tt, w')
    end.

Definition Math_random : M A :=
  fun w => (Ok (random (draws w)), {| calls := calls w; draws := S (draws w) |}).

Definition defaultUsers : list User :=
  [{| username := "testuser@example.com"; password := "testpass" |}].

(** [getRandomUser]: [None] is [undefined], the element read past the end of
    an empty pool. *)
Definition getRandomUser : M (option User) :=
  let users :=
    match testData with
    | Some data => match users data with Some us => us | None => defaultUsers end
    | None => defaultUsers
    end in
  seq Math_random (fun r =>
  ret match to_index (Math_floor (r * len users)) with
      | Some i => nth_error users i
      | None => None
      end).

(** [user.username] and [user.password]: a [TypeError] on [undefined]. *)
Definition field (f : User -> string) (user : option User) : M string :=
  match user with
  | Some u => ret (f u)
  | None => throw (TypeError "Cannot read properties of undefined")
  end.

Definition getTestDataValue (key : string) : string :=
  let testData :=
    match testData with
    | Some data => JObj (Json.fields_of data)
    | None => JObj []
    end in
  let keys := Str.split key in
  let value := fold_left (fun value k => Json.get value k) keys (Some testData) in
  match value with
  | Some (JStr s) => s
  | _ => ""
  end.

(** [a || b] on strings: the empty string is falsy. *)
Definition or_else (a b : string) : string :=
  if (String.length a =? 0)%nat then b else a.

Definition processValue (value : string) : M string :=
  if negb (Str.includes "${" value) then ret value
  else
    let processedValue := value in
    seq (if Str.includes "${username}" processedValue
         then seq getRandomUser (fun user =>
              seq (field username user) (fun name =>
              ret (Str.replace "${username}" name processedValue)))
         else ret processedValue) (fun processedValue =>
    seq (if Str.includes "${password}" processedValue
         then seq getRandomUser (fun user =>
              seq (field password user) (fun pass =>
              ret (Str.replace "${password}" pass processedValue)))
         else ret processedValue) (fun processedValue =>
    let processedValue :=
      Str.replace_placeholders
        (fun match_ key => or_else (getTestDataValue key) match_)
        0 processedValue in
    ret processedValue)).

(** [!step.selector]: the selector is absent or the empty string. *)
Definition missing (s : option string) : bool :=
  match s with
  | Some text => (String.length text =? 0)%nat
  | None => true
  end.

(** The string of an optional field that is known to be there. *)
Definition text (field : option string) : string :=
  match field with
  | Some s => s
  | None => ""
  end.

(** [step.value === undefined] *)
Definition undefined (value : option string) : bool :=
  match value with
  | Some _ => false
  | None => true
  end.

Definition executeClickStep (step : TestStep A) (timeout : A) : M unit :=
  if missing (selector step)
  then throw (Error "Click step requires selector")
  else
    let element := text (selector step) in
    seq (await (WaitFor element "visible" timeout)) (fun _ =>
    seq (await (Click element)) (fun _ =>
    await (WaitForTimeout (int 1000)))).

Definition executeFillStep (step : TestStep A) : M unit :=
  if missing (selector step) || undefined (value step)
  then throw (Error "Fill step requires selector and value")
  else
    let element := text (selector step) in
    seq (await (WaitFor element "visible" (int 5000))) (fun _ =>
    seq (processValue (text (value step))) (fun value =>
    seq (await (Clear element)) (fun _ =>
    await (Fill element value)))).

End Runner.
End ScenarioRunner.

(** ** The reports of [src/utils/performance-analyzer.ts] *)

(** [PerformanceThresholds] of [src/types/index.ts];
    [Partial<PerformanceThresholds>] is [Thresholds.t (option A)]. *)
Module Thresholds.

Record t (A : Type) : Type := {
  lcp : A;
  fid : A;
  cls : A;
  ttfb : A;
  totalLoadTime : A
}.

End Thresholds.

(** What [checkThresholds] returns. *)
Record ThresholdCheck : Type := {
  passed : bool;
  failures : list string
}.

Module AnalyzerReports.
Section Reports.
Context {A : Type} {N : JSNumber A}.
Local Open Scope string_scope.
Local Open Scope js_scope.

(** The text of a number in a template literal. *)
Variable show : A -> string.

(** [s.toUpperCase()] *)
Variable toUpperCase : string -> string.

(** The text of an optional number in a template literal. *)
Definition show_optional (x : option A) : string :=
  match x with
  | Some v => show v
  | None => "undefined"
  end.

(** [xs.push(x)] *)
Definition push (xs : list string) (x : string) : list string :=
  (xs ++ [x])%list.

(** The body of the loop of [checkThresholds] for one [result]: [failures]
    after it. *)
Definition checkResult (thresholds : Thresholds.t A) (failures : list string)
  (result : MetricsResult A) : list string :=
  let failures :=
    if lcp (coreWebVitals result) >? Thresholds.lcp thresholds
    then push failures
           ("LCP " ++ show (lcp (coreWebVitals result))
            ++ "ms exceeds threshold " ++ show (Thresholds.lcp thresholds)
            ++ "ms")
    else failures in
  let failures :=
    if PerformanceAnalyzer.or_zero (fid (coreWebVitals result))
       >? Thresholds.fid thresholds
    then push failures
           ("FID " ++ show_optional (fid (coreWebVitals result))
            ++ "ms exceeds threshold " ++ show (Thresholds.fid thresholds)
            ++ "ms")
    else failures in
  let failures :=
    if cls (coreWebVitals result) >? Thresholds.cls thresholds
    then push failures
           ("CLS " ++ show (cls (coreWebVitals result))
            ++ " exceeds threshold " ++ show (Thresholds.cls thresholds))
    else failures in
  let failures :=
    if ttfb (performanceMetrics result) >? Thresholds.ttfb thresholds
    then push failures
           ("TTFB " ++ show (ttfb (performanceMetrics result))
            ++ "ms exceeds threshold " ++ show (Thresholds.ttfb thresholds)
            ++ "ms")
    else failures in
  let failures :=
    if totalPageLoadTime (performanceMetrics result)
       >? Thresholds.totalLoadTime thresholds
    then push failures
           ("Total Load Time "
            ++ show (totalPageLoadTime (performanceMetrics result))
            ++ "ms exceeds threshold "
            ++ show (Thresholds.totalLoadTime thresholds) ++ "ms")
    else failures in
  failures.

Definition checkThresholds (results : list (MetricsResult A))
  (thresholds : Thresholds.t A) : ThresholdCheck :=
  let failures := fold_left (checkResult thresholds) results [] in
  {| passed := (List.length failures =? 0)%nat; failures := failures |}.

(** The body of the loop of [generateRecommendations] for one [comparison]:
    [recommendations] after it. *)
Definition recommend (recommendations : list string)
  (comparison : ComparisonResult A) : list string :=
  let recommendations :=
    if Winner_eqb (winner comparison) App2
       && (improvement comparison >? int 10)
    then push recommendations
           ("‚úÖ " ++ toUpperCase (metric comparison)
            ++ ": Nueva aplicaci√≥n es "
            ++ show (Math_abs (improvement comparison))
            ++ "% m√°s r√°pida (" ++ show (mean (app2 comparison))
            ++ "ms vs " ++ show (mean (app1 comparison)) ++ "ms)")
    else if Winner_eqb (winner comparison) App1
            && (improvement comparison <? int (-10))
    then push recommendations
           ("‚ö†Ô∏è " ++ toUpperCase (metric comparison)
            ++ ": Nueva aplicaci√≥n es "
            ++ show (Math_abs (improvement comparison))
            ++ "% m√°s lenta (" ++ show (mean (app2 comparison))
            ++ "ms vs " ++ show (mean (app1 comparison)) ++ "ms)")
    else recommendations in
  let recommendations :=
    if String.eqb (metric comparison) "lcp"
       && (mean (app2 comparison) >? int 2500)
    then push recommendations
           "üéØ Optimizar LCP: Considerar lazy loading de im√°genes y optimizaci√≥n del servidor"
    else recommendations in
  let recommendations :=
    if String.eqb (metric comparison) "cls"
       && (mean (app2 comparison) >? lit (1 # 10))
    then push recommendations
           "üéØ Reducir CLS: Definir dimensiones de im√°genes y reservar espacio para contenido din√°mico"
    else recommendations in
  let recommendations :=
    if String.eqb (metric comparison) "ttfb"
       && (mean (app2 comparison) >? int 600)
    then push recommendations
           "üéØ Mejorar TTFB: Optimizar respuesta del servidor y considerar CDN"
    else recommendations in
  recommendations.

Definition generateRecommendations (comparisons : list (ComparisonResult A))
  : list string :=
  fold_left recommend comparisons [].

End Reports.
End AnalyzerReports.
(** ** The scenarios of [src/utils/scenario-runner.ts] *)

(** [TestScenario] of [src/types/index.ts]; its field [name] is
    [scenario_name] here, the plain name being that of [ResourceTiming]. *)
Record TestScenario (A : Type) : Type := {
  scenario_name : string;
  description : string;
  steps : list (TestStep A);
  expectedMetrics : Thresholds.t (option A)
}.

(** What the runner calls outside its own file, as it finds it: the page's
    [goto(url, { waitUntil, timeout })], [url()], mouse, [evaluate] and
    locators, the navigation and the form of the login page, the dashboard
    page and the metrics collector. *)
Class Outside (A : Type) : Type := {
  goto : string -> string -> A -> @ScenarioRunner.M A unit;
  current_url : World A -> string;
  mouse_move : A -> A -> @ScenarioRunner.M A unit;
  mouse_wheel : A -> A -> @ScenarioRunner.M A unit;
  scrollHeight : @ScenarioRunner.M A A;
  count : string -> @ScenarioRunner.M A A;
  focus : string -> A -> @ScenarioRunner.M A unit;
  blur : string -> A -> @ScenarioRunner.M A unit;
  setInputFiles : string -> @ScenarioRunner.M A unit;
  navigateToLogin : @ScenarioRunner.M A unit;
  performLogin : @ScenarioRunner.M A unit;
  measureDashboardLoad : @ScenarioRunner.M A unit;
  setupPerformanceObservers : @ScenarioRunner.M A unit;
  injectWebVitalsLibrary : @ScenarioRunner.M A unit;
  waitForPageLoad : option A -> @ScenarioRunner.M A unit;
  measureApiResponseTime : string -> @ScenarioRunner.M A A;
  collectAllMetrics :
    string -> string -> string -> string -> A
    -> @ScenarioRunner.M A (MetricsResult A)
}.

(** ** The login check of [src/pages/login.page.ts] *)

Module LoginPage.
Section Login.
Context {A : Type} {N : JSNumber A} {O : Outside A}.
Import ScenarioRunner.
Local Open Scope string_scope.

Variable page : list (PageCall A) -> PageCall A -> option string.

(** [selectors.errorMessage], with the quotes of the source around
    [error]. *)
Definition errorMessage : string :=
  "[data-testid=" ++ String "034" ("error" ++ String "034"
    "], .error, .alert-error, .login-error").

(** [BasePage.elementExists]: [timeout] defaults to 5000. *)
Definition elementExists (selector : string) (timeout : option A)
  : @ScenarioRunner.M A bool :=
  let timeout := match timeout with Some t => t | None => int 5000 end in
  fun w =>
    match await page (WaitFor selector "visible" timeout) w with
    | (Ok _, w') => (Ok true, w')
    | (Throw _, w') => (Ok false, w')
    end.

(** [BasePage.getCurrentUrl] *)
Definition getCurrentUrl (w : World A) : string := current_url w.

Definition isLoginSuccessful : @ScenarioRunner.M A bool :=
  fun w =>
    let currentUrl := getCurrentUrl w in
    seq (elementExists errorMessage (Some (int 2000))) (fun hasErrorMessage =>
    ret (negb (Str.includes "/login" currentUrl) && negb hasErrorMessage)) w.

End Login.
End LoginPage.

Module Scenarios.
Section Scenarios.
Context {A : Type} {N : JSNumber A} {O : Outside A}.
Import ScenarioRunner.
Local Open Scope string_scope.
Local Open Scope js_scope.

Variable testData : option TestData.
Variable random : nat -> A.
Variable page : list (PageCall A) -> PageCall A -> option string.

(** [this.testData.scenarios]: [None] when the data file could not be read or
    has no such key. *)
Variable scenarios : option (list (TestScenario A)).

(** [this.appConfig.baseUrl] and [this.appConfig.name] *)
Variable baseUrl : string.
Variable appName : string.

Local Abbreviation M := (@ScenarioRunner.M A).

(** [this.testData.scenarios || []] *)
Definition scenarios_or_empty : list (TestScenario A) :=
  match scenarios with
  | Some declared => declared
  | None => []
  end.

(** [getScenario]: [None] is [null]. *)
Definition getScenario (name : string) : option (TestScenario A) :=
  find (fun s => String.eqb (scenario_name s) name) scenarios_or_empty.

Definition getAvailableScenarios : list string :=
  map (fun s => scenario_name s) scenarios_or_empty.

Definition isValidScenario (scenarioName : string) : bool :=
  existsb (String.eqb scenarioName) getAvailableScenarios.

(** [scenario?.expectedMetrics || {}] *)
Definition getScenarioExpectedMetrics (scenarioName : string)
  : Thresholds.t (option A) :=
  match getScenario scenarioName with
  | Some scenario => expectedMetrics scenario
  | None =>
      {| Thresholds.lcp := None; Thresholds.fid := None;
         Thresholds.cls := None; Thresholds.ttfb := None;
         Thresholds.totalLoadTime := None |}
  end.

(** [x || d] on an optional number. *)
Definition or_default (x : option A) (d : A) : A :=
  match x with
  | Some v => if truthy v then v else d
  | None => d
  end.

Definition executeNavigateStep (step : TestStep A) : M unit :=
  let url :=
    match url step with
    | Some u => if String.prefix "http" u then u else baseUrl ++ u
    | None => baseUrl ++ "undefined"
    end in
  goto url "domcontentloaded" (or_default (timeout step) (int 30000)).

Definition executeWaitStep (step : TestStep A) (timeout : A) : M unit :=
  if negb (missing (selector step))
  then
    let element := text (selector step) in
    await page (WaitFor element "visible" timeout)
  else await page (WaitForTimeout (Math_min [timeout; int 10000])).

(** [try { body } catch (error) { console.warn(...) }] *)
Definition attempt (body : M unit) : M unit :=
  fun w =>
    match body w with
    | (Ok v, w') => (Ok v, w')
    | (Throw _, w') => (Ok tt, w')
    end.

(** The selector [input[type=file]], with the quotes of the source around
    [file].  The temporary file that [executeFileUpload] writes and removes
    is not part of the world; a failure of any of its calls is caught with
    the others. *)
Definition fileInput : string :=
  "input[type=" ++ String "034" ("file" ++ String "034" "]").

Definition executeFileUpload : M unit :=
  attempt (setInputFiles fileInput).

(** [MetricsCollector.setApplicationMetric], whose body is empty. *)
Definition setApplicationMetric (category key : string) (value : A) : M unit :=
  ret tt.

Definition commonEndpoints : list string :=
  ["/api/data"; "/api/user"; "/api/dashboard"].

Definition measureApiResponses : M unit :=
  fold_left
    (fun done endpoint =>
       seq done (fun _ =>
       attempt
         (seq (measureApiResponseTime (baseUrl ++ endpoint)) (fun responseTime =>
          if responseTime >? int 0
          then setApplicationMetric "apiResponseTimes" endpoint responseTime
          else ret tt))))
    commonEndpoints (ret tt).

Definition simulateUserInteractions (scenarioName : string) : M unit :=
  seq (Math_random random) (fun r =>
  seq (await page (WaitForTimeout (int 500 + r * int 1000))) (fun _ =>
  seq (mouse_move (int 100) (int 100)) (fun _ =>
  seq (await page (WaitForTimeout (int 200))) (fun _ =>
  seq (mouse_move (int 300) (int 200)) (fun _ =>
  seq scrollHeight (fun pageHeight =>
  seq (if pageHeight >? int 800
       then seq (mouse_wheel (int 0) (int 300)) (fun _ =>
            seq (await page (WaitForTimeout (int 500))) (fun _ =>
            mouse_wheel (int 0) (int (-150))))
       else ret tt) (fun _ =>
  let inputs := "input, textarea" in
  seq (count inputs) (fun inputCount =>
  if inputCount >? int 0
  then seq (Math_random random) (fun r =>
       let randomInput := Math_floor (r * inputCount) in
       seq (focus inputs randomInput) (fun _ =>
       seq (await page (WaitForTimeout (int 200))) (fun _ =>
       blur inputs randomInput)))
  else ret tt)))))))).

Definition executeCustomStep (step : TestStep A) (scenarioName : string)
  : M unit :=
  if missing (customFunction step)
  then throw (Error "Custom step requires customFunction")
  else
    let name := text (customFunction step) in
    if String.eqb name "measureDashboardWidgets" then measureDashboardLoad
    else if String.eqb name "uploadTestFile" then executeFileUpload
    else if String.eqb name "measureApiResponseTime" then measureApiResponses
    else if String.eqb name "simulateUserInteractions"
    then simulateUserInteractions scenarioName
    else ret tt.

Definition executeStep (step : TestStep A) (scenarioName : string) : M unit :=
  let timeout := or_default (timeout step) (int 10000) in
  if String.eqb (action step) "navigate" then executeNavigateStep step
  else if String.eqb (action step) "click"
  then executeClickStep page step timeout
  else if String.eqb (action step) "fill"
  then executeFillStep testData random page step
  else if String.eqb (action step) "wait" then executeWaitStep step timeout
  else if String.eqb (action step) "custom"
  then executeCustomStep step scenarioName
  else ret tt.

(** The loop of [runScenario] over the steps left: [currentUrl] at its end. *)
Fixpoint executeSteps (remaining : list (TestStep A)) (scenarioName : string)
  (currentUrl : string) : M string :=
  match remaining with
  | [] => ret currentUrl
  | step :: rest =>
      seq (executeStep step scenarioName) (fun _ =>
      fun w => executeSteps rest scenarioName (current_url w) w)
  end.

Definition runScenario (scenarioName environment : string) (iteration : A)
  : M (MetricsResult A) :=
  match getScenario scenarioName with
  | None => throw (Error ("Scenario '" ++ scenarioName ++ "' not found"))
  | Some scenario =>
      seq setupPerformanceObservers (fun _ =>
      seq injectWebVitalsLibrary (fun _ =>
      let currentUrl := baseUrl in
      seq (executeSteps (steps scenario) scenarioName currentUrl)
        (fun currentUrl =>
      seq (waitForPageLoad None) (fun _ =>
      collectAllMetrics currentUrl environment appName scenarioName
        iteration))))
  end.

(** [requiresLogin] defaults to [true]. *)
Definition runScenarioWithAuth (scenarioName environment : string)
  (iteration : A) (requiresLogin : option bool) : M (MetricsResult A) :=
  let requiresLogin :=
    match requiresLogin with Some b => b | None => true end in
  seq (if requiresLogin
       then seq navigateToLogin (fun _ =>
            seq performLogin (fun _ =>
            seq (LoginPage.isLoginSuccessful page) (fun isLoggedIn =>
            if negb isLoggedIn
            then throw (Error "Login failed before running scenario")
            else ret tt)))
       else ret tt) (fun _ =>
  runScenario scenarioName environment iteration).

End Scenarios.
End Scenarios.

(** ** The resource types of [src/utils/metrics-collector.ts] *)

Module MetricsCollector.
Local Open Scope string_scope.

(** A letter of ASCII in lower case, for the patterns with the flag [i]. *)
Definition lower (c : ascii) : ascii :=
  let n := nat_of_ascii c in
  if ((65 <=? n) && (n <=? 90))%nat then ascii_of_nat (n + 32) else c.

Fixpoint lowercase (s : string) : string :=
  match s with
  | EmptyString => EmptyString
  | String c rest => String (lower c) (lowercase rest)
  end.

(** A match of [/\.(e1|e2|...)$/i] somewhere in [s]: a dot and one of the
    extensions, in either case, up to the end of [s]. *)
Fixpoint matches_extension (extensions : list string) (s : string) : bool :=
  existsb (fun e => String.eqb (lowercase s) ("." ++ e)) extensions
  || match s with
     | EmptyString => false
     | String _ rest => matches_extension extensions rest
     end.

Definition getResourceType (url : string) : string :=
  if Str.includes ".js" url then "script"
  else if Str.includes ".css" url then "stylesheet"
  else if matches_extension ["png"; "jpg"; "jpeg"; "gif"; "webp"; "svg"] url
  then "image"
  else if matches_extension ["woff"; "woff2"; "ttf"; "otf"] url then "font"
  else "other".

End MetricsCollector.

(** ** The analysis of the comparison test, [afterAll] *)

Module ComparisonTest.
Section Analysis.
Context {A : Type} {N : JSNumber A}.
Local Open Scope string_scope.

(** One turn of the loop over the scenarios: [comparisonResults] after it. *)
Definition analyzeScenario (app1Results app2Results : list (MetricsResult A))
  (comparisonResults : list (ComparisonResult A)) (scenarioName : string)
  : result (list (ComparisonResult A)) :=
  let app1ScenarioResults :=
    filter (fun r => String.eqb (run_scenario r) scenarioName) app1Results in
  let app2ScenarioResults :=
    filter (fun r => String.eqb (run_scenario r) scenarioName) app2Results in
  if (0 <? List.length app1ScenarioResults)%nat
     && (0 <? List.length app2ScenarioResults)%nat
  then
    bind (PerformanceAnalyzer.compareApplications app1ScenarioResults
            app2ScenarioResults scenarioName) (fun comparison =>
    Ok (comparisonResults ++ comparison)%list)
  else Ok comparisonResults.

(** [comparisonResults] when the loop is over; it starts empty. *)
Definition analyzeResults (scenarios : list string)
  (app1Results app2Results : list (MetricsResult A))
  : result (list (ComparisonResult A)) :=
  fold_left
    (fun acc scenarioName =>
       bind acc (fun comparisonResults =>
         analyzeScenario app1Results app2Results comparisonResults
           scenarioName))
    scenarios (Ok []).

(** [checkForRegressions]: the regressions it reports. *)
Definition checkForRegressions (comparisonResults : list (ComparisonResult A))
  : list (ComparisonResult A) :=
  PerformanceAnalyzer.detectRegressions comparisonResults (Some (int 15)).

End Analysis.
End ComparisonTest.

(** ** Devices of the statements and the proofs *)

Unset Implicit Arguments.

(** The condition of [detectRegressions], as the specification words it:
    the baseline wins, the improvement exceeds the threshold in absolute
    value, and the difference is significant. *)
Definition regression {A : Type} {N : JSNumber A} (threshold : A)
  (comparison : ComparisonResult A) : Prop :=
  winner comparison = App1
  /\ (Math_abs (improvement comparison) >? threshold)%js = true
  /\ significantDifference comparison = true.

(** What the loop of [compareApplications] pushes for one metric. *)
Definition pushed {A : Type} {N : JSNumber A}
  (app1Results app2Results : list (MetricsResult A)) (scenarioName : string)
  (metric : string) : list (ComparisonResult A) :=
  let app1Values := PerformanceAnalyzer.extractMetricValues app1Results metric in
  let app2Values := PerformanceAnalyzer.extractMetricValues app2Results metric in
  match PerformanceAnalyzer.calculateStatistics app1Values,
        PerformanceAnalyzer.calculateStatistics app2Values,
        PerformanceAnalyzer.isSignificantDifference app1Values app2Values with
  | Ok app1Stats, Ok app2Stats, Ok significant =>
      [{| scenario := scenarioName;
          metric := metric;
          app1 := app1Stats;
          app2 := app2Stats;
          improvement :=
            PerformanceAnalyzer.calculateImprovement
              (mean app1Stats) (mean app2Stats);
          significantDifference := significant;
          winner :=
            PerformanceAnalyzer.determineWinner
              (mean app1Stats) (mean app2Stats) metric |}]
  | _, _, _ => []
  end.

(** The operations of the analyzer on plain rationals, to which the
    [rationals] instance reduces on finite numbers. *)
Module Rat.

Fixpoint insert (x : Q) (sorted : list Q) : list Q :=
  match sorted with
  | [] => [x]
  | y :: rest =>
      if negb (Qle_bool (x + - y) 0) then y :: insert x rest else x :: sorted
  end.

Definition sort (values : list Q) : list Q := fold_right insert [] values.

Definition min2 (a b : Q) : Q := if negb (Qle_bool a b) then b else a.

Definition max2 (a b : Q) : Q := if negb (Qle_bool b a) then b else a.

Definition round2 (x : Q) : Q :=
  inject_Z (Qfloor (x * inject_Z 100 + (1 # 2))) / inject_Z 100.

(** The mean of a summary: the sum over the count, rounded. *)
Definition mean (values : list Q) : Q :=
  round2 (fold_left Qplus values 0
          / inject_Z (Z.of_nat (List.length values))).

End Rat.

(** A sample with the given values of the nine tracked metrics; the fields
    the analyzer does not read are blank. *)
Definition sampleOf {A : Type} {N : JSNumber A}
  (lcp fid inp cls ttfb fcp tti totalPageLoadTime domContentLoaded : Q)
  : MetricsResult A :=
  {| timestamp := ""; page_url := ""; environment := "pre";
     application := "legacy"; run_scenario := "login"; iteration := int 1;
     coreWebVitals :=
       {| lcp := lit lcp; fid := Some (lit fid); inp := Some (lit inp);
          cls := lit cls |};
     performanceMetrics :=
       {| ttfb := lit ttfb; fcp := lit fcp; tti := lit tti;
          dnsTime := int 0; sslTime := int 0; resourceLoadTimes := [];
          totalPageLoadTime := lit totalPageLoadTime;
          domContentLoaded := lit domContentLoaded; loadComplete := int 0 |};
     applicationMetrics :=
       {| loginTime := None; dashboardLoadTime := None; navigationTimes := [];
          apiResponseTimes := []; formProcessingTimes := [] |};
     userAgent := ""; networkCondition := None |}.

(** A page whose layout shift is 0.001, a good value of CLS. *)
Definition stablePage {A : Type} {N : JSNumber A} : MetricsResult A :=
  sampleOf 1200 10 20 (1 # 1000) 100 800 1500 2000 1800.

(** Runs that differ in their LCP only. *)
Definition runsWithLcp {A : Type} {N : JSNumber A} (lcps : list Q)
  : list (MetricsResult A) :=
  map (fun lcp => sampleOf lcp 10 20 (1 # 10) 100 800 1500 2000 1800) lcps.

(** The metric and the winner of each comparison. *)
Definition winners {A : Type} (r : result (list (ComparisonResult A)))
  : list (string * Winner) :=
  match r with
  | Ok comparisons => map (fun c => (metric c, winner c)) comparisons
  | Throw _ => []
  end.

(** The metric and the improvement of each comparison. *)
Definition improvements {A : Type} (r : result (list (ComparisonResult A)))
  : list (string * A) :=
  match r with
  | Ok comparisons => map (fun c => (metric c, improvement c)) comparisons
  | Throw _ => []
  end.

(** The metrics of the regressions detected among the comparisons. *)
Definition regressions {A : Type} {N : JSNumber A}
  (r : result (list (ComparisonResult A))) (threshold : option A)
  : list string :=
  match r with
  | Ok comparisons =>
      map (fun c => metric c)
        (PerformanceAnalyzer.detectRegressions comparisons threshold)
  | Throw _ => []
  end.

(** The five tests of [checkThresholds] on one sample, all negative. *)
Definition withinThresholds {A : Type} {N : JSNumber A}
  (thresholds : Thresholds.t A) (result : MetricsResult A) : bool :=
  negb (lcp (coreWebVitals result) >? Thresholds.lcp thresholds)%js
  && negb (PerformanceAnalyzer.or_zero (fid (coreWebVitals result))
           >? Thresholds.fid thresholds)%js
  && negb (cls (coreWebVitals result) >? Thresholds.cls thresholds)%js
  && negb (ttfb (performanceMetrics result) >? Thresholds.ttfb thresholds)%js
  && negb (totalPageLoadTime (performanceMetrics result)
           >? Thresholds.totalLoadTime thresholds)%js.

(** A sample of which nothing could be measured: every metric the threshold
    check reads is NaN. *)
Definition unmeasured {A : Type} {N : JSNumber A} : MetricsResult A :=
  {| timestamp := ""; page_url := ""; environment := "pre";
     application := "legacy"; run_scenario := "login"; iteration := int 1;
     coreWebVitals :=
       {| lcp := NaN; fid := Some NaN; inp := None; cls := NaN |};
     performanceMetrics :=
       {| ttfb := NaN; fcp := NaN; tti := NaN;
          dnsTime := int 0; sslTime := int 0; resourceLoadTimes := [];
          totalPageLoadTime := NaN;
          domContentLoaded := NaN; loadComplete := NaN |};
     applicationMetrics :=
       {| loginTime := None; dashboardLoadTime := None; navigationTimes := [];
          apiResponseTimes := []; formProcessingTimes := [] |};
     userAgent := ""; networkCondition := None |}.

(** The thresholds of the Core Web Vitals: 2500 ms, 100 ms, 0.1, 600 ms and
    5000 ms. *)
Definition webVitalsThresholds {A : Type} {N : JSNumber A} : Thresholds.t A :=
  {| Thresholds.lcp := int 2500; Thresholds.fid := int 100;
     Thresholds.cls := lit (1 # 10); Thresholds.ttfb := int 600;
     Thresholds.totalLoadTime := int 5000 |}.

(** A step with another [timeout]. *)
Definition withTimeout {A : Type} (step : TestStep A) (t : option A)
  : TestStep A :=
  {| action := action step; selector := selector step; value := value step;
     url := url step; timeout := t; customFunction := customFunction step |}.

(** A step of which only the action is given. *)
Definition bareStep {A : Type} (action : string) : TestStep A :=
  {| action := action; selector := None; value := None; url := None;
     timeout := None; customFunction := None |}.

(** Surroundings in which every call returns at once: the page stays at the
    address [address], and has no input and no height. *)
Definition idle {A : Type} {N : JSNumber A} (address : string)
  (sample : MetricsResult A) : Outside A :=
  {| goto := fun _ _ _ => ScenarioRunner.ret tt;
     current_url := fun _ => address;
     mouse_move := fun _ _ => ScenarioRunner.ret tt;
     mouse_wheel := fun _ _ => ScenarioRunner.ret tt;
     scrollHeight := ScenarioRunner.ret (int 0);
     count := fun _ => ScenarioRunner.ret (int 0);
     focus := fun _ _ => ScenarioRunner.ret tt;
     blur := fun _ _ => ScenarioRunner.ret tt;
     setInputFiles := fun _ => ScenarioRunner.ret tt;
     navigateToLogin := ScenarioRunner.ret tt;
     performLogin := ScenarioRunner.ret tt;
     measureDashboardLoad := ScenarioRunner.ret tt;
     setupPerformanceObservers := ScenarioRunner.ret tt;
     injectWebVitalsLibrary := ScenarioRunner.ret tt;
     waitForPageLoad := fun _ => ScenarioRunner.ret tt;
     measureApiResponseTime := fun _ => ScenarioRunner.ret (int 0);
     collectAllMetrics := fun _ _ _ _ _ => ScenarioRunner.ret sample |}.

(** A page that accepts every call. *)
Definition acceptingPage {A : Type} (before : list (PageCall A))
  (call : PageCall A) : option string := None.

(** The world before anything has happened. *)
Definition freshWorld {A : Type} : World A := {| calls := []; draws := 0 |}.

(** A scenario that goes to the login page, clicks a button of which the
    selector was forgotten, and waits. *)
Definition brokenLogin {A : Type} {N : JSNumber A} : TestScenario A :=
  {| scenario_name := "login";
     description := "Log in";
     steps :=
       [{| action := "navigate"; selector := None; value := None;
           url := Some "/login"%string; timeout := None;
           customFunction := None |};
        bareStep "click";
        bareStep "wait"];
     expectedMetrics :=
       {| Thresholds.lcp := None; Thresholds.fid := None;
          Thresholds.cls := None; Thresholds.ttfb := None;
          Thresholds.totalLoadTime := None |} |}.

(** A string without the character [c]. *)
Fixpoint free_of (c : ascii) (s : string) : bool :=
  match s with
  | EmptyString => true
  | String c' rest => negb (Ascii.eqb c' c) && free_of c rest
  end.

(** The users that [getRandomUser] draws from. *)
Definition userPool (testData : option TestData) : list User :=
  match testData with
  | Some data =>
      match users data with
      | Some us => us
      | None => ScenarioRunner.defaultUsers
      end
  | None => ScenarioRunner.defaultUsers
  end.

(** A data file with two users and a nested entry. *)
Definition twoUsers : TestData :=
  {| users := Some [{| username := "alice"; password := "secret" |};
                    {| username := "bob"; password := "hunter2" |}];
     entries :=
       [("formData"%string,
         JObj [("basic"%string, JObj [("title"%string, JStr "Report")])])] |}.

(** Whether both applications have a usable value of [metric]. *)
Definition compared {A : Type} {N : JSNumber A}
  (app1Results app2Results : list (MetricsResult A)) (metric : string) : bool :=
  negb (List.length
          (PerformanceAnalyzer.extractMetricValues app1Results metric) =? 0)%nat
  && negb (List.length
             (PerformanceAnalyzer.extractMetricValues app2Results metric)
           =? 0)%nat.

(** The comparisons of a result, none when it is an error. *)
Definition comparisonsOf {A : Type} (r : result (list (ComparisonResult A)))
  : list (ComparisonResult A) :=
  match r with
  | Ok comparisons => comparisons
  | Throw _ => []
  end.

(** The samples of one scenario. *)
Definition ofScenario {A : Type} (scenarioName : string)
  (results : list (MetricsResult A)) : list (MetricsResult A) :=
  filter (fun r => String.eqb (run_scenario r) scenarioName) results.

(** The winner seen from the other application. *)
Definition swapped (w : Winner) : Winner :=
  match w with
  | App1 => App2
  | App2 => App1
  | Tie => Tie
  end.

(** A comparison in which the first application is 20 % ahead on the LCP. *)
Definition slowerLcp : ComparisonResult Exact.xnum :=
  let summary (m : Q) :=
    {| mean := Exact.Fin m; median := Exact.Fin m; p95 := Exact.Fin m;
       p99 := Exact.Fin m; min := Exact.Fin m; max := Exact.Fin m;
       standardDeviation := Exact.Fin 0; variance := Exact.Fin 0 |} in
  {| scenario := "login"; metric := "lcp";
     app1 := summary 1000; app2 := summary 1200;
     improvement := Exact.Fin (-20);
     significantDifference := true; winner := App1 |}.

(** Whether a binary64, as specified, is a number: neither NaN nor an
    infinity. *)
Definition SFfinite (x : spec_float) : bool :=
  match x with
  | S754_finite _ _ _ | S754_zero _ => true
  | _ => false
  end.

(** [Number.isFinite] *)
Definition isFinite (x : float) : bool := SFfinite (Prim2SF x).

(** The exact value of a finite binary64, counted in units of [2^-1074], the
    least positive binary64. *)
Definition units (x : spec_float) : Z :=
  match x with
  | S754_finite s m e => cond_Zopp s (Zpos m * 2 ^ (e + 1074))
  | _ => 0%Z
  end.

(** Where [calculatePercentile] reads an array of [n] numbers for a
    percentile: at one index, or between two indices with a weight. *)
Inductive Place (A : Type) : Type :=
| At (i : A)
| Between (lower upper weight : A).

Arguments At {A} i.
Arguments Between {A} lower upper weight.

Definition locate {A : Type} {N : JSNumber A} (n percentile : A) : Place A :=
  let index := ((percentile / int 100) * (n - int 1))%js in
  let lower := Math_floor index in
  let upper := Math_ceil index in
  let weight := rem1 index in
  if (upper >=? n)%js then At (n - int 1)%js
  else if (lower <? int 0)%js then At (int 0)
  else Between lower upper weight.

Definition readAt {A : Type} {N : JSNumber A} (xs : list A) (place : Place A)
  : A :=
  match place with
  | At i => at_index xs i
  | Between lower upper weight =>
      (at_index xs lower * (int 1 - weight) + at_index xs upper * weight)%js
  end.

(** The index that a binary64 denotes, as an integer. *)
Definition indexZ (x : float) : option Z :=
  match Prim2SF x with
  | S754_zero _ => Some 0%Z
  | S754_finite false m e =>
      if PrimFloat.eqb (Binary64.floor x) x
      then Some (Z.shiftl (Zpos m) e)
      else None
  | _ => None
  end.

(** Whether a place is the index [k] itself: between [k] and [k], with the
    weight [+0]. *)
Definition isIndex (place : Place float) (k : Z) : bool :=
  match place with
  | Between lower upper weight =>
      match indexZ lower, indexZ upper, Prim2SF weight with
      | Some a, Some b, S754_zero false => (a =? k)%Z && (b =? k)%Z
      | _, _, _ => false
      end
  | At _ => false
  end.

(** Whether, of [n] numbers, the percentile 0 is read at the index 0 and
    the percentile 100 at the index [n - 1]. *)
Definition endsAt (n : Z) : bool :=
  isIndex (locate (int n) (int 0)) 0
  && isIndex (locate (int n) (int 100)) (n - 1).

(** The exact value of a binary64, in units of [2^-1074]. *)
Definition unitsOf (x : float) : Z := units (Prim2SF x).

(** [x] is at most [y], as exact values. *)
Definition below (x y : float) : Prop := (unitsOf x <= unitsOf y)%Z.

(** [x] is the integer [k > 0], exactly. *)
Definition isInteger (x : float) (k : Z) : Prop :=
  exists m e,
    Prim2SF x = S754_finite false m e
    /\ (Zpos m * 2 ^ (e + 1074) = k * 2 ^ 1074)%Z.

(** The metric and the two means of each comparison. *)
Definition meansOf {A : Type} (r : result (list (ComparisonResult A)))
  : list (string * A * A) :=
  match r with
  | Ok comparisons =>
      map (fun c => (metric c, mean (app1 c), mean (app2 c))) comparisons
  | Throw _ => []
  end.

(** A binary64 of sign [+], or NaN. *)
Definition SFplus (x : spec_float) : bool :=
  match x with
  | S754_nan => true
  | S754_zero s | S754_infinity s | S754_finite s _ _ => negb s
  end.

Definition isPlus (x : float) : bool := SFplus (Prim2SF x).

(** A binary64 of sign [-], or NaN. *)
Definition SFminus (x : spec_float) : bool :=
  match x with
  | S754_nan => true
  | S754_zero s | S754_infinity s | S754_finite s _ _ => s
  end.

Definition isMinus (x : float) : bool := SFminus (Prim2SF x).

(** * Properties of the analyzer, in every arithmetic *)

Section AnalyzerFacts.
Context {A : Type} {N : JSNumber A}.
Import PerformanceAnalyzer.
Local Open Scope js_scope.

(** The summary [calculateStatistics] builds once the array is known not to be
    empty. *)
Lemma calculateStatistics_cons (v : A) (vs : list A) :
  exists s, calculateStatistics (v :: vs) = Ok s
            /\ mean s = round2 (fold_left (fun sum val => sum + val) (v :: vs) (int 0)
                                / len (v :: vs))
            /\ median s = round2 (calculatePercentile (sort (v :: vs)) (int 50))
            /\ min s = round2 (Math_min (v :: vs))
            /\ max s = round2 (Math_max (v :: vs)).
Proof.
  eexists. split; [reflexivity |]. cbn [mean median min max]. repeat split.
Qed.

Lemma calculateStatistics_nonempty (values : list A) :
  values <> [] -> exists s, calculateStatistics values = Ok s.
Proof.
  destruct values as [| v vs]; [congruence | intros _].
  destruct (calculateStatistics_cons v vs) as (s & Hs & _). now exists s.
Qed.

Lemma statistics_Ok_nonempty (values : list A) (s : StatisticalSummary A) :
  calculateStatistics values = Ok s -> values <> [].
Proof. intros H ->. discriminate H. Qed.

(** C9.  [calculateStatistics] on the empty array throws the error "Cannot
    calculate statistics for empty array" (the EmptyInputError of the
    specification) and returns no summary; on every non-empty array it returns
    a summary and throws nothing. *)
Theorem calculateStatistics_throws_exactly_on_empty :
  calculateStatistics (A := A) [] =
    Throw (Error "Cannot calculate statistics for empty array")
  /\ (forall (v : A) (vs : list A),
        exists s, calculateStatistics (v :: vs) = Ok s)
  /\ (forall (values : list A) (e : exn),
        calculateStatistics values = Throw e -> values = []).
Proof.
  split; [reflexivity | split].
  - intros v vs. destruct (calculateStatistics_cons v vs) as (s & Hs & _).
    now exists s.
  - intros [| v vs] e H; [reflexivity | discriminate H].
Qed.

Lemma length_lt_2_false (T : Type) (xs : list T) :
  (2 <= List.length xs)%nat -> (List.length xs <? 2)%nat = false.
Proof. intros H. now apply Nat.ltb_ge. Qed.

(** [isSignificantDifference] never throws. *)
Lemma isSignificantDifference_total (values1 values2 : list A) :
  exists b, isSignificantDifference values1 values2 = Ok b.
Proof.
  unfold isSignificantDifference.
  destruct ((List.length values1 <? 2)%nat || (List.length values2 <? 2)%nat)
    eqn:Hshort; [now exists false |].
  apply orb_false_iff in Hshort. destruct Hshort as [H1 H2].
  destruct values1 as [| a1 r1]; [discriminate H1 |].
  destruct values2 as [| a2 r2]; [discriminate H2 |].
  cbn [calculateStatistics List.length Nat.eqb bind]. eexists. reflexivity.
Qed.

(** The test of [isSignificantDifference], whatever the arithmetic. *)
Lemma isSignificantDifference_cases (values1 values2 : list A) :
  let n1 := len values1 in
  let n2 := len values2 in
  (((List.length values1 < 2)%nat \/ (List.length values2 < 2)%nat) ->
   isSignificantDifference values1 values2 = Ok false)
  /\ ((2 <= List.length values1)%nat -> (2 <= List.length values2)%nat ->
      exists stats1 stats2,
        calculateStatistics values1 = Ok stats1
        /\ calculateStatistics values2 = Ok stats2
        /\ let pooledVariance :=
             ((n1 - int 1) * variance stats1 + (n2 - int 1) * variance stats2)
             / (n1 + n2 - int 2) in
           isSignificantDifference values1 values2 =
           Ok (Math_abs (mean stats1 - mean stats2)
               / Math_sqrt (pooledVariance * (int 1 / n1 + int 1 / n2))
               >? lit (2 # 1))).
Proof.
  cbv zeta. split.
  - intros Hshort. unfold isSignificantDifference.
    replace ((List.length values1 <? 2)%nat || (List.length values2 <? 2)%nat)
      with true; [reflexivity |].
    symmetry. apply orb_true_iff.
    destruct Hshort as [H | H]; [left | right]; now apply Nat.ltb_lt.
  - intros H1 H2.
    destruct values1 as [| a1 r1]; [inversion H1 |].
    destruct values2 as [| a2 r2]; [inversion H2 |].
    destruct (calculateStatistics_cons a1 r1) as (s1 & Hs1 & _).
    destruct (calculateStatistics_cons a2 r2) as (s2 & Hs2 & _).
    exists s1, s2. split; [exact Hs1 | split; [exact Hs2 |]].
    unfold isSignificantDifference.
    rewrite (length_lt_2_false _ _ H1), (length_lt_2_false _ _ H2).
    cbn [orb]. rewrite Hs1, Hs2. reflexivity.
Qed.

Lemma Winner_eqb_eq (a b : Winner) : Winner_eqb a b = true <-> a = b.
Proof. destruct a, b; cbn; split; congruence. Qed.

(** [detectRegressions] is the filter by [regression]. *)
Lemma detectRegressions_filter (comparisons : list (ComparisonResult A)) (t : A) :
  (forall c, In c (detectRegressions comparisons (Some t)) <->
             In c comparisons /\ regression t c)
  /\ (exists keep,
        detectRegressions comparisons (Some t) = filter keep comparisons
        /\ forall c, keep c = true <-> regression t c)
  /\ (forall c, significantDifference c = false ->
                ~ In c (detectRegressions comparisons (Some t)))
  /\ detectRegressions comparisons None
     = detectRegressions comparisons (Some (int 10)).
Proof.
  assert (Hkeep : forall c,
    Winner_eqb (winner c) App1 && (Math_abs (improvement c) >? t)
    && significantDifference c = true <-> regression t c).
  { intros c. unfold regression.
    rewrite !andb_true_iff, Winner_eqb_eq. tauto. }
  split; [| split; [| split]].
  - intros c. unfold detectRegressions. rewrite filter_In, Hkeep. tauto.
  - eexists. split; [reflexivity | exact Hkeep].
  - intros c Hns Hin. apply filter_In in Hin. destruct Hin as [_ Hc].
    apply Hkeep in Hc. destruct Hc as (_ & _ & Hsig). congruence.
  - reflexivity.
Qed.

End AnalyzerFacts.

(** C3.  With fewer than two observations on either side
    [isSignificantDifference] answers [false].  Otherwise it answers whether
    [|mean1 - mean2| / sqrt (pooledVariance * (1/n1 + 1/n2))] exceeds 2.0,
    where [pooledVariance] is
    [((n1 - 1) * variance1 + (n2 - 1) * variance2) / (n1 + n2 - 2)] and the
    means and variances are those [calculateStatistics] reports for the two
    samples.  So it is in every arithmetic; in binary64 the samples
    100, 300 and 150, 350 do not differ significantly, the samples
    100, 101, 102 and 150, 151, 152 do, and a single observation against
    three does not. *)
Theorem isSignificantDifference_pooled_t_test :
  (forall (A : Type) (N : JSNumber A) (values1 values2 : list A),
      let n1 := len values1 in
      let n2 := len values2 in
      (((List.length values1 < 2)%nat \/ (List.length values2 < 2)%nat) ->
       PerformanceAnalyzer.isSignificantDifference values1 values2 = Ok false)
      /\ ((2 <= List.length values1)%nat -> (2 <= List.length values2)%nat ->
          exists stats1 stats2,
            PerformanceAnalyzer.calculateStatistics values1 = Ok stats1
            /\ PerformanceAnalyzer.calculateStatistics values2 = Ok stats2
            /\ let pooledVariance :=
                 (((n1 - int 1) * variance stats1
                   + (n2 - int 1) * variance stats2)
                  / (n1 + n2 - int 2))%js in
               PerformanceAnalyzer.isSignificantDifference values1 values2 =
               Ok (Math_abs (mean stats1 - mean stats2)
                   / Math_sqrt (pooledVariance * (int 1 / n1 + int 1 / n2))
                   >? lit (2 # 1))%js))
  /\ PerformanceAnalyzer.isSignificantDifference (A := float)
       [int 100; int 300] [int 150; int 350] = Ok false
  /\ PerformanceAnalyzer.isSignificantDifference (A := float)
       [int 100; int 101; int 102] [int 150; int 151; int 152] = Ok true
  /\ PerformanceAnalyzer.isSignificantDifference (A := float)
       [int 100] [int 150; int 151; int 152] = Ok false.
Proof.
  split; [intros A N values1 values2;
          exact (isSignificantDifference_cases values1 values2) |].
  repeat split; vm_compute; reflexivity.
Qed.

(** C5.  [detectRegressions comparisons t] keeps the comparisons won by the
    baseline whose improvement exceeds [t] in absolute value and that are
    significant, in their order, and drops every other one; a comparison
    that is not significant is never returned, whatever its gap.  Without a
    threshold the gate is 10.  In binary64, an LCP of 100 and 300 against
    150 and 350 is a gap of 25% that the baseline wins, not significant, and
    no regression at threshold 15; 100, 101, 102 against 150, 151, 152 is a
    significant gap of 49.5% and a regression at 15, none at 50. *)
Theorem detectRegressions_keeps_exactly_regressions :
  (forall (A : Type) (N : JSNumber A)
          (comparisons : list (ComparisonResult A)) (t : A),
      (forall c,
          In c (PerformanceAnalyzer.detectRegressions comparisons (Some t)) <->
          In c comparisons /\ regression t c)
      /\ (exists keep,
            PerformanceAnalyzer.detectRegressions comparisons (Some t)
            = filter keep comparisons
            /\ forall c, keep c = true <-> regression t c)
      /\ (forall c, significantDifference c = false ->
            ~ In c (PerformanceAnalyzer.detectRegressions comparisons (Some t)))
      /\ PerformanceAnalyzer.detectRegressions comparisons None
         = PerformanceAnalyzer.detectRegressions comparisons (Some (int 10)))
  /\ (let noisy :=
        PerformanceAnalyzer.compareApplications (A := float)
          (runsWithLcp [100; 300]) (runsWithLcp [150; 350]) "login" in
      hd_error (improvements noisy) = Some ("lcp"%string, int (-25))
      /\ hd_error (winners noisy) = Some ("lcp"%string, App1)
      /\ regressions noisy (Some (int 15)) = []
      /\ regressions noisy None = [])
  /\ (let steady :=
        PerformanceAnalyzer.compareApplications (A := float)
          (runsWithLcp [100; 101; 102]) (runsWithLcp [150; 151; 152])
          "login" in
      hd_error (improvements steady) = Some ("lcp"%string, lit (-495 # 10))
      /\ regressions steady (Some (int 15)) = ["lcp"%string]
      /\ regressions steady (Some (int 50)) = []).
Proof.
  split; [intros A N comparisons t;
          exact (detectRegressions_filter comparisons t) |].
  split; cbv zeta; repeat split; vm_compute; reflexivity.
Qed.

(** * The loop of [compareApplications] *)

Section ComparisonFacts.
Context {A : Type} {N : JSNumber A}.
Import PerformanceAnalyzer.
Local Open Scope js_scope.

Variables app1Results app2Results : list (MetricsResult A).
Variable scenarioName : string.

Lemma compareMetric_pushes (comparisons : list (ComparisonResult A))
  (metric : string) :
  compareMetric app1Results app2Results scenarioName comparisons metric
  = Ok (comparisons ++ pushed app1Results app2Results scenarioName metric).
Proof.
  unfold compareMetric, pushed.
  destruct (extractMetricValues app1Results metric) as [| a1 r1];
    [cbn; now rewrite app_nil_r |].
  destruct (extractMetricValues app2Results metric) as [| a2 r2];
    [cbn; now rewrite app_nil_r |].
  destruct (isSignificantDifference_total (a1 :: r1) (a2 :: r2)) as [b Hb].
  cbv zeta. rewrite Hb. reflexivity.
Qed.

Lemma compare_loop (ms : list string) (comparisons : list (ComparisonResult A)) :
  fold_left
    (fun acc metric =>
       bind acc (fun comparisons =>
         compareMetric app1Results app2Results scenarioName comparisons metric))
    ms (Ok comparisons)
  = Ok (comparisons
        ++ flat_map (pushed app1Results app2Results scenarioName) ms).
Proof.
  revert comparisons. induction ms as [| m ms IH]; intros comparisons.
  - cbn. now rewrite app_nil_r.
  - cbn [fold_left bind flat_map]. rewrite compareMetric_pushes, IH.
    now rewrite app_assoc.
Qed.

Lemma compareApplications_pushed :
  compareApplications app1Results app2Results scenarioName
  = Ok (flat_map (pushed app1Results app2Results scenarioName) metrics).
Proof. unfold compareApplications. now rewrite compare_loop. Qed.

Lemma pushed_inv (m : string) (c : ComparisonResult A) :
  In c (pushed app1Results app2Results scenarioName m) ->
  metric c = m
  /\ calculateStatistics (extractMetricValues app1Results m) = Ok (app1 c)
  /\ calculateStatistics (extractMetricValues app2Results m) = Ok (app2 c)
  /\ improvement c = calculateImprovement (mean (app1 c)) (mean (app2 c))
  /\ winner c = determineWinner (mean (app1 c)) (mean (app2 c)) m.
Proof.
  unfold pushed. cbv zeta.
  destruct (calculateStatistics (extractMetricValues app1Results m)) as [s1 |];
    [| intros []].
  destruct (calculateStatistics (extractMetricValues app2Results m)) as [s2 |];
    [| intros []].
  destruct (isSignificantDifference _ _) as [b |]; [| intros []].
  intros [<- | []]. cbn. repeat split; reflexivity.
Qed.

Lemma pushed_nonempty (m : string) :
  extractMetricValues app1Results m <> [] ->
  extractMetricValues app2Results m <> [] ->
  exists c, pushed app1Results app2Results scenarioName m = [c] /\ metric c = m.
Proof.
  intros H1 H2. unfold pushed. cbv zeta.
  destruct (calculateStatistics_nonempty _ H1) as [s1 ->].
  destruct (calculateStatistics_nonempty _ H2) as [s2 ->].
  destruct (isSignificantDifference_total
              (extractMetricValues app1Results m)
              (extractMetricValues app2Results m)) as [b ->].
  eexists. split; reflexivity.
Qed.

(** The filter and the skip of [compareApplications], whatever the
    arithmetic: a value is kept exactly when [value > 0] is true, and a
    comparison is pushed exactly for the metrics with a value left on both
    sides. *)
Lemma compareApplications_filter_skip :
  (forall results metric v,
      In v (extractMetricValues results metric) <->
      (v >? int 0) = true
      /\ exists result, In result results /\ metricValue metric result = v)
  /\ exists comparisons,
       compareApplications app1Results app2Results scenarioName = Ok comparisons
       /\ (forall c, In c comparisons ->
             In (metric c) metrics
             /\ extractMetricValues app1Results (metric c) <> []
             /\ extractMetricValues app2Results (metric c) <> []
             /\ calculateStatistics (extractMetricValues app1Results (metric c))
                = Ok (app1 c)
             /\ calculateStatistics (extractMetricValues app2Results (metric c))
                = Ok (app2 c))
       /\ (forall m c,
             extractMetricValues app1Results m = []
             \/ extractMetricValues app2Results m = [] ->
             In c comparisons -> metric c <> m)
       /\ (forall m, In m metrics ->
             extractMetricValues app1Results m <> [] ->
             extractMetricValues app2Results m <> [] ->
             exists c, In c comparisons /\ metric c = m).
Proof.
  split.
  - intros results m v. unfold extractMetricValues.
    rewrite filter_In, in_map_iff. split.
    + intros [(r & Hr & Hin) Hv]. split; [exact Hv | now exists r].
    + intros [Hv (r & Hin & Hr)]. split; [now exists r | exact Hv].
  - exists (flat_map (pushed app1Results app2Results scenarioName) metrics).
    split; [exact compareApplications_pushed |].
    assert (Hinv : forall c,
              In c (flat_map (pushed app1Results app2Results scenarioName)
                      metrics) ->
              In (metric c) metrics
              /\ calculateStatistics (extractMetricValues app1Results (metric c))
                 = Ok (app1 c)
              /\ calculateStatistics (extractMetricValues app2Results (metric c))
                 = Ok (app2 c)).
    { intros c Hc. apply in_flat_map in Hc. destruct Hc as (m & Hm & Hc).
      apply pushed_inv in Hc. destruct Hc as (<- & H1 & H2 & _). tauto. }
    split; [| split].
    + intros c Hc. destruct (Hinv c Hc) as (Hm & H1 & H2).
      repeat split; try assumption;
        eapply statistics_Ok_nonempty; eassumption.
    + intros m c Hempty Hc <-. destruct (Hinv c Hc) as (_ & H1 & H2).
      destruct Hempty as [He | He]; rewrite He in *; discriminate.
    + intros m Hm H1 H2. destruct (pushed_nonempty m H1 H2) as (c & Hc & Hmc).
      exists c. split; [| exact Hmc].
      apply in_flat_map. exists m. split; [exact Hm |].
      rewrite Hc. now left.
Qed.

End ComparisonFacts.

(** * Order in the two arithmetics *)

Section Binary64Order.

(** In binary64 a number that passes [v > 0] is neither [<= 0] nor zero nor
    NaN. *)
Lemma binary64_positive (v : float) :
  PrimFloat.ltb PrimFloat.zero v = true ->
  PrimFloat.leb v PrimFloat.zero = false
  /\ PrimFloat.eqb v PrimFloat.zero = false
  /\ PrimFloat.is_nan v = false.
Proof.
  unfold PrimFloat.is_nan.
  rewrite FloatAxioms.ltb_spec, FloatAxioms.leb_spec, !FloatAxioms.eqb_spec.
  change (Prim2SF PrimFloat.zero) with (S754_zero false).
  destruct (Prim2SF v) as [s | s | | s m e]; cbn; try discriminate;
    destruct s; cbn; try discriminate; intros _; repeat split.
  rewrite Z.compare_refl.
  change PosDef.Pos.compare_cont with Pos.compare_cont.
  now rewrite Pos.compare_cont_refl.
Qed.

Lemma SFcompare_Lt_Gt (x y : spec_float) :
  SFcompare x y = Some Lt -> SFcompare y x = Some Gt.
Proof.
  destruct x as [sx | sx | | sx mx ex], y as [sy | sy | | sy my ey]; cbn;
    try discriminate; try (destruct sx; discriminate);
    try (destruct sy; discriminate);
    try (destruct sx, sy; (discriminate || reflexivity)).
  change PosDef.Pos.compare_cont with Pos.compare_cont.
  rewrite (Z.compare_antisym ex ey).
  replace (Pos.compare_cont Eq my mx)
    with (CompOpp (Pos.compare_cont Eq mx my))
    by apply (Pos.compare_cont_antisym mx my Eq).
  destruct sx, sy; try (discriminate || reflexivity);
    destruct (ex ?= ey)%Z; cbn; try (discriminate || reflexivity);
    destruct (Pos.compare_cont Eq mx my); cbn; (discriminate || reflexivity).
Qed.

(** [<] on binary64 is asymmetric. *)
Lemma binary64_lt_asym (x y : float) :
  PrimFloat.ltb x y = true -> PrimFloat.ltb y x = false.
Proof.
  rewrite !FloatAxioms.ltb_spec. unfold SFltb.
  destruct (SFcompare (Prim2SF x) (Prim2SF y)) as [[ | | ] |] eqn:Hc;
    try discriminate.
  intros _. now rewrite (SFcompare_Lt_Gt _ _ Hc).
Qed.

End Binary64Order.

Section RationalOrder.
Variable sqrtQ : Q -> Q.
Let E : JSNumber Exact.xnum := rationals sqrtQ.
Local Existing Instance E.

Lemma Qlt_bool_iff (a b : Q) : negb (Qle_bool b a) = true <-> a < b.
Proof.
  rewrite negb_true_iff. split.
  - intros H. apply Qnot_le_lt. intros Hle.
    apply Qle_bool_iff in Hle. congruence.
  - intros H. destruct (Qle_bool b a) eqn:Hb; [| reflexivity].
    apply Qle_bool_iff in Hb. lra.
Qed.

(** Over the rationals a number that passes [v > 0] is a positive rational
    or [Infinity]. *)
Lemma rational_positive (v : Exact.xnum) :
  nltb (int 0) v = true ->
  v = Exact.PosInf \/ exists q, v = Exact.Fin q /\ 0 < q.
Proof.
  destruct v as [q | | |]; cbn; try discriminate; [| now left].
  intros H. right. exists q. split; [reflexivity |].
  now apply Qlt_bool_iff in H.
Qed.

Lemma nleb_Fin (a b : Q) :
  a <= b -> nleb (Exact.Fin a) (Exact.Fin b) = true.
Proof.
  intros Hab. unfold nleb. cbn -[Qle_bool Qeq_bool].
  destruct (Qle_bool b a) eqn:Hba; [| reflexivity].
  apply Qle_bool_iff in Hba. cbn [negb orb].
  apply Qeq_bool_iff. now apply Qle_antisym.
Qed.

End RationalOrder.

(** * The winner of a comparison *)

Section WinnerFacts.
Context {A : Type} {N : JSNumber A}.
Import PerformanceAnalyzer.
Local Open Scope js_scope.

Lemma includes_In (xs : list string) (x : string) :
  In x xs -> includes xs x = true.
Proof.
  intros H. unfold includes. apply existsb_exists.
  exists x. split; [exact H | apply String.eqb_refl].
Qed.

(** The two branches of [determineWinner] on a lower-is-better metric. *)
Lemma determineWinner_lower (value1 value2 : A) (metric : string) :
  In metric lowerIsBetter ->
  determineWinner value1 value2 metric
  = if Math_abs (value1 - value2) / ((value1 + value2) / int 2) <? lit (5 # 100)
    then Tie
    else if value1 <? value2 then App1 else App2.
Proof.
  intros Hm. unfold determineWinner. now rewrite (includes_In _ _ Hm).
Qed.

Lemma determineWinner_tie_iff (value1 value2 : A) (metric : string) :
  In metric lowerIsBetter ->
  let w := determineWinner value1 value2 metric in
  (w = Tie <->
   (Math_abs (value1 - value2) / ((value1 + value2) / int 2) <? lit (5 # 100))
   = true)
  /\ (w <> Tie -> w = if value1 <? value2 then App1 else App2).
Proof.
  intros Hm w. subst w. rewrite (determineWinner_lower _ _ _ Hm).
  destruct (_ / _ <? _).
  - split; [tauto | congruence].
  - split; [| reflexivity].
    destruct (value1 <? value2); split; discriminate.
Qed.

End WinnerFacts.

Section RationalWinner.
Variable sqrtQ : Q -> Q.
Let E : JSNumber Exact.xnum := rationals sqrtQ.
Local Existing Instance E.
Import PerformanceAnalyzer.

(** Over the rationals the tie test is the inequality of the specification,
    and it fails when the two means add up to zero. *)
Lemma determineWinner_rational (a b : Q) (m : string) :
  In m lowerIsBetter ->
  let w := determineWinner (Exact.Fin a) (Exact.Fin b) m in
  (w = Tie <-> ~ a + b == 0 /\ Qabs (a - b) / ((a + b) / 2) < 5 # 100)
  /\ (w <> Tie -> (a < b -> w = App1) /\ (b < a -> w = App2)).
Proof.
  intros Hm w. subst w. rewrite (determineWinner_lower _ _ _ Hm).
  cbn -[Qabs Qeq_bool Qle_bool Qdiv Qplus Qminus Qcompare].
  change (Qeq_bool (inject_Z 2) 0) with false. cbv iota.
  change (inject_Z 2) with 2.
  assert (Hlt : forall x y : Q,
            (if negb (Qle_bool y x) then App1 else App2) <> Tie).
  { intros x y. destruct (negb (Qle_bool y x)); discriminate. }
  assert (Hside :
            (a < b -> (if negb (Qle_bool b a) then App1 else App2) = App1)
            /\ (b < a -> (if negb (Qle_bool b a) then App1 else App2) = App2)).
  { split; intros H.
    - apply Qlt_bool_iff in H. now rewrite H.
    - destruct (negb (Qle_bool b a)) eqn:Hb; [| reflexivity].
      apply Qlt_bool_iff in Hb. lra. }
  destruct (Qeq_bool ((a + b) / 2) 0) eqn:Havg.
  - apply Qeq_bool_iff in Havg.
    assert (Hsum : a + b == 0).
    { setoid_replace (a + b) with ((a + b) / 2 * 2) by field.
      rewrite Havg. ring. }
    assert (Hno : Exact.ltb
                    (Exact.scaled_inf (Qabs (a + - b) ?= 0) Exact.PosInf)
                    (Exact.Fin (5 # 100)) = false).
    { destruct (Qabs (a + - b) ?= 0) eqn:Hc; try reflexivity.
      apply Qlt_alt in Hc. pose proof (Qabs_nonneg (a + - b)). lra. }
    rewrite Hno. split.
    + split; [intros H; now apply Hlt in H | intros [H _]; contradiction].
    + intros _. exact Hside.
  - apply Qeq_bool_neq in Havg. cbn [Exact.ltb].
    destruct (negb (Qle_bool (5 # 100) (Qabs (a + - b) / ((a + b) / 2))))
      eqn:Hr.
    + apply Qlt_bool_iff in Hr. split.
      * split; [intros _ | reflexivity]. split; [| exact Hr].
        intros H. apply Havg. rewrite H. reflexivity.
      * intros H; contradiction.
    + split.
      * split; [intros H; now apply Hlt in H |].
        intros [_ H]. apply Qlt_bool_iff in H. unfold Qminus in H. congruence.
      * intros _. exact Hside.
Qed.

(** A mean against itself: a tie, unless the mean is zero, in which case the
    candidate is returned. *)
Lemma determineWinner_same_mean (mu : Q) (m : string) :
  In m lowerIsBetter ->
  let w := determineWinner (Exact.Fin mu) (Exact.Fin mu) m in
  (w = Tie <-> Qeq_bool mu 0 = false) /\ (w <> Tie -> w = App2).
Proof.
  intros Hm w.
  destruct (determineWinner_rational mu mu m Hm) as [Htie _].
  destruct (determineWinner_tie_iff (Exact.Fin mu) (Exact.Fin mu) m Hm)
    as [_ Hside].
  fold w in Htie, Hside. split.
  - rewrite Htie. split.
    + intros [Hne _]. destruct (Qeq_bool mu 0) eqn:Hz; [| reflexivity].
      apply Qeq_bool_iff in Hz. exfalso. apply Hne. lra.
    + intros Hz. apply Qeq_bool_neq in Hz. split; [intros H; apply Hz; lra |].
      setoid_replace (mu - mu) with 0 by ring.
      change (Qabs 0) with 0. unfold Qdiv. rewrite Qmult_0_l. reflexivity.
  - intros Hw. rewrite (Hside Hw). cbn -[Qle_bool].
    replace (Qle_bool mu mu) with true; [reflexivity |].
    symmetry. apply Qle_bool_iff. lra.
Qed.

End RationalWinner.

(** C2.  On each of the nine tracked metrics, all lower-is-better,
    [determineWinner mean1 mean2] is a tie exactly when
    [|mean1 - mean2| / ((mean1 + mean2) / 2) < 0.05] holds, and otherwise the
    side with the smaller mean wins: in every arithmetic the winner is then
    the baseline if [mean1 < mean2] and the candidate if not; in binary64 and
    over the rationals the candidate wins when [mean2 < mean1]; over the
    rationals the tie test is the inequality between rationals, and it fails
    when the means add up to zero.  Means 100 and 104 tie; with means 100 and
    110 the baseline wins. *)
Theorem determineWinner_tie_or_smaller_mean :
  PerformanceAnalyzer.lowerIsBetter = PerformanceAnalyzer.metrics
  /\ List.length PerformanceAnalyzer.lowerIsBetter = 9%nat
  /\ (forall (A : Type) (N : JSNumber A) (mean1 mean2 : A),
        Forall (fun metric =>
          let w := PerformanceAnalyzer.determineWinner mean1 mean2 metric in
          (w = Tie <->
           (Math_abs (mean1 - mean2) / ((mean1 + mean2) / int 2)
            <? lit (5 # 100))%js = true)
          /\ (w <> Tie -> w = if (mean1 <? mean2)%js then App1 else App2))
        PerformanceAnalyzer.lowerIsBetter)
  /\ (forall mean1 mean2 : float,
        Forall (fun metric =>
          let w := PerformanceAnalyzer.determineWinner mean1 mean2 metric in
          w <> Tie ->
          (PrimFloat.ltb mean1 mean2 = true -> w = App1)
          /\ (PrimFloat.ltb mean2 mean1 = true -> w = App2))
        PerformanceAnalyzer.lowerIsBetter)
  /\ (forall (sqrtQ : Q -> Q) (a b : Q),
        Forall (fun metric =>
          let w := PerformanceAnalyzer.determineWinner (N := rationals sqrtQ)
                     (Exact.Fin a) (Exact.Fin b) metric in
          (w = Tie <-> ~ a + b == 0 /\ Qabs (a - b) / ((a + b) / 2) < 5 # 100)
          /\ (w <> Tie -> (a < b -> w = App1) /\ (b < a -> w = App2)))
        PerformanceAnalyzer.lowerIsBetter)
  /\ Forall (fun metric =>
       PerformanceAnalyzer.determineWinner (A := float) (int 100) (int 104) metric
       = Tie
       /\ PerformanceAnalyzer.determineWinner (A := float) (int 100) (int 110) metric
          = App1)
     PerformanceAnalyzer.lowerIsBetter.
Proof.
  split; [reflexivity | split; [reflexivity |]].
  split; [| split; [| split]].
  - intros A N mean1 mean2. apply Forall_forall. intros metric Hm.
    exact (determineWinner_tie_iff mean1 mean2 metric Hm).
  - intros mean1 mean2. apply Forall_forall. intros metric Hm w Hw.
    destruct (determineWinner_tie_iff mean1 mean2 metric Hm) as [_ Hside].
    fold w in Hside. specialize (Hside Hw). cbn in Hside. split; intros Hlt.
    + now rewrite Hlt in Hside.
    + now rewrite (binary64_lt_asym _ _ Hlt) in Hside.
  - intros sqrtQ a b. apply Forall_forall. intros metric Hm.
    exact (determineWinner_rational sqrtQ a b metric Hm).
  - repeat constructor; vm_compute; reflexivity.
Qed.

(** What each of the nine metrics reads in a sample, and what any other
    name reads. *)
Lemma metricValue_fields {A : Type} {N : JSNumber A} (result : MetricsResult A) :
  PerformanceAnalyzer.metricValue "lcp" result = lcp (coreWebVitals result)
  /\ PerformanceAnalyzer.metricValue "fid" result
     = PerformanceAnalyzer.or_zero (fid (coreWebVitals result))
  /\ PerformanceAnalyzer.metricValue "inp" result
     = PerformanceAnalyzer.or_zero (inp (coreWebVitals result))
  /\ PerformanceAnalyzer.metricValue "cls" result = cls (coreWebVitals result)
  /\ PerformanceAnalyzer.metricValue "ttfb" result
     = ttfb (performanceMetrics result)
  /\ PerformanceAnalyzer.metricValue "fcp" result
     = fcp (performanceMetrics result)
  /\ PerformanceAnalyzer.metricValue "tti" result
     = tti (performanceMetrics result)
  /\ PerformanceAnalyzer.metricValue "totalPageLoadTime" result
     = totalPageLoadTime (performanceMetrics result)
  /\ PerformanceAnalyzer.metricValue "domContentLoaded" result
     = domContentLoaded (performanceMetrics result)
  /\ (forall m, ~ In m PerformanceAnalyzer.metrics ->
        PerformanceAnalyzer.metricValue m result = int 0).
Proof.
  repeat (split; [reflexivity |]).
  intros m Hm. unfold PerformanceAnalyzer.metricValue.
  repeat match goal with
         | |- context [String.eqb m ?s] =>
             destruct (String.eqb_spec m s) as [-> | _];
             [exfalso; apply Hm; cbn; tauto |]
         end.
  reflexivity.
Qed.

(** C4.  For every pair of sample lists and each of the nine metrics,
    [extractMetricValues] reads that metric's value in every sample, in
    order: the LCP and the CLS of the Core Web Vitals, the FID and the INP
    or 0 when absent, the TTFB, FCP, TTI, total page load time and
    DOM-content-loaded time of the performance metrics, and 0 for any other
    name.  Of these values it keeps, in their order and as often as they
    occur, exactly the values [v] for which [v > 0] is true, so every value
    [<= 0] (and NaN) is gone before any statistic is computed: in binary64 a
    kept value is neither [<= 0] nor NaN, over the rationals it is a positive
    rational or [Infinity]; of the LCP values 0, 100 and 200 the mean is 150.
    [compareApplications] returns comparisons for metrics of the fixed set of
    nine only, each built from the statistics of the two filtered lists,
    both non-empty; a metric of which one side has no value left gets no
    comparison, and every metric of the set with values on both sides gets
    one.  Of three runs that measured 1 to 9, nothing, and 11 to 19 on the
    nine metrics, the values kept are 1 and 11 for the LCP, 2 and 12 for the
    FID, and so on to 9 and 19; against one run that measured 21 to 29 the
    means compared are 6 and 21, 7 and 22, and so on to 14 and 29; and
    against a run without FID there is no comparison of the FID. *)
Theorem compareApplications_filters_then_skips :
  (forall (A : Type) (N : JSNumber A)
          (app1Results app2Results : list (MetricsResult A))
          (scenarioName : string),
      (forall results metric v,
          In v (PerformanceAnalyzer.extractMetricValues results metric) <->
          (v >? int 0)%js = true
          /\ exists result,
               In result results
               /\ PerformanceAnalyzer.metricValue metric result = v)
      /\ exists comparisons,
           PerformanceAnalyzer.compareApplications app1Results app2Results
             scenarioName = Ok comparisons
           /\ (forall c, In c comparisons ->
                 In (metric c) PerformanceAnalyzer.metrics
                 /\ PerformanceAnalyzer.extractMetricValues app1Results (metric c)
                    <> []
                 /\ PerformanceAnalyzer.extractMetricValues app2Results (metric c)
                    <> []
                 /\ PerformanceAnalyzer.calculateStatistics
                      (PerformanceAnalyzer.extractMetricValues app1Results
                         (metric c)) = Ok (app1 c)
                 /\ PerformanceAnalyzer.calculateStatistics
                      (PerformanceAnalyzer.extractMetricValues app2Results
                         (metric c)) = Ok (app2 c))
           /\ (forall m c,
                 PerformanceAnalyzer.extractMetricValues app1Results m = []
                 \/ PerformanceAnalyzer.extractMetricValues app2Results m = [] ->
                 In c comparisons -> metric c <> m)
           /\ (forall m, In m PerformanceAnalyzer.metrics ->
                 PerformanceAnalyzer.extractMetricValues app1Results m <> [] ->
                 PerformanceAnalyzer.extractMetricValues app2Results m <> [] ->
                 exists c, In c comparisons /\ metric c = m))
  /\ PerformanceAnalyzer.metrics
     = ["lcp"; "fid"; "inp"; "cls"; "ttfb"; "fcp"; "tti";
        "totalPageLoadTime"; "domContentLoaded"]%string
  /\ (forall (results : list (MetricsResult float)) metric v,
        In v (PerformanceAnalyzer.extractMetricValues results metric) ->
        PrimFloat.leb v PrimFloat.zero = false /\ PrimFloat.is_nan v = false)
  /\ (forall (sqrtQ : Q -> Q) (results : list (MetricsResult Exact.xnum))
             metric v,
        In v (PerformanceAnalyzer.extractMetricValues (N := rationals sqrtQ)
                results metric) ->
        v = Exact.PosInf \/ exists q, v = Exact.Fin q /\ 0 < q)
  /\ (let lcps :=
        PerformanceAnalyzer.extractMetricValues (A := float)
          (runsWithLcp [0; 100; 200]) "lcp" in
      lcps = [int 100; int 200]
      /\ exists s,
           PerformanceAnalyzer.calculateStatistics lcps = Ok s
           /\ mean s = int 150)
  /\ (forall (A : Type) (N : JSNumber A) (result : MetricsResult A),
        PerformanceAnalyzer.metricValue "lcp" result
        = lcp (coreWebVitals result)
        /\ PerformanceAnalyzer.metricValue "fid" result
           = PerformanceAnalyzer.or_zero (fid (coreWebVitals result))
        /\ PerformanceAnalyzer.metricValue "inp" result
           = PerformanceAnalyzer.or_zero (inp (coreWebVitals result))
        /\ PerformanceAnalyzer.metricValue "cls" result
           = cls (coreWebVitals result)
        /\ PerformanceAnalyzer.metricValue "ttfb" result
           = ttfb (performanceMetrics result)
        /\ PerformanceAnalyzer.metricValue "fcp" result
           = fcp (performanceMetrics result)
        /\ PerformanceAnalyzer.metricValue "tti" result
           = tti (performanceMetrics result)
        /\ PerformanceAnalyzer.metricValue "totalPageLoadTime" result
           = totalPageLoadTime (performanceMetrics result)
        /\ PerformanceAnalyzer.metricValue "domContentLoaded" result
           = domContentLoaded (performanceMetrics result)
        /\ (forall m, ~ In m PerformanceAnalyzer.metrics ->
              PerformanceAnalyzer.metricValue m result = int 0))
  /\ (forall (A : Type) (N : JSNumber A) (metric : string),
        PerformanceAnalyzer.extractMetricValues (A := A) [] metric = []
        /\ forall (result : MetricsResult A) (rest : list (MetricsResult A)),
             PerformanceAnalyzer.extractMetricValues (result :: rest) metric
             = if (PerformanceAnalyzer.metricValue metric result >? int 0)%js
               then PerformanceAnalyzer.metricValue metric result
                    :: PerformanceAnalyzer.extractMetricValues rest metric
               else PerformanceAnalyzer.extractMetricValues rest metric)
  /\ (let runs : list (MetricsResult float) :=
        [sampleOf 1 2 3 4 5 6 7 8 9; sampleOf 0 0 0 0 0 0 0 0 0;
         sampleOf 11 12 13 14 15 16 17 18 19] in
      let other : list (MetricsResult float) :=
        [sampleOf 21 22 23 24 25 26 27 28 29] in
      let withoutFid : list (MetricsResult float) :=
        [sampleOf 21 0 23 24 25 26 27 28 29] in
      map (PerformanceAnalyzer.extractMetricValues runs)
        PerformanceAnalyzer.metrics
      = [[int 1; int 11]; [int 2; int 12]; [int 3; int 13]; [int 4; int 14];
         [int 5; int 15]; [int 6; int 16]; [int 7; int 17]; [int 8; int 18];
         [int 9; int 19]]
      /\ meansOf (PerformanceAnalyzer.compareApplications runs other "login")
         = [("lcp", int 6, int 21); ("fid", int 7, int 22);
            ("inp", int 8, int 23); ("cls", int 9, int 24);
            ("ttfb", int 10, int 25); ("fcp", int 11, int 26);
            ("tti", int 12, int 27); ("totalPageLoadTime", int 13, int 28);
            ("domContentLoaded", int 14, int 29)]%string
      /\ map fst
           (winners
              (PerformanceAnalyzer.compareApplications runs withoutFid
                 "login"))
         = ["lcp"; "inp"; "cls"; "ttfb"; "fcp"; "tti"; "totalPageLoadTime";
            "domContentLoaded"]%string).
Proof.
  split; [| split; [reflexivity | split; [| split; [| split; [| split;
    [| split]]]]]].
  - intros A N app1Results app2Results scenarioName.
    exact (compareApplications_filter_skip app1Results app2Results scenarioName).
  - intros results metric v Hv.
    apply filter_In in Hv. destruct Hv as [_ Hv].
    destruct (binary64_positive _ Hv) as (Hle & _ & Hnan). now split.
  - intros sqrtQ results metric v Hv.
    apply filter_In in Hv. destruct Hv as [_ Hv].
    exact (rational_positive sqrtQ v Hv).
  - cbv zeta. split; [vm_compute; reflexivity |].
    eexists. split; [vm_compute; reflexivity | vm_compute; reflexivity].
  - intros A N result. exact (metricValue_fields result).
  - intros A N metric. split; [reflexivity |]. intros result rest.
    unfold PerformanceAnalyzer.extractMetricValues. cbn [map filter].
    reflexivity.
  - cbv zeta. repeat split; vm_compute; reflexivity.
Qed.

(** * The steps of a scenario *)

Section RunnerFacts.
Context {A : Type} {N : JSNumber A}.
Import ScenarioRunner.
Local Open Scope string_scope.

Variable testData : option TestData.
Variable random : nat -> A.
Variable page : list (PageCall A) -> PageCall A -> option string.

(** A value without ["${"] goes through [processValue] untouched and draws
    nothing. *)
Lemma processValue_plain (value : string) (w : World A) :
  Str.includes "${" value = false ->
  processValue testData random value w = (Ok value, w).
Proof. intros H. unfold processValue. now rewrite H. Qed.

(** An awaited call either throws a [TimeoutError] or is accepted and
    recorded. *)
Lemma await_result (c : PageCall A) (w : World A) :
  (exists message w', await page c w = (Throw (TimeoutError message), w'))
  \/ (page (calls w) c = None
      /\ await page c w
         = (Ok tt, {| calls := (calls w ++ [c])%list; draws := draws w |})).
Proof.
  unfold await. destruct (page (calls w) c) as [message |].
  - left. now eexists _, _.
  - right. now split.
Qed.

Lemma fill_with_empty_value (step : TestStep A) (w : World A) (sel : string) :
  selector step = Some sel -> sel <> "" -> value step = Some "" ->
  (forall message,
      fst (executeFillStep testData random page step w)
      <> Throw (Error message))
  /\ ((forall before c, page before c = None) ->
      executeFillStep testData random page step w
      = (Ok tt,
         {| calls := (calls w
                      ++ [WaitFor sel "visible" (int 5000);
                          Clear sel; Fill sel ""])%list;
            draws := draws w |})).
Proof.
  intros Hsel Hne Hval.
  assert (Hcheck : missing (selector step) || undefined (value step) = false).
  { rewrite Hsel, Hval. cbn. destruct sel; [congruence | reflexivity]. }
  unfold executeFillStep. rewrite Hcheck, Hsel, Hval. cbn [text].
  unfold seq at 1.
  split.
  - intros message.
    destruct (await_result (WaitFor sel "visible" (int 5000)) w)
      as [(m1 & w1 & ->) | [_ ->]]; [cbn; discriminate |].
    unfold seq at 1. rewrite processValue_plain by reflexivity.
    unfold seq at 1.
    match goal with |- context [await page (Clear sel) ?w0] =>
      destruct (await_result (Clear sel) w0)
        as [(m2 & w2 & ->) | [_ ->]]; [cbn; discriminate |] end.
    match goal with |- context [await page (Fill sel "") ?w0] =>
      destruct (await_result (Fill sel "") w0)
        as [(m3 & w3 & ->) | [_ ->]]; cbn; discriminate end.
  - intros Hpage. unfold seq, await. rewrite Hpage.
    rewrite processValue_plain by reflexivity. cbn.
    rewrite Hpage. cbn. rewrite Hpage.
    now rewrite <- !app_assoc.
Qed.

(** C8.  A click step without a selector throws "Click step requires
    selector", and a fill step without a selector or with an undefined value
    throws "Fill step requires selector and value" (the ConfigurationError of
    the specification), in both cases before any call on the page.  A fill
    step with a selector and the empty string for value passes the check:
    whatever it throws is not an [Error] of the runner, and when the page
    accepts the calls, the field is waited for, cleared and filled with the
    empty string. *)
Theorem step_validation (step : TestStep A) (timeout : A) (w : World A) :
  (missing (selector step) = true ->
   executeClickStep page step timeout w
   = (Throw (Error "Click step requires selector"), w))
  /\ (missing (selector step) = true \/ value step = None ->
      executeFillStep testData random page step w
      = (Throw (Error "Fill step requires selector and value"), w))
  /\ (forall sel,
        selector step = Some sel -> sel <> "" -> value step = Some "" ->
        (forall message,
            fst (executeFillStep testData random page step w)
            <> Throw (Error message))
        /\ ((forall before c, page before c = None) ->
            executeFillStep testData random page step w
            = (Ok tt,
               {| calls := (calls w
                            ++ [WaitFor sel "visible" (int 5000);
                                Clear sel; Fill sel ""])%list;
                  draws := draws w |})))
  /\ (missing None = true /\ missing (Some "") = true
      /\ missing (Some "#x") = false).
Proof.
  split; [| split; [| split]].
  - intros Hsel. unfold executeClickStep. now rewrite Hsel.
  - intros H. unfold executeFillStep.
    replace (missing (selector step) || undefined (value step)) with true;
      [reflexivity |].
    symmetry. apply orb_true_iff.
    destruct H as [H | H]; [now left | right; now rewrite H].
  - intros sel. apply fill_with_empty_value.
  - repeat split.
Qed.

End RunnerFacts.

(** C7 (the code departs from it).  A placeholder with a dotted key is
    never replaced: [${a.b.c}] comes back as it is for every test data, also
    when the traversal along [a.b.c] finds the string ["deep"], because the
    pattern [\w+] of [processValue] does not match a key with a dot.  A key
    without a dot is replaced by the string found ([${title}]), an unknown
    key is left as it is, and [${username}] becomes the username of the
    record drawn from the pool: with two records and [Math.random()]
    returning 0.7, the second. *)
Theorem dotted_placeholder_never_replaced :
  let nested :=
    Some {| users := None;
            entries := [("a", JObj [("b", JObj [("c", JStr "deep")])]);
                        ("title", JStr "Hello")]%string |} in
  let pool :=
    Some {| users := Some [{| username := "alice"; password := "secret" |};
                           {| username := "bob"; password := "hunter2" |}];
            entries := [] |} in
  (forall (A : Type) (N : JSNumber A) (testData : option TestData)
          (random : nat -> A) (w : World A),
      ScenarioRunner.processValue testData random "${a.b.c}" w
      = (Ok "${a.b.c}"%string, w))
  /\ ScenarioRunner.getTestDataValue nested "a.b.c" = "deep"%string
  /\ (forall (A : Type) (N : JSNumber A) (random : nat -> A) (w : World A),
        ScenarioRunner.processValue nested random "${a.b.c}" w
        = (Ok "${a.b.c}"%string, w)
        /\ ScenarioRunner.processValue nested random "${title}" w
           = (Ok "Hello"%string, w)
        /\ ScenarioRunner.processValue nested random "${totallyUnknownKey}" w
           = (Ok "${totallyUnknownKey}"%string, w))
  /\ (forall w : World float,
        ScenarioRunner.processValue pool (fun _ => lit (7 # 10)) "${username}" w
        = (Ok "bob"%string, {| calls := calls w; draws := S (draws w) |})).
Proof.
  cbv zeta. split; [reflexivity | split; [reflexivity | split]].
  - intros A N random w. repeat split; reflexivity.
  - intros w. vm_compute. reflexivity.
Qed.

(** * The summary over the rationals *)

Section RationalSummary.
Variable sqrtQ : Q -> Q.
Let E : JSNumber Exact.xnum := rationals sqrtQ.
Local Existing Instance E.
Import PerformanceAnalyzer.

Ltac xsimpl :=
  cbn -[Qplus Qmult Qdiv Qminus Qopp Qfloor Qceiling Qle_bool Qeq_bool
        Qcompare inject_Z Z.of_nat Qabs nth].

Lemma insert_Fin (x : Q) (l : list Q) :
  insert (Exact.Fin x) (map Exact.Fin l) = map Exact.Fin (Rat.insert x l).
Proof.
  induction l as [| y l IH]; [reflexivity |].
  xsimpl. change (inject_Z 0) with 0.
  destruct (negb (Qle_bool (x + - y) 0)); [| reflexivity].
  xsimpl. f_equal. exact IH.
Qed.

Lemma sort_Fin (l : list Q) : sort (map Exact.Fin l) = map Exact.Fin (Rat.sort l).
Proof.
  induction l as [| x l IH]; [reflexivity |].
  cbn [map]. unfold sort in *. cbn [fold_right]. rewrite IH. apply insert_Fin.
Qed.

Lemma insert_perm (x : Q) (l : list Q) : Permutation (Rat.insert x l) (x :: l).
Proof.
  induction l as [| y l IH]; [reflexivity |]. cbn.
  destruct (negb _); [| reflexivity].
  rewrite IH. apply perm_swap.
Qed.

Lemma sort_perm (l : list Q) : Permutation (Rat.sort l) l.
Proof.
  induction l as [| x l IH]; [reflexivity |]. cbn.
  rewrite insert_perm. now constructor.
Qed.

Lemma insert_sorted (x : Q) (l : list Q) :
  StronglySorted Qle l -> StronglySorted Qle (Rat.insert x l).
Proof.
  induction 1 as [| y l Hl IH Hy]; [repeat constructor |]. cbn.
  destruct (negb (Qle_bool (x + - y) 0)) eqn:Hc.
  - apply Qlt_bool_iff in Hc. constructor; [exact IH |].
    apply (Permutation_Forall (Permutation_sym (insert_perm x l))).
    constructor; [lra | exact Hy].
  - apply negb_false_iff, Qle_bool_iff in Hc.
    constructor; [now constructor |].
    constructor; [lra |].
    eapply Forall_impl; [| exact Hy]. intros z Hz. cbn beta in Hz. lra.
Qed.

Lemma sort_sorted (l : list Q) : StronglySorted Qle (Rat.sort l).
Proof.
  induction l as [| x l IH]; [constructor |]. now apply insert_sorted.
Qed.

Lemma min2_Fin (a b : Q) : min2 (Exact.Fin a) (Exact.Fin b) = Exact.Fin (Rat.min2 a b).
Proof.
  unfold min2, isNaN, Rat.min2. xsimpl. rewrite !Qeq_bool_refl. xsimpl.
  now destruct (negb (Qle_bool a b)).
Qed.

Lemma max2_Fin (a b : Q) : max2 (Exact.Fin a) (Exact.Fin b) = Exact.Fin (Rat.max2 a b).
Proof.
  unfold max2, isNaN, Rat.max2. xsimpl. rewrite !Qeq_bool_refl. xsimpl.
  now destruct (negb (Qle_bool b a)).
Qed.

Lemma fold_min2_Fin (l : list Q) (a : Q) :
  fold_left min2 (map Exact.Fin l) (Exact.Fin a) = Exact.Fin (fold_left Rat.min2 l a).
Proof.
  revert a. induction l as [| x l IH]; intros a; [reflexivity |].
  cbn [map fold_left]. now rewrite min2_Fin, IH.
Qed.

Lemma fold_max2_Fin (l : list Q) (a : Q) :
  fold_left max2 (map Exact.Fin l) (Exact.Fin a) = Exact.Fin (fold_left Rat.max2 l a).
Proof.
  revert a. induction l as [| x l IH]; intros a; [reflexivity |].
  cbn [map fold_left]. now rewrite max2_Fin, IH.
Qed.

Lemma Math_min_Fin (q : Q) (l : list Q) :
  Math_min (map Exact.Fin (q :: l)) = Exact.Fin (fold_left Rat.min2 l q).
Proof.
  unfold Math_min. cbn [map fold_left].
  replace (min2 Infinity (Exact.Fin q)) with (Exact.Fin q).
  - apply fold_min2_Fin.
  - change (@Infinity _ E) with Exact.PosInf.
    unfold min2, isNaN. xsimpl. now rewrite Qeq_bool_refl.
Qed.

Lemma Math_max_Fin (q : Q) (l : list Q) :
  Math_max (map Exact.Fin (q :: l)) = Exact.Fin (fold_left Rat.max2 l q).
Proof.
  unfold Math_max. cbn [map fold_left].
  replace (max2 (nsub (int 0) Infinity) (Exact.Fin q)) with (Exact.Fin q).
  - apply fold_max2_Fin.
  - change (nsub (int 0) Infinity) with Exact.NegInf.
    unfold max2, isNaN. xsimpl. now rewrite Qeq_bool_refl.
Qed.

(** The least of [a :: l] is one of them and below all of them. *)
Lemma fold_min2_least (l : list Q) (a : Q) :
  let m := fold_left Rat.min2 l a in
  (exists x, In x (a :: l) /\ m == x) /\ Forall (Qle m) (a :: l).
Proof.
  revert a. induction l as [| x l IH]; intros a m; subst m.
  - cbn. split; [exists a; split; [now left | reflexivity] |].
    constructor; [lra | constructor].
  - cbn [fold_left]. destruct (IH (Rat.min2 a x)) as [(y & Hy & Hm) Hall].
    inversion Hall as [| ? ? Hhd Htl]; subst.
    unfold Rat.min2 in *.
    destruct (negb (Qle_bool a x)) eqn:Hc.
    + apply Qlt_bool_iff in Hc. split.
      * exists y. split; [| exact Hm]. destruct Hy as [<- | Hy]; [right; now left | right; now right].
      * constructor; [lra | constructor; [exact Hhd | exact Htl]].
    + apply negb_false_iff, Qle_bool_iff in Hc. split.
      * exists y. split; [| exact Hm]. destruct Hy as [<- | Hy]; [now left | right; now right].
      * constructor; [exact Hhd | constructor; [lra | exact Htl]].
Qed.

Lemma fold_max2_greatest (l : list Q) (a : Q) :
  let m := fold_left Rat.max2 l a in
  (exists x, In x (a :: l) /\ m == x) /\ Forall (fun x => x <= m) (a :: l).
Proof.
  revert a. induction l as [| x l IH]; intros a m; subst m.
  - cbn. split; [exists a; split; [now left | reflexivity] |].
    constructor; [lra | constructor].
  - cbn [fold_left]. destruct (IH (Rat.max2 a x)) as [(y & Hy & Hm) Hall].
    inversion Hall as [| ? ? Hhd Htl]; subst.
    unfold Rat.max2 in *.
    destruct (negb (Qle_bool x a)) eqn:Hc.
    + apply Qlt_bool_iff in Hc. split.
      * exists y. split; [| exact Hm]. destruct Hy as [<- | Hy]; [right; now left | right; now right].
      * constructor; [lra | constructor; [exact Hhd | exact Htl]].
    + apply negb_false_iff, Qle_bool_iff in Hc. split.
      * exists y. split; [| exact Hm]. destruct Hy as [<- | Hy]; [now left | right; now right].
      * constructor; [exact Hhd | constructor; [lra | exact Htl]].
Qed.

Lemma nth_map_Fin (l : list Q) (k : nat) :
  (k < List.length l)%nat ->
  nth k (map Exact.Fin l) NaN = Exact.Fin (nth k l 0).
Proof.
  intros Hk. rewrite (nth_indep _ NaN (Exact.Fin 0)) by now rewrite length_map.
  apply map_nth.
Qed.

Lemma at_index_Fin (l : list Q) (q : Q) (z : Z) :
  q == inject_Z z -> (0 <= z)%Z -> (Z.to_nat z < List.length l)%nat ->
  at_index (map Exact.Fin l) (Exact.Fin q) = Exact.Fin (nth (Z.to_nat z) l 0).
Proof.
  intros Hq Hz Hlt. unfold at_index. xsimpl.
  assert (Hfloor : Qfloor q = z) by (rewrite Hq; apply Qfloor_Z).
  rewrite Hfloor.
  replace (Qeq_bool q (inject_Z z)) with true
    by (symmetry; now apply Qeq_bool_iff).
  replace (0 <=? z)%Z with true by (symmetry; now apply Z.leb_le).
  cbn [andb]. now apply nth_map_Fin.
Qed.

(** [calculatePercentile] on rationals: [index] and its floor, ceiling and
    fractional part. *)
Lemma calculatePercentile_Fin (l : list Q) (p : Q) :
  calculatePercentile (map Exact.Fin l) (Exact.Fin p)
  = let n := inject_Z (Z.of_nat (List.length l)) in
    let index := p / inject_Z 100 * (n + - inject_Z 1) in
    let lower := inject_Z (Qfloor index) in
    let upper := inject_Z (Qceiling index) in
    let weight :=
      index - inject_Z (if Qle_bool 0 index then Qfloor index
                        else Qceiling index) in
    if negb (Qle_bool upper n) || Qeq_bool upper n
    then at_index (map Exact.Fin l) (Exact.Fin (n + - inject_Z 1))
    else if negb (Qle_bool (inject_Z 0) lower)
    then at_index (map Exact.Fin l) (Exact.Fin (inject_Z 0))
    else Exact.add
           (Exact.mul (at_index (map Exact.Fin l) (Exact.Fin lower))
              (Exact.Fin (inject_Z 1 + - weight)))
           (Exact.mul (at_index (map Exact.Fin l) (Exact.Fin upper))
              (Exact.Fin weight)).
Proof.
  unfold calculatePercentile, len. rewrite length_map. reflexivity.
Qed.

Lemma percentile_at_integer (l : list Q) (p : Q) (z : Z) :
  p / 100 * (inject_Z (Z.of_nat (List.length l)) - 1) == inject_Z z ->
  (0 <= z < Z.of_nat (List.length l))%Z ->
  exists r, calculatePercentile (map Exact.Fin l) (Exact.Fin p) = Exact.Fin r
            /\ r == nth (Z.to_nat z) l 0.
Proof.
  intros Hidx Hz. rewrite calculatePercentile_Fin. cbv zeta.
  change (inject_Z 100) with 100. change (inject_Z 1) with 1.
  change (inject_Z 0) with 0.
  unfold Qminus in Hidx.
  set (n := inject_Z (Z.of_nat (List.length l))) in *.
  set (index := p / 100 * (n + Qopp 1)) in *.
  assert (Hfloor : Qfloor index = z)
    by (rewrite Hidx; apply Qfloor_Z).
  assert (Hceil : Qceiling index = z)
    by (rewrite Hidx; apply Qceiling_Z).
  rewrite Hfloor, Hceil.
  assert (Hzn : inject_Z z < n).
  { subst n. rewrite <- Zlt_Qlt. lia. }
  assert (Hz0 : 0 <= inject_Z z).
  { change 0 with (inject_Z 0). rewrite <- Zle_Qle. lia. }
  replace (Qle_bool (inject_Z z) n) with true
    by (symmetry; apply Qle_bool_iff; lra).
  replace (Qeq_bool (inject_Z z) n) with false.
  2:{ symmetry. destruct (Qeq_bool (inject_Z z) n) eqn:Heq; [| reflexivity].
      apply Qeq_bool_iff in Heq. lra. }
  replace (Qle_bool 0 (inject_Z z)) with true
    by (symmetry; now apply Qle_bool_iff).
  cbn [negb orb].
  rewrite (@at_index_Fin l (inject_Z z) z) by (reflexivity || lia).
  eexists. split; [reflexivity | ring].
Qed.

Lemma sorted_head_least (s : list Q) :
  StronglySorted Qle s -> Forall (Qle (nth 0 s 0)) s.
Proof.
  intros Hs. destruct Hs as [| h t _ Hh]; [constructor |].
  cbn. constructor; [lra | exact Hh].
Qed.

Lemma sorted_last_greatest (s : list Q) :
  StronglySorted Qle s ->
  Forall (fun x => x <= nth (List.length s - 1) s 0) s.
Proof.
  induction 1 as [| h t Ht IH Hh]; [constructor |].
  destruct t as [| h' t'].
  - cbn. constructor; [lra | constructor].
  - replace (nth (List.length (h :: h' :: t') - 1) (h :: h' :: t') 0)
      with (nth (List.length (h' :: t') - 1) (h' :: t') 0)
      by (cbn; now rewrite Nat.sub_0_r).
    constructor; [| exact IH].
    rewrite Forall_forall in Hh. apply Hh. apply nth_In. cbn. lia.
Qed.

Lemma Forall_In (P : Q -> Prop) (l : list Q) (x : Q) :
  Forall P l -> In x l -> P x.
Proof. intros H. rewrite Forall_forall in H. apply H. Qed.

(** The head of the sorted array is the minimum, its last element the
    maximum. *)
Lemma sorted_ends (q : Q) (l : list Q) :
  nth 0 (Rat.sort (q :: l)) 0 == fold_left Rat.min2 l q
  /\ nth (List.length (q :: l) - 1) (Rat.sort (q :: l)) 0 == fold_left Rat.max2 l q.
Proof.
  pose proof (sort_perm (q :: l)) as Hperm.
  pose proof (sort_sorted (q :: l)) as Hsorted.
  pose proof (Permutation_length Hperm) as Hlen.
  assert (Hpos : (0 < List.length (Rat.sort (q :: l)))%nat)
    by (rewrite Hlen; cbn; lia).
  destruct (fold_min2_least l q) as [(x & Hx & Hmx) Hmin].
  destruct (fold_max2_greatest l q) as [(y & Hy & Hmy) Hmax].
  cbv zeta in *. split; apply Qle_antisym.
  - rewrite Hmx.
    apply (@Forall_In _ _ _ (@sorted_head_least _ Hsorted)).
    apply (Permutation_in _ (Permutation_sym Hperm) Hx).
  - apply (@Forall_In _ _ _ Hmin).
    apply (Permutation_in _ Hperm). now apply nth_In.
  - apply (@Forall_In (fun x => x <= _) _ _ Hmax).
    apply (Permutation_in _ Hperm). apply nth_In. lia.
  - rewrite Hmy. rewrite <- Hlen.
    apply (@Forall_In (fun x => x <= _) _ _ (@sorted_last_greatest _ Hsorted)).
    apply (Permutation_in _ (Permutation_sym Hperm) Hy).
Qed.

Lemma percentile_0_is_min (q : Q) (l : list Q) :
  neqb (calculatePercentile (sort (map Exact.Fin (q :: l))) (int 0))
       (Math_min (map Exact.Fin (q :: l))) = true.
Proof.
  rewrite sort_Fin, Math_min_Fin.
  destruct (@percentile_at_integer (Rat.sort (q :: l)) 0 0) as (r & Hr & Hrq).
  - unfold Qdiv. ring.
  - rewrite (Permutation_length (sort_perm (q :: l))). cbn [List.length]. lia.
  - change (int 0) with (Exact.Fin 0). rewrite Hr.
    apply Qeq_bool_iff. rewrite Hrq. apply (sorted_ends q l).
Qed.

Lemma percentile_100_is_max (q : Q) (l : list Q) :
  neqb (calculatePercentile (sort (map Exact.Fin (q :: l))) (int 100))
       (Math_max (map Exact.Fin (q :: l))) = true.
Proof.
  rewrite sort_Fin, Math_max_Fin.
  pose proof (Permutation_length (sort_perm (q :: l))) as Hlen.
  destruct (@percentile_at_integer (Rat.sort (q :: l)) 100
              (Z.of_nat (List.length (q :: l)) - 1)) as (r & Hr & Hrq).
  - rewrite Hlen. unfold Z.sub. rewrite inject_Z_plus, inject_Z_opp.
    change (inject_Z 1) with 1. field.
  - rewrite Hlen. cbn [List.length]. lia.
  - change (int 100) with (Exact.Fin 100). rewrite Hr.
    apply Qeq_bool_iff. rewrite Hrq.
    replace (Z.to_nat (Z.of_nat (List.length (q :: l)) - 1))
      with (List.length (q :: l) - 1)%nat by lia.
    apply (sorted_ends q l).
Qed.

Lemma round2_Fin (x : Q) : round2 (Exact.Fin x) = Exact.Fin (Rat.round2 x).
Proof. reflexivity. Qed.

Lemma round2_le (x y : Q) : x <= y -> Rat.round2 x <= Rat.round2 y.
Proof.
  intros Hxy. unfold Rat.round2. change (inject_Z 100) with 100.
  apply Qmult_le_compat_r; [| now compute].
  rewrite <- Zle_Qle. apply Qfloor_resp_le. lra.
Qed.

Lemma fold_add_Fin (l : list Q) (a : Q) :
  fold_left (fun sum val => nadd sum val) (map Exact.Fin l) (Exact.Fin a)
  = Exact.Fin (fold_left Qplus l a).
Proof.
  revert a. induction l as [| x l IH]; intros a; [reflexivity |].
  cbn [map fold_left]. apply IH.
Qed.

Lemma div_len_Fin (a : Q) (k : nat) :
  ndiv (Exact.Fin a) (int (Z.of_nat (S k)))
  = Exact.Fin (a / inject_Z (Z.of_nat (S k))).
Proof.
  xsimpl. destruct (Qeq_bool (inject_Z (Z.of_nat (S k))) 0) eqn:Hz;
    [| reflexivity].
  apply Qeq_bool_iff in Hz. unfold Qeq in Hz. cbn in Hz. lia.
Qed.

Lemma sum_bounds (lo hi : Q) (l : list Q) (a : Q) :
  Forall (Qle lo) l -> Forall (fun x => x <= hi) l ->
  a + lo * inject_Z (Z.of_nat (List.length l)) <= fold_left Qplus l a
  /\ fold_left Qplus l a <= a + hi * inject_Z (Z.of_nat (List.length l)).
Proof.
  intros Hlo Hhi. revert a.
  induction l as [| x l IH]; intros a.
  - cbn [fold_left List.length]. change (inject_Z (Z.of_nat 0)) with 0. lra.
  - inversion Hlo as [| ? ? Hlo1 Hlo2]; inversion Hhi as [| ? ? Hhi1 Hhi2];
      subst.
    destruct (IH Hlo2 Hhi2 (a + x)) as [H1 H2].
    cbn [fold_left List.length]. rewrite Nat2Z.inj_succ. unfold Z.succ.
    rewrite inject_Z_plus. change (inject_Z 1) with 1. split; lra.
Qed.

Lemma mean_between (q : Q) (l : list Q) :
  let n := inject_Z (Z.of_nat (List.length (q :: l))) in
  fold_left Rat.min2 l q <= fold_left Qplus (q :: l) 0 / n
  /\ fold_left Qplus (q :: l) 0 / n <= fold_left Rat.max2 l q.
Proof.
  cbv zeta.
  destruct (fold_min2_least l q) as [_ Hmin].
  destruct (fold_max2_greatest l q) as [_ Hmax].
  destruct (@sum_bounds _ _ (q :: l) 0 Hmin Hmax) as [H1 H2].
  assert (Hn : 0 < inject_Z (Z.of_nat (List.length (q :: l)))).
  { change 0 with (inject_Z 0). rewrite <- Zlt_Qlt. cbn. lia. }
  split.
  - apply Qle_shift_div_l; [exact Hn | lra].
  - apply Qle_shift_div_r; [exact Hn | lra].
Qed.

(** In exact arithmetic the summary of a non-empty array of rationals has
    its mean between its minimum and its maximum. *)
Lemma summary_mean_between (q : Q) (l : list Q) :
  exists s,
    calculateStatistics (map Exact.Fin (q :: l)) = Ok s
    /\ median s
       = round2 (calculatePercentile (sort (map Exact.Fin (q :: l))) (int 50))
    /\ nleb (min s) (mean s) = true
    /\ nleb (mean s) (max s) = true.
Proof.
  destruct (calculateStatistics_cons (Exact.Fin q) (map Exact.Fin l))
    as (s & Hs & Hmean & Hmedian & Hmin & Hmax).
  exists s. split; [exact Hs | split; [exact Hmedian |]].
  change (Exact.Fin q :: map Exact.Fin l) with (map Exact.Fin (q :: l)) in *.
  rewrite Hmean, Hmin, Hmax.
  change (@int _ E 0) with (Exact.Fin 0).
  rewrite Math_min_Fin, Math_max_Fin, fold_add_Fin.
  unfold len. rewrite length_map. cbn [List.length].
  rewrite div_len_Fin, !round2_Fin.
  destruct (mean_between q l) as [H1 H2]. cbv zeta in H1, H2.
  cbn [List.length] in H1, H2.
  split; apply nleb_Fin; apply round2_le; assumption.
Qed.
(** The mean of the summary of rationals. *)
Lemma mean_Fin (q : Q) (l : list Q) :
  exists s,
    calculateStatistics (map Exact.Fin (q :: l)) = Ok s
    /\ mean s = Exact.Fin (Rat.mean (q :: l)).
Proof.
  destruct (calculateStatistics_cons (Exact.Fin q) (map Exact.Fin l))
    as (s & Hs & Hmean & _).
  exists s. split; [exact Hs |].
  change (Exact.Fin q :: map Exact.Fin l) with (map Exact.Fin (q :: l)) in *.
  rewrite Hmean. change (@int _ E 0) with (Exact.Fin 0).
  rewrite fold_add_Fin. unfold len. rewrite length_map. cbn [List.length].
  now rewrite div_len_Fin, round2_Fin.
Qed.

Lemma all_Fin (l : list Exact.xnum) :
  (forall x, In x l -> exists q, x = Exact.Fin q) ->
  exists qs, l = map Exact.Fin qs.
Proof.
  induction l as [| x l IH]; intros H; [now exists [] |].
  destruct (H x (or_introl eq_refl)) as [q ->].
  destruct IH as [qs ->]; [intros y Hy; apply H; now right |].
  now exists (q :: qs).
Qed.

(** The improvement of a mean over itself is zero. *)
Lemma calculateImprovement_same (mu : Q) :
  neqb (calculateImprovement (Exact.Fin mu) (Exact.Fin mu)) (int 0) = true.
Proof.
  unfold calculateImprovement. xsimpl. change (inject_Z 0) with 0.
  destruct (Qeq_bool mu 0) eqn:Hz; [reflexivity |].
  xsimpl. change (Qeq_bool (inject_Z 100) 0) with false. xsimpl.
  apply Qeq_bool_iff.
  assert (Hfloor :
    Qfloor ((mu + - mu) / mu * inject_Z 100 * inject_Z 100 + (1 # 2)) = 0%Z).
  { setoid_replace ((mu + - mu) / mu * inject_Z 100 * inject_Z 100 + (1 # 2))
      with (1 # 2); [reflexivity |].
    setoid_replace (mu + - mu) with 0 by ring.
    unfold Qdiv. rewrite !Qmult_0_l. reflexivity. }
  rewrite Hfloor. reflexivity.
Qed.

(** Two identical populations of finite values, over the rationals: every
    improvement is zero, and the winner is a tie unless the mean rounds to
    zero, in which case the candidate is returned. *)
Lemma identical_populations_rational (X : list (MetricsResult Exact.xnum))
  (scenarioName : string) :
  (forall r m, In r X -> In m metrics -> exists q, metricValue m r = Exact.Fin q) ->
  exists comparisons,
    compareApplications X X scenarioName = Ok comparisons
    /\ forall c, In c comparisons ->
         neqb (improvement c) (int 0) = true
         /\ (winner c = Tie <-> neqb (mean (app1 c)) (int 0) = false)
         /\ (winner c <> Tie -> winner c = App2).
Proof.
  intros Hfin. eexists. split; [apply compareApplications_pushed |].
  intros c Hc. apply in_flat_map in Hc. destruct Hc as (m & Hm & Hc).
  apply pushed_inv in Hc.
  destruct Hc as (_ & Hs1 & Hs2 & Himp & Hwin).
  assert (Hsame : app2 c = app1 c) by congruence.
  rewrite Hsame in Himp, Hwin.
  destruct (all_Fin (extractMetricValues X m)) as [qs Hqs].
  { intros x Hx. apply filter_In in Hx. destruct Hx as [Hx _].
    apply in_map_iff in Hx. destruct Hx as (r & <- & Hr). now apply Hfin. }
  rewrite Hqs in Hs1. destruct qs as [| q l]; [discriminate Hs1 |].
  destruct (mean_Fin q l) as (s & Hs & Hmean).
  assert (Hmu : mean (app1 c) = Exact.Fin (Rat.mean (q :: l))) by congruence.
  rewrite Hmu in Himp, Hwin. rewrite Himp, Hwin, Hmu.
  destruct (determineWinner_same_mean sqrtQ (Rat.mean (q :: l)) m Hm)
    as [Htie Hside].
  split; [apply calculateImprovement_same | split; [exact Htie | exact Hside]].
Qed.

End RationalSummary.


(** * Binary64 through exact values *)

Section Binary64Values.
Local Open Scope Z_scope.

Lemma digits2_size (p : positive) : digits2_pos p = Pos.size p.
Proof. induction p as [p IH | p IH |]; cbn; congruence. Qed.

Lemma digits_bounds (p : positive) :
  2 ^ Zpos (digits2_pos p) <= 2 * Zpos p /\ Zpos p < 2 ^ Zpos (digits2_pos p).
Proof.
  rewrite digits2_size. split.
  - pose proof (Pos.size_le p) as H.
    apply Pos2Z.pos_le_pos in H. rewrite Pos2Z.inj_pow in H. exact H.
  - pose proof (Pos.size_gt p) as H.
    apply Pos2Z.pos_lt_pos in H. rewrite Pos2Z.inj_pow in H. exact H.
Qed.

(** What [valid_binary] says of a mantissa and its exponent. *)
Lemma bounded_inv (m : positive) (e : Z) :
  bounded prec emax m e = true ->
  let d := Zpos (digits2_pos m) in
  fexp prec emax (d + e) = e
  /\ -1074 <= e <= 971
  /\ d <= 53
  /\ (d = 53 \/ e = -1074).
Proof.
  unfold bounded, canonical_mantissa, fexp, emin, prec, emax.
  intros H. apply andb_true_iff in H. destruct H as [Hc He].
  apply Z.eqb_eq in Hc. apply Z.leb_le in He. cbv zeta. lia.
Qed.

Lemma mantissa_bounds (m : positive) (e : Z) :
  bounded prec emax m e = true ->
  Zpos m < 2 ^ 53 /\ (-1074 < e -> 2 ^ 52 <= Zpos m).
Proof.
  intros H. apply bounded_inv in H. cbv zeta in H.
  destruct H as (_ & He & Hd & Hn).
  destruct (digits_bounds m) as [Hlo Hhi]. split.
  - eapply Z.lt_le_trans; [exact Hhi |].
    apply Z.pow_le_mono_r; lia.
  - intros Hpos. destruct Hn as [Hn | Hn]; [| lia].
    rewrite Hn in Hlo. change (2 ^ 53) with (2 * 2 ^ 52) in Hlo. lia.
Qed.

(** Among valid mantissas the order of the values is the order of the
    exponents, then of the mantissas. *)
Lemma magnitude_compare (m1 m2 : positive) (e1 e2 : Z) :
  bounded prec emax m1 e1 = true -> bounded prec emax m2 e2 = true ->
  (Zpos m1 * 2 ^ (e1 + 1074) ?= Zpos m2 * 2 ^ (e2 + 1074))
  = match e1 ?= e2 with
    | Lt => Lt
    | Gt => Gt
    | Eq => Pos.compare_cont Eq m1 m2
    end.
Proof.
  intros H1 H2.
  pose proof (mantissa_bounds _ _ H1) as [Hm1 Hn1].
  pose proof (mantissa_bounds _ _ H2) as [Hm2 Hn2].
  apply bounded_inv in H1, H2. cbv zeta in H1, H2.
  destruct H1 as (_ & He1 & _), H2 as (_ & He2 & _).
  assert (Hstep : forall (a b : positive) (ea eb : Z),
            -1074 <= ea < eb -> Zpos a < 2 ^ 53 -> 2 ^ 52 <= Zpos b ->
            Zpos a * 2 ^ (ea + 1074) < Zpos b * 2 ^ (eb + 1074)).
  { intros a b ea eb Hab Ha Hb.
    replace (eb + 1074) with ((eb - ea - 1) + 1 + (ea + 1074)) by lia.
    rewrite (Z.pow_add_r 2 (eb - ea - 1 + 1) (ea + 1074)) by lia.
    rewrite (Z.pow_add_r 2 (eb - ea - 1) 1) by lia.
    assert (Hu : 0 < 2 ^ (ea + 1074)) by (apply Z.pow_pos_nonneg; lia).
    assert (Hk : 1 <= 2 ^ (eb - ea - 1))
      by (change 1 with (2 ^ 0); apply Z.pow_le_mono_r; lia).
    change (2 ^ 1) with 2. change (2 ^ 53) with (2 * 2 ^ 52) in Ha.
    set (u := 2 ^ (ea + 1074)) in *. set (k := 2 ^ (eb - ea - 1)) in *.
    set (c := 2 ^ 52) in *.
    apply Z.lt_le_trans with (2 * c * u).
    - apply Z.mul_lt_mono_pos_r; assumption.
    - replace (Zpos b * (k * 2 * u)) with (2 * (Zpos b * k) * u) by ring.
      apply Z.mul_le_mono_nonneg_r; [lia |].
      apply Z.mul_le_mono_nonneg_l; [lia |]. nia. }
  destruct (Z.compare_spec e1 e2) as [-> | Hlt | Hgt].
  - change (Pos.compare_cont Eq m1 m2) with (Zpos m1 ?= Zpos m2).
    assert (Hu : 0 < 2 ^ (e2 + 1074)) by (apply Z.pow_pos_nonneg; lia).
    destruct (Z.compare_spec (Zpos m1) (Zpos m2)) as [H | H | H].
    + rewrite H. apply Z.compare_refl.
    + apply Z.compare_lt_iff. apply Z.mul_lt_mono_pos_r; assumption.
    + apply Z.compare_gt_iff. apply Z.mul_lt_mono_pos_r; assumption.
  - apply Z.compare_lt_iff. apply Hstep; [lia | exact Hm1 | apply Hn2; lia].
  - apply Z.compare_gt_iff. apply Hstep; [lia | exact Hm2 | apply Hn1; lia].
Qed.

Lemma units_sign (s : bool) (m : positive) (e : Z) :
  bounded prec emax m e = true ->
  if s then units (S754_finite s m e) < 0 else 0 < units (S754_finite s m e).
Proof.
  intros Hb. apply bounded_inv in Hb. cbv zeta in Hb.
  assert (H : 0 < Zpos m * 2 ^ (e + 1074)).
  { apply Z.mul_pos_pos; [lia | apply Z.pow_pos_nonneg; lia]. }
  destruct s; cbn [units cond_Zopp]; lia.
Qed.

(** [<], [===] and the like on finite binary64 compare the exact values. *)
Lemma SFcompare_units (x y : spec_float) :
  valid_binary x = true -> valid_binary y = true ->
  SFfinite x = true -> SFfinite y = true ->
  SFcompare x y = Some (units x ?= units y).
Proof.
  destruct x as [sx | sx | | sx mx ex], y as [sy | sy | | sy my ey];
    cbn [SFfinite valid_binary]; try discriminate; intros Hx Hy _ _.
  - reflexivity.
  - pose proof (units_sign sy my ey Hy) as Hs.
    destruct sy; cbn [SFcompare]; f_equal; symmetry;
      [apply Z.compare_gt_iff | apply Z.compare_lt_iff]; exact Hs.
  - pose proof (units_sign sx mx ex Hx) as Hs.
    destruct sx; cbn [SFcompare]; f_equal; symmetry;
      [apply Z.compare_lt_iff | apply Z.compare_gt_iff]; exact Hs.
  - pose proof (units_sign sx mx ex Hx) as Hsx.
    pose proof (units_sign sy my ey Hy) as Hsy.
    destruct sx, sy; cbn [SFcompare]; f_equal; symmetry.
    + cbn [units cond_Zopp]. rewrite Z.compare_opp.
      rewrite (magnitude_compare my mx ey ex Hy Hx).
      rewrite (Z.compare_antisym ex ey).
      rewrite (Pos.compare_cont_antisym mx my Eq).
      destruct (ex ?= ey); reflexivity.
    + apply Z.compare_lt_iff. lia.
    + apply Z.compare_gt_iff. lia.
    + cbn [units cond_Zopp]. apply (magnitude_compare mx my ex ey Hx Hy).
Qed.

End Binary64Values.

(** ** The rounding of a mantissa: what is shifted out, and the sign *)

Section Binary64Rounding.
Local Open Scope Z_scope.

Lemma shr_1_div2 (mrs : shr_record) :
  0 <= shr_m mrs -> shr_m (shr_1 mrs) = Z.shiftr (shr_m mrs) 1.
Proof.
  destruct mrs as [m r s]. destruct m as [| [q | q |] | q]; cbn [shr_m];
    [reflexivity .. | lia].
Qed.

(** [iter_pos shr_1 p] drops the [p] low bits of the mantissa. *)
Lemma iter_shr_1 (p : positive) (mrs : shr_record) :
  0 <= shr_m mrs ->
  shr_m (iter_pos shr_1 p mrs) = Z.shiftr (shr_m mrs) (Zpos p).
Proof.
  revert mrs. induction p as [p IH | p IH |]; intros mrs Hm; cbn [iter_pos].
  - assert (H1 : 0 <= shr_m (shr_1 mrs))
      by (rewrite shr_1_div2 by exact Hm; now apply Z.shiftr_nonneg).
    assert (H2 : 0 <= shr_m (iter_pos shr_1 p (shr_1 mrs)))
      by (rewrite IH by exact H1; now apply Z.shiftr_nonneg).
    rewrite (IH _ H2), (IH _ H1), shr_1_div2, !Z.shiftr_shiftr by lia.
    f_equal. lia.
  - assert (H1 : 0 <= shr_m (iter_pos shr_1 p mrs))
      by (rewrite IH by exact Hm; now apply Z.shiftr_nonneg).
    rewrite (IH _ H1), (IH _ Hm), !Z.shiftr_shiftr by lia. f_equal. lia.
  - now apply shr_1_div2.
Qed.

Lemma shr_m_of_loc (m : Z) (l : location) : shr_m (shr_record_of_loc m l) = m.
Proof. destruct l as [| []]; reflexivity. Qed.

(** Rounding a mantissa of an exponent that binary64 has leaves it
    positive. *)
Lemma shr_fexp_positive (q : positive) (e : Z) (l : location) :
  -1074 <= e ->
  (exists q', shr_m (fst (shr_fexp prec emax (Zpos q) e l)) = Zpos q')
  /\ -1074 <= snd (shr_fexp prec emax (Zpos q) e l).
Proof.
  intros He. unfold shr_fexp, shr.
  destruct (fexp prec emax (Zdigits2 (Zpos q) + e) - e) as [| k | k] eqn:Hn;
    cbn [fst snd]; try (rewrite shr_m_of_loc; split; [eauto | exact He]).
  split; [| lia].
  rewrite iter_shr_1 by (rewrite shr_m_of_loc; lia). rewrite shr_m_of_loc.
  unfold fexp, emin, prec, emax in Hn. cbn [Zdigits2] in Hn.
  destruct (digits_bounds q) as [Hlo _].
  assert (Hk : Zpos k = Zpos (digits2_pos q) - 53) by lia.
  assert (Hpow : 2 ^ Zpos k <= Zpos q).
  { replace (Zpos (digits2_pos q)) with (Zpos k + 52 + 1) in Hlo by lia.
    rewrite !Z.pow_add_r in Hlo by lia. change (2 ^ 1) with 2 in Hlo.
    assert (0 < 2 ^ Zpos k) by (apply Z.pow_pos_nonneg; lia).
    assert (1 <= 2 ^ 52) by (now compute). nia. }
  rewrite Z.shiftr_div_pow2 by lia.
  assert (Hpos : 0 < Zpos q / 2 ^ Zpos k).
  { apply Z.div_str_pos. split; [apply Z.pow_pos_nonneg; lia | exact Hpow]. }
  destruct (Zpos q / 2 ^ Zpos k) as [| q' | q']; try lia. now exists q'.
Qed.

Lemma round_nearest_even_positive (q : positive) (l : location) :
  exists q', round_nearest_even (Zpos q) l = Zpos q'.
Proof.
  destruct l as [| []]; cbn [round_nearest_even]; eauto;
    try destruct (Z.even (Zpos q)); eauto; exists (q + 1)%positive; reflexivity.
Qed.

(** The sign of a rounded number is the sign given to it, and it is not
    zero when the exponent is one of binary64. *)
Lemma binary_round_aux_sign (s : bool) (q : positive) (e : Z) (l : location) :
  -1074 <= e ->
  match binary_round_aux prec emax s (Zpos q) e l with
  | S754_finite s' _ _ | S754_infinity s' => s' = s
  | _ => False
  end.
Proof.
  intros He.
  destruct (shr_fexp_positive q e l He) as [(q1 & Hq1) He1].
  unfold binary_round_aux.
  destruct (shr_fexp prec emax (Zpos q) e l) as [mrs1 e1].
  cbn [fst snd] in Hq1, He1. rewrite Hq1.
  destruct (round_nearest_even_positive q1 (loc_of_shr_record mrs1))
    as [q2 ->].
  destruct (shr_fexp_positive q2 e1 loc_Exact He1) as [(q3 & Hq3) _].
  destruct (shr_fexp prec emax (Zpos q2) e1 loc_Exact) as [mrs2 e2].
  cbn [fst] in Hq3. rewrite Hq3.
  destruct (e2 <=? emax - prec); reflexivity.
Qed.

Lemma binary_round_sign (s : bool) (q : positive) (e : Z) :
  -1074 <= e ->
  match binary_round prec emax s q e with
  | S754_finite s' _ _ | S754_infinity s' => s' = s
  | _ => False
  end.
Proof.
  intros He. unfold binary_round, shl_align.
  set (f := fexp prec emax (Zpos (digits2_pos q) + e)).
  assert (Hf : -1074 <= f) by (subst f; unfold fexp, emin, prec, emax; lia).
  destruct (f - e) as [| d | d]; now apply binary_round_aux_sign.
Qed.

End Binary64Rounding.

(** ** The sign of a difference *)

Section Binary64Difference.
Local Open Scope Z_scope.

Lemma iter_xO (m d : positive) : Zpos (Pos.iter xO m d) = Zpos m * 2 ^ Zpos d.
Proof.
  induction d as [| d IH] using Pos.peano_ind.
  - cbn [Pos.iter]. change (2 ^ 1) with 2. lia.
  - rewrite Pos.iter_succ, Pos2Z.inj_succ, Z.pow_succ_r by lia.
    rewrite Pos2Z.inj_xO, IH. ring.
Qed.

(** [shl_align] writes a mantissa at a lower exponent. *)
Lemma shl_align_value (m : positive) (e ez : Z) :
  ez <= e -> Zpos (fst (shl_align m e ez)) = Zpos m * 2 ^ (e - ez).
Proof.
  intros Hle. unfold shl_align.
  destruct (ez - e) as [| d | d] eqn:Hd; cbn [fst]; try lia.
  - replace (e - ez) with 0 by lia. change (2 ^ 0) with 1. lia.
  - rewrite iter_xO. f_equal. f_equal. lia.
Qed.

Lemma aligned_units (s : bool) (m : positive) (e ez : Z) :
  -1074 <= ez <= e ->
  units (S754_finite s m e)
  = cond_Zopp s (Zpos (fst (shl_align m e ez))) * 2 ^ (ez + 1074).
Proof.
  intros He. rewrite shl_align_value by lia. cbn [units].
  replace (e + 1074) with ((e - ez) + (ez + 1074)) by lia.
  rewrite Z.pow_add_r by lia. destruct s; cbn [cond_Zopp]; ring.
Qed.

(** On finite numbers [x - y > 0] is [y < x]: a difference does not round
    to zero. *)
Lemma SFsub_positive (x y : spec_float) :
  valid_binary x = true -> valid_binary y = true ->
  SFfinite x = true -> SFfinite y = true ->
  SFltb (S754_zero false) (SFsub prec emax x y) = (units y <? units x).
Proof.
  destruct x as [sx | sx | | sx mx ex], y as [sy | sy | | sy my ey];
    cbn [SFfinite valid_binary]; try discriminate; intros Hx Hy _ _.
  - destruct sx, sy; reflexivity.
  - pose proof (units_sign sy my ey Hy) as Hs. cbn [SFsub].
    change (units (S754_zero sx)) with 0.
    destruct sy; cbn -[units]; symmetry;
      [apply Z.ltb_lt | apply Z.ltb_ge]; lia.
  - pose proof (units_sign sx mx ex Hx) as Hs. cbn [SFsub].
    change (units (S754_zero sy)) with 0.
    destruct sx; cbn -[units]; symmetry;
      [apply Z.ltb_ge | apply Z.ltb_lt]; lia.
  - pose proof (bounded_inv _ _ Hx) as (_ & Hex & _).
    pose proof (bounded_inv _ _ Hy) as (_ & Hey & _).
    cbn [SFsub]. cbv zeta.
    set (ez := Z.min ex ey).
    assert (Hez : -1074 <= ez) by (subst ez; lia).
    rewrite (aligned_units sx mx ex ez), (aligned_units sy my ey ez)
      by (subst ez; lia).
    set (X := cond_Zopp sx (Zpos (fst (shl_align mx ex ez)))).
    set (Y := cond_Zopp sy (Zpos (fst (shl_align my ey ez)))).
    assert (Hu : 0 < 2 ^ (ez + 1074)) by (apply Z.pow_pos_nonneg; lia).
    destruct (X - Y) as [| p | p] eqn:HD; cbn [binary_normalize].
    + cbn. symmetry. apply Z.ltb_ge. nia.
    + pose proof (binary_round_sign false p ez Hez) as Hr.
      destruct (binary_round prec emax false p ez) as [s | s | | s m e];
        try contradiction; subst s; cbn; symmetry; apply Z.ltb_lt; nia.
    + pose proof (binary_round_sign true p ez Hez) as Hr.
      destruct (binary_round prec emax true p ez) as [s | s | | s m e];
        try contradiction; subst s; cbn; symmetry; apply Z.ltb_ge; nia.
Qed.

End Binary64Difference.

(** ** Products with one and with zero *)

Section Binary64Products.
Local Open Scope Z_scope.

Lemma digits_iter_xO (m k : positive) :
  Zpos (digits2_pos (Pos.iter xO m k)) = Zpos (digits2_pos m) + Zpos k.
Proof.
  induction k as [| k IH] using Pos.peano_ind.
  - cbn [Pos.iter digits2_pos]. lia.
  - rewrite Pos.iter_succ. cbn [digits2_pos]. rewrite !Pos2Z.inj_succ, IH. lia.
Qed.

(** Shifting out the zeros that were shifted in loses nothing. *)
Lemma iter_shr_1_zeros (k m : positive) :
  iter_pos shr_1 k
    {| shr_m := Zpos (Pos.iter xO m k); shr_r := false; shr_s := false |}
  = {| shr_m := Zpos m; shr_r := false; shr_s := false |}.
Proof.
  revert m. induction k as [k IH | k IH |]; intros m;
    cbn [iter_pos Pos.iter].
  - cbn [shr_1 orb]. now rewrite !IH.
  - now rewrite !IH.
  - reflexivity.
Qed.

(** A valid mantissa is left as it is by the rounding. *)
Lemma shr_fexp_canonical (m : positive) (e : Z) :
  bounded prec emax m e = true ->
  shr_fexp prec emax (Zpos m) e loc_Exact
  = ({| shr_m := Zpos m; shr_r := false; shr_s := false |}, e).
Proof.
  intros Hb. apply bounded_inv in Hb. cbv zeta in Hb. destruct Hb as [Hf _].
  unfold shr_fexp. cbn [Zdigits2]. rewrite Hf, Z.sub_diag. reflexivity.
Qed.

Lemma shr_fexp_shifted (m k : positive) (e : Z) :
  bounded prec emax m e = true ->
  shr_fexp prec emax (Zpos (Pos.iter xO m k)) (e - Zpos k) loc_Exact
  = ({| shr_m := Zpos m; shr_r := false; shr_s := false |}, e).
Proof.
  intros Hb. apply bounded_inv in Hb. cbv zeta in Hb. destruct Hb as [Hf _].
  unfold shr_fexp. cbn [Zdigits2]. rewrite digits_iter_xO.
  replace (Zpos (digits2_pos m) + Zpos k + (e - Zpos k))
    with (Zpos (digits2_pos m) + e) by lia.
  rewrite Hf. replace (e - (e - Zpos k)) with (Zpos k) by lia.
  cbn [shr shr_record_of_loc]. rewrite iter_shr_1_zeros. f_equal. lia.
Qed.

(** A finite number times one is that number. *)
Lemma SFmul_one (x : spec_float) :
  valid_binary x = true -> SFfinite x = true ->
  SFmul prec emax x (S754_finite false 4503599627370496 (-52)) = x.
Proof.
  destruct x as [s | s | | s m e]; cbn [SFfinite valid_binary];
    try discriminate; intros Hb _.
  - now destruct s.
  - cbn [SFmul]. rewrite xorb_false_r.
    replace (Pos.mul m 4503599627370496) with (Pos.iter xO m 52)
      by (rewrite Pos.mul_comm; reflexivity).
    change (e + -52) with (e - 52).
    unfold binary_round_aux. rewrite (shr_fexp_shifted m 52 e Hb).
    cbn [shr_m loc_of_shr_record round_nearest_even].
    rewrite (shr_fexp_canonical m e Hb). cbn [shr_m].
    unfold bounded in Hb. apply andb_true_iff in Hb. destruct Hb as [_ Hle].
    now rewrite Hle.
Qed.

(** A finite number times zero is a zero of its sign, and adding a zero of
    its sign to a finite number changes nothing. *)
Lemma SFmul_add_zero (x : spec_float) :
  SFfinite x = true ->
  SFadd prec emax x (SFmul prec emax x (S754_zero false)) = x.
Proof.
  destruct x as [s | s | | s m e]; cbn [SFfinite]; try discriminate; intros _.
  - now destruct s.
  - reflexivity.
Qed.

End Binary64Products.

(** ** The operations on finite numbers *)

Section Binary64Finite.
Local Open Scope Z_scope.

Lemma compare_ltb (a b : Z) :
  match a ?= b with Lt => true | _ => false end = (a <? b).
Proof. reflexivity. Qed.

Lemma compare_eqb (a b : Z) :
  match a ?= b with Eq => true | _ => false end = (a =? b).
Proof.
  destruct (Z.compare_spec a b) as [-> | H | H]; symmetry;
    [apply Z.eqb_refl | apply Z.eqb_neq; lia | apply Z.eqb_neq; lia].
Qed.

Lemma ltb_units (x y : float) :
  isFinite x = true -> isFinite y = true ->
  PrimFloat.ltb x y = (unitsOf x <? unitsOf y).
Proof.
  intros Hx Hy. rewrite FloatAxioms.ltb_spec. unfold SFltb.
  rewrite (SFcompare_units _ _ (Prim2SF_valid x) (Prim2SF_valid y) Hx Hy).
  apply compare_ltb.
Qed.

Lemma eqb_units (x y : float) :
  isFinite x = true -> isFinite y = true ->
  PrimFloat.eqb x y = (unitsOf x =? unitsOf y).
Proof.
  intros Hx Hy. rewrite FloatAxioms.eqb_spec. unfold SFeqb.
  rewrite (SFcompare_units _ _ (Prim2SF_valid x) (Prim2SF_valid y) Hx Hy).
  apply compare_eqb.
Qed.

(** The comparator of the sort: on finite numbers [x - y > 0] is [y < x]. *)
Lemma sub_positive (x y : float) :
  isFinite x = true -> isFinite y = true ->
  PrimFloat.ltb PrimFloat.zero (PrimFloat.sub x y) = (unitsOf y <? unitsOf x).
Proof.
  intros Hx Hy. rewrite FloatAxioms.ltb_spec, FloatAxioms.sub_spec.
  change (Prim2SF PrimFloat.zero) with (S754_zero false).
  exact (SFsub_positive _ _ (Prim2SF_valid x) (Prim2SF_valid y) Hx Hy).
Qed.

(** The interpolation of a finite number with itself at weight [+0]. *)
Lemma mul_one_add_zero (x : float) :
  isFinite x = true ->
  PrimFloat.add (PrimFloat.mul x PrimFloat.one) (PrimFloat.mul x PrimFloat.zero)
  = x.
Proof.
  intros Hx. apply Prim2SF_inj.
  rewrite FloatAxioms.add_spec, !FloatAxioms.mul_spec.
  change (Prim2SF PrimFloat.zero) with (S754_zero false).
  change (Prim2SF PrimFloat.one)
    with (S754_finite false 4503599627370496 (-52)).
  unfold SF64add, SF64mul.
  rewrite (SFmul_one _ (Prim2SF_valid x) Hx).
  exact (SFmul_add_zero _ Hx).
Qed.

Lemma finite_not_NaN (x : float) : isFinite x = true -> isNaN x = false.
Proof.
  intros Hx. unfold isNaN. cbn [neqb binary64].
  rewrite (eqb_units x x Hx Hx), Z.eqb_refl. reflexivity.
Qed.

End Binary64Finite.

(** * The sorted array and the percentiles at its ends *)

Section SortFacts.
Context {A : Type} {N : JSNumber A}.
Import PerformanceAnalyzer.
Local Open Scope js_scope.

(** Whatever the comparator answers, the sorted array holds the numbers of
    the array. *)
Lemma insert_permutation (x : A) (l : list A) : Permutation (insert x l) (x :: l).
Proof.
  induction l as [| y l IH]; [reflexivity |]. cbn [insert].
  destruct (x - y >? int 0); [| reflexivity].
  rewrite IH. apply perm_swap.
Qed.

Lemma sort_permutation (l : list A) : Permutation (sort l) l.
Proof.
  induction l as [| x l IH]; [reflexivity |].
  unfold sort in *. cbn [fold_right]. rewrite insert_permutation.
  now constructor.
Qed.

(** [calculatePercentile] reads the array where [locate] says. *)
Lemma calculatePercentile_readAt (sortedValues : list A) (percentile : A) :
  calculatePercentile sortedValues percentile
  = readAt sortedValues (locate (len sortedValues) percentile).
Proof.
  unfold calculatePercentile, locate. cbv zeta.
  destruct (_ >=? _); [reflexivity |].
  destruct (_ <? _); reflexivity.
Qed.

End SortFacts.

Section Binary64Sort.
Import PerformanceAnalyzer.
Local Open Scope Z_scope.

Local Abbreviation finite := (fun x : float => isFinite x = true).

Lemma insert_sorted_finite (x : float) (l : list float) :
  isFinite x = true -> Forall finite l ->
  StronglySorted below l -> StronglySorted below (insert x l).
Proof.
  intros Hx Hl Hs. induction Hs as [| y l Hs IH Hy]; [repeat constructor |].
  inversion Hl as [| ? ? Hfy Hfl]; subst. cbn [insert].
  change (nltb (int 0) (nsub x y))
    with (PrimFloat.ltb PrimFloat.zero (PrimFloat.sub x y)).
  rewrite (sub_positive x y Hx Hfy).
  destruct (Z.ltb_spec (unitsOf y) (unitsOf x)) as [Hlt | Hge].
  - constructor; [exact (IH Hfl) |].
    apply (Permutation_Forall (Permutation_sym (insert_permutation x l))).
    constructor; [unfold below; lia | exact Hy].
  - constructor; [now constructor |].
    constructor; [exact Hge |].
    eapply Forall_impl; [| exact Hy]. unfold below. intros z Hz. lia.
Qed.

Lemma sort_finite (l : list float) : Forall finite l -> Forall finite (sort l).
Proof.
  intros Hl.
  exact (Permutation_Forall (Permutation_sym (sort_permutation l)) Hl).
Qed.

Lemma sort_sorted_finite (l : list float) :
  Forall finite l -> StronglySorted below (sort l).
Proof.
  induction l as [| x l IH]; intros Hl; [constructor |].
  inversion Hl as [| ? ? Hx Hl']; subst.
  change (sort (x :: l)) with (insert x (sort l)).
  apply insert_sorted_finite; [exact Hx | now apply sort_finite | now apply IH].
Qed.

Lemma min2_finite (a b : float) :
  isFinite a = true -> isFinite b = true ->
  min2 a b = if unitsOf b <? unitsOf a then b else a.
Proof.
  intros Ha Hb. unfold min2.
  rewrite (finite_not_NaN a Ha), (finite_not_NaN b Hb).
  cbn [nltb binary64]. now rewrite (ltb_units b a Hb Ha).
Qed.

Lemma max2_finite (a b : float) :
  isFinite a = true -> isFinite b = true ->
  max2 a b = if unitsOf a <? unitsOf b then b else a.
Proof.
  intros Ha Hb. unfold max2.
  rewrite (finite_not_NaN a Ha), (finite_not_NaN b Hb).
  cbn [nltb binary64]. now rewrite (ltb_units a b Ha Hb).
Qed.

(** [Math.min] and [Math.max] start from the infinities, which the first
    finite number replaces. *)
Lemma min2_Infinity (x : float) : isFinite x = true -> min2 Infinity x = x.
Proof.
  intros Hx. unfold min2. rewrite (finite_not_NaN x Hx).
  replace (isNaN (@Infinity float _)) with false by (vm_compute; reflexivity).
  cbn [nltb binary64]. rewrite FloatAxioms.ltb_spec.
  replace (Prim2SF Infinity) with (S754_infinity false)
    by (vm_compute; reflexivity).
  unfold isFinite in Hx.
  destruct (Prim2SF x) as [s | s | | s m e]; try discriminate; reflexivity.
Qed.

Lemma max2_minus_Infinity (x : float) :
  isFinite x = true -> max2 (nsub (int 0) Infinity) x = x.
Proof.
  intros Hx. unfold max2. rewrite (finite_not_NaN x Hx).
  replace (isNaN (nsub (int 0) (@Infinity float _))) with false
    by (vm_compute; reflexivity).
  cbn [nltb binary64]. rewrite FloatAxioms.ltb_spec.
  replace (Prim2SF (nsub (int 0) Infinity)) with (S754_infinity true)
    by (vm_compute; reflexivity).
  unfold isFinite in Hx.
  destruct (Prim2SF x) as [s | s | | s m e]; try discriminate; reflexivity.
Qed.

(** The least of finite numbers is one of them, and below them all. *)
Lemma fold_min2_finite (l : list float) (a : float) :
  isFinite a = true -> Forall finite l ->
  let r := fold_left min2 l a in
  isFinite r = true /\ In r (a :: l) /\ Forall (below r) (a :: l).
Proof.
  revert a. induction l as [| x l IH]; intros a Ha Hl r; subst r.
  - cbn [fold_left]. split; [exact Ha | split; [now left |]].
    constructor; [unfold below; lia | constructor].
  - inversion Hl as [| ? ? Hx Hl']; subst. cbn [fold_left].
    rewrite (min2_finite a x Ha Hx).
    destruct (Z.ltb_spec (unitsOf x) (unitsOf a)) as [Hlt | Hge].
    + destruct (IH x Hx Hl') as (Hr & Hin & Hall).
      inversion Hall as [| ? ? Hhd Htl]; subst.
      split; [exact Hr | split].
      * right. exact Hin.
      * constructor; [unfold below in *; lia | now constructor].
    + destruct (IH a Ha Hl') as (Hr & Hin & Hall).
      inversion Hall as [| ? ? Hhd Htl]; subst.
      split; [exact Hr | split].
      * destruct Hin as [<- | Hin]; [now left | right; now right].
      * constructor; [exact Hhd |].
        constructor; [unfold below in *; lia | exact Htl].
Qed.

Lemma fold_max2_finite (l : list float) (a : float) :
  isFinite a = true -> Forall finite l ->
  let r := fold_left max2 l a in
  isFinite r = true /\ In r (a :: l) /\ Forall (fun x => below x r) (a :: l).
Proof.
  revert a. induction l as [| x l IH]; intros a Ha Hl r; subst r.
  - cbn [fold_left]. split; [exact Ha | split; [now left |]].
    constructor; [unfold below; lia | constructor].
  - inversion Hl as [| ? ? Hx Hl']; subst. cbn [fold_left].
    rewrite (max2_finite a x Ha Hx).
    destruct (Z.ltb_spec (unitsOf a) (unitsOf x)) as [Hlt | Hge].
    + destruct (IH x Hx Hl') as (Hr & Hin & Hall).
      inversion Hall as [| ? ? Hhd Htl]; subst.
      split; [exact Hr | split].
      * right. exact Hin.
      * constructor; [unfold below in *; lia | now constructor].
    + destruct (IH a Ha Hl') as (Hr & Hin & Hall).
      inversion Hall as [| ? ? Hhd Htl]; subst.
      split; [exact Hr | split].
      * destruct Hin as [<- | Hin]; [now left | right; now right].
      * constructor; [exact Hhd |].
        constructor; [unfold below in *; lia | exact Htl].
Qed.

Lemma sorted_first_below (s : list float) :
  StronglySorted below s -> Forall (below (nth 0 s NaN)) s.
Proof.
  intros Hs. destruct Hs as [| h t _ Hh]; [constructor |].
  cbn [nth]. constructor; [unfold below; lia | exact Hh].
Qed.

Lemma sorted_last_above (s : list float) :
  StronglySorted below s ->
  Forall (fun x => below x (nth (List.length s - 1) s NaN)) s.
Proof.
  induction 1 as [| h t Ht IH Hh]; [constructor |].
  destruct t as [| h' t'].
  - cbn. constructor; [unfold below; lia | constructor].
  - replace (nth (List.length (h :: h' :: t') - 1) (h :: h' :: t') NaN)
      with (nth (List.length (h' :: t') - 1) (h' :: t') NaN)
      by (cbn; now rewrite Nat.sub_0_r).
    constructor; [| exact IH].
    rewrite Forall_forall in Hh. apply Hh. apply nth_In. cbn. lia.
Qed.

(** Of finite numbers, the first of the sorted array is [Math.min] and the
    last is [Math.max]. *)
Lemma sorted_ends_finite (v : float) (vs : list float) :
  Forall finite (v :: vs) ->
  let s := sort (v :: vs) in
  isFinite (nth 0 s NaN) = true
  /\ isFinite (nth (List.length s - 1) s NaN) = true
  /\ PrimFloat.eqb (nth 0 s NaN) (Math_min (v :: vs)) = true
  /\ PrimFloat.eqb (nth (List.length s - 1) s NaN) (Math_max (v :: vs)) = true.
Proof.
  intros Hfin s.
  pose proof (sort_permutation (v :: vs)) as Hperm. fold s in Hperm.
  pose proof (sort_sorted_finite _ Hfin) as Hsorted. fold s in Hsorted.
  pose proof (sort_finite _ Hfin) as Hsfin. fold s in Hsfin.
  pose proof (Permutation_length Hperm) as Hlen.
  assert (Hpos : (0 < List.length s)%nat) by (rewrite Hlen; cbn; lia).
  inversion Hfin as [| ? ? Hv Hvs]; subst.
  assert (Hfirst : In (nth 0 s NaN) s) by (now apply nth_In).
  assert (Hlast : In (nth (List.length s - 1) s NaN) s)
    by (apply nth_In; lia).
  rewrite Forall_forall in Hsfin.
  pose proof (Hsfin _ Hfirst) as Hf0. pose proof (Hsfin _ Hlast) as Hf1.
  unfold Math_min, Math_max. cbn [fold_left].
  rewrite (min2_Infinity v Hv), (max2_minus_Infinity v Hv).
  destruct (fold_min2_finite vs v Hv Hvs) as (Hrmin & Hinmin & Hmin).
  destruct (fold_max2_finite vs v Hv Hvs) as (Hrmax & Hinmax & Hmax).
  cbv zeta in *.
  pose proof (sorted_first_below _ Hsorted) as Hhead.
  pose proof (sorted_last_above _ Hsorted) as Htail.
  rewrite Forall_forall in Hmin, Hmax, Hhead, Htail.
  split; [exact Hf0 | split; [exact Hf1 | split]].
  - rewrite (eqb_units _ _ Hf0 Hrmin). apply Z.eqb_eq.
    apply Z.le_antisymm.
    + apply Hhead. apply (Permutation_in _ (Permutation_sym Hperm) Hinmin).
    + apply Hmin. apply (Permutation_in _ Hperm Hfirst).
  - rewrite (eqb_units _ _ Hf1 Hrmax). apply Z.eqb_eq.
    apply Z.le_antisymm.
    + apply Hmax. apply (Permutation_in _ Hperm Hlast).
    + apply Htail. apply (Permutation_in _ (Permutation_sym Hperm) Hinmax).
Qed.

End Binary64Sort.

(** ** The percentiles read at an index itself *)

Section Binary64Ends.
Import PerformanceAnalyzer.
Local Open Scope Z_scope.

Local Abbreviation finite := (fun x : float => isFinite x = true).

Lemma index_indexZ (x : float) :
  Binary64.index x = option_map Z.to_nat (indexZ x).
Proof.
  unfold Binary64.index, indexZ.
  destruct (Prim2SF x) as [s | s | | s m e]; try reflexivity.
  destruct s; [reflexivity |].
  destruct (PrimFloat.eqb (Binary64.floor x) x); reflexivity.
Qed.

(** At the index [k] itself, [calculatePercentile] returns the number at
    [k], if it is finite. *)
Lemma isIndex_readAt (l : list float) (place : Place float) (k : Z) :
  isIndex place k = true ->
  isFinite (nth (Z.to_nat k) l NaN) = true ->
  readAt l place = nth (Z.to_nat k) l NaN.
Proof.
  destruct place as [i | lower upper weight]; [discriminate |].
  cbn [isIndex].
  destruct (indexZ lower) as [a |] eqn:Ha; [| discriminate].
  destruct (indexZ upper) as [b |] eqn:Hb; [| discriminate].
  destruct (Prim2SF weight) as [[|] | | |] eqn:Hw; try discriminate.
  intros Hk Hfin. apply andb_true_iff in Hk. destruct Hk as [Hak Hbk].
  apply Z.eqb_eq in Hak, Hbk. subst a b.
  assert (Hweight : weight = PrimFloat.zero)
    by (apply Prim2SF_inj; rewrite Hw; reflexivity).
  subst weight. cbn [readAt]. unfold at_index. cbn [to_index binary64].
  rewrite !index_indexZ, Ha, Hb. cbn [option_map].
  change (nsub (int 1) PrimFloat.zero) with PrimFloat.one.
  exact (mul_one_add_zero _ Hfin).
Qed.

(** The percentiles 0 and 100 of an array of finite numbers are its first
    and its last number. *)
Lemma percentile_ends (l : list float) :
  endsAt (Z.of_nat (List.length l)) = true ->
  (0 < List.length l)%nat -> Forall finite l ->
  calculatePercentile l (int 0) = nth 0 l NaN
  /\ calculatePercentile l (int 100) = nth (List.length l - 1) l NaN.
Proof.
  intros Hends Hpos Hfin. unfold endsAt in Hends.
  apply andb_true_iff in Hends. destruct Hends as [H0 H100].
  rewrite Forall_forall in Hfin.
  rewrite !calculatePercentile_readAt. unfold len. split.
  - apply (isIndex_readAt l _ 0 H0). apply Hfin. now apply nth_In.
  - replace (List.length l - 1)%nat
      with (Z.to_nat (Z.of_nat (List.length l) - 1)) by lia.
    apply (isIndex_readAt l _ _ H100). apply Hfin. apply nth_In. lia.
Qed.

End Binary64Ends.

(** * Binary64 on integers *)

Section Binary64Exact.
Local Open Scope Z_scope.

Lemma binary_round_aux_canonical (s : bool) (m : positive) (e : Z) :
  bounded prec emax m e = true ->
  binary_round_aux prec emax s (Zpos m) e loc_Exact = S754_finite s m e.
Proof.
  intros Hb. unfold binary_round_aux.
  rewrite (shr_fexp_canonical m e Hb).
  cbn [shr_m loc_of_shr_record round_nearest_even].
  rewrite (shr_fexp_canonical m e Hb). cbn [shr_m].
  unfold bounded in Hb. apply andb_true_iff in Hb. destruct Hb as [_ Hle].
  now rewrite Hle.
Qed.

Lemma binary_round_aux_shifted (s : bool) (m k : positive) (e : Z) :
  bounded prec emax m e = true ->
  binary_round_aux prec emax s (Zpos (Pos.iter xO m k)) (e - Zpos k) loc_Exact
  = S754_finite s m e.
Proof.
  intros Hb. unfold binary_round_aux.
  rewrite (shr_fexp_shifted m k e Hb).
  cbn [shr_m loc_of_shr_record round_nearest_even].
  rewrite (shr_fexp_canonical m e Hb). cbn [shr_m].
  unfold bounded in Hb. apply andb_true_iff in Hb. destruct Hb as [_ Hle].
  now rewrite Hle.
Qed.

(** A number that binary64 has is rounded to itself. *)
Lemma binary_round_exact (s : bool) (q m : positive) (e e' : Z) :
  bounded prec emax m e' = true ->
  Zpos q * 2 ^ (e + 1074) = Zpos m * 2 ^ (e' + 1074) ->
  -1074 <= e ->
  binary_round prec emax s q e = S754_finite s m e'.
Proof.
  intros Hb Hv He.
  pose proof (bounded_inv _ _ Hb) as (Hf & He' & _).
  unfold binary_round.
  destruct (Z.compare_spec e e') as [Heq | Hlt | Hgt].
  - subst e'. apply Z.mul_cancel_r in Hv;
      [| apply Z.pow_nonzero; lia].
    injection Hv as ->. rewrite Hf. unfold shl_align. rewrite Z.sub_diag.
    now apply binary_round_aux_canonical.
  - destruct (e' - e) as [| k | k] eqn:Hk; try lia.
    assert (Hq : q = Pos.iter xO m k).
    { assert (H : Zpos q = Zpos (Pos.iter xO m k)); [| now injection H].
      rewrite iter_xO.
      replace (e' + 1074) with (Zpos k + (e + 1074)) in Hv by lia.
      rewrite (Z.pow_add_r 2 (Zpos k) (e + 1074)), Z.mul_assoc in Hv by lia.
      apply Z.mul_cancel_r in Hv; [exact Hv | apply Z.pow_nonzero; lia]. }
    subst q. rewrite digits_iter_xO.
    replace (Zpos (digits2_pos m) + Zpos k + e)
      with (Zpos (digits2_pos m) + e') by lia.
    rewrite Hf. unfold shl_align. rewrite Hk.
    replace e with (e' - Zpos k) by lia.
    now apply binary_round_aux_shifted.
  - destruct (e - e') as [| k | k] eqn:Hk; try lia.
    assert (Hm : m = Pos.iter xO q k).
    { assert (H : Zpos m = Zpos (Pos.iter xO q k)); [| now injection H].
      rewrite iter_xO.
      replace (e + 1074) with (Zpos k + (e' + 1074)) in Hv by lia.
      rewrite (Z.pow_add_r 2 (Zpos k) (e' + 1074)), Z.mul_assoc in Hv by lia.
      apply Z.mul_cancel_r in Hv; [now symmetry | apply Z.pow_nonzero; lia]. }
    assert (Hd : Zpos (digits2_pos q) + e = Zpos (digits2_pos m) + e').
    { rewrite Hm, digits_iter_xO. lia. }
    rewrite Hd, Hf. unfold shl_align.
    replace (e' - e) with (Zneg k) by lia.
    rewrite <- Hm. now apply binary_round_aux_canonical.
Qed.

End Binary64Exact.

(** ** Integers below [2^53] *)

Section Binary64Integers.
Local Open Scope Z_scope.

(** An integer below [2^53] is a binary64. *)
Lemma canonical_of_pos (p : positive) :
  Zpos p < 2 ^ 53 ->
  exists m e,
    bounded prec emax m e = true
    /\ Zpos m * 2 ^ (e + 1074) = Zpos p * 2 ^ 1074.
Proof.
  intros Hp. destruct (digits_bounds p) as [Hlo _].
  assert (Hd : Zpos (digits2_pos p) <= 53).
  { destruct (Z.le_gt_cases (Zpos (digits2_pos p)) 53) as [H | H];
      [exact H | exfalso].
    assert (2 ^ 54 <= 2 ^ Zpos (digits2_pos p))
      by (apply Z.pow_le_mono_r; lia).
    change (2 ^ 54) with (2 * 2 ^ 53) in *. lia. }
  destruct (53 - Zpos (digits2_pos p)) as [| k | k] eqn:Hk; try lia.
  - exists p, 0. split; [| reflexivity].
    unfold bounded, canonical_mantissa, fexp, emin, prec, emax.
    replace (Zpos (digits2_pos p)) with 53 by lia. reflexivity.
  - exists (Pos.iter xO p k), (- Zpos k). split.
    + unfold bounded, canonical_mantissa, fexp, emin, prec, emax.
      rewrite digits_iter_xO. apply andb_true_iff. split.
      * apply Z.eqb_eq. lia.
      * apply Z.leb_le. lia.
    + rewrite iter_xO.
      replace 1074 with (Zpos k + (- Zpos k + 1074)) at 2 by lia.
      rewrite (Z.pow_add_r 2 (Zpos k)) by lia. ring.
Qed.

Lemma isInteger_finite (x : float) (k : Z) :
  isInteger x k ->
  isFinite x = true /\ unitsOf x = k * 2 ^ 1074 /\ 0 < k.
Proof.
  intros (m & e & Hx & Hv). unfold isFinite, unitsOf. rewrite Hx.
  cbn [SFfinite units cond_Zopp]. split; [reflexivity | split; [exact Hv |]].
  pose proof (Prim2SF_valid x) as Hb. rewrite Hx in Hb. cbn in Hb.
  apply bounded_inv in Hb. cbv zeta in Hb.
  assert (0 < Zpos m * 2 ^ (e + 1074))
    by (apply Z.mul_pos_pos; [lia | apply Z.pow_pos_nonneg; lia]).
  assert (0 < 2 ^ 1074) by (apply Z.pow_pos_nonneg; lia).
  nia.
Qed.

Lemma isInteger_unique (x y : float) (k : Z) :
  isInteger x k -> isInteger y k -> x = y.
Proof.
  intros (m1 & e1 & Hx & Hv1) (m2 & e2 & Hy & Hv2).
  pose proof (Prim2SF_valid x) as Hb1. rewrite Hx in Hb1. cbn in Hb1.
  pose proof (Prim2SF_valid y) as Hb2. rewrite Hy in Hb2. cbn in Hb2.
  pose proof (magnitude_compare m1 m2 e1 e2 Hb1 Hb2) as Hc.
  rewrite Hv1, Hv2, Z.compare_refl in Hc.
  apply Prim2SF_inj. rewrite Hx, Hy.
  destruct (Z.compare_spec e1 e2) as [-> | H | H]; try discriminate.
  symmetry in Hc. apply Pos.compare_eq in Hc. now subst.
Qed.

(** The conversion of an integer below [2^53] is that integer. *)
Lemma of_Z_integer (p : positive) :
  Zpos p < 2 ^ 53 -> isInteger (Binary64.of_Z (Zpos p)) (Zpos p).
Proof.
  intros Hp. destruct (canonical_of_pos p Hp) as (m & e & Hb & Hv).
  exists m, e. split; [| exact Hv].
  unfold Binary64.of_Z. rewrite FloatAxioms.of_uint63_spec.
  rewrite Uint63.of_Z_spec.
  rewrite Z.mod_small
    by (split; [lia |]; apply Z.lt_trans with (2 ^ 53); [exact Hp | now compute]).
  cbn [binary_normalize].
  apply binary_round_exact; [exact Hb | | lia].
  now rewrite Z.add_0_l.
Qed.

End Binary64Integers.

(** ** The quotient by one *)

Section Binary64Quotient.
Local Open Scope Z_scope.

Lemma div_eucl_exact (a b : Z) :
  0 < b -> Z.div_eucl (a * b) b = (a, 0).
Proof.
  intros Hb.
  rewrite (surjective_pairing (Z.div_eucl (a * b) b)).
  change (fst (Z.div_eucl (a * b) b)) with (a * b / b).
  change (snd (Z.div_eucl (a * b) b)) with ((a * b) mod b).
  rewrite Z.div_mul, Z.mod_mul by lia. reflexivity.
Qed.

(** A normal number divided by one is that number. *)
Lemma SFdiv_one (s : bool) (m : positive) (e : Z) :
  bounded prec emax m e = true ->
  Zpos (digits2_pos m) = 53 -> -1073 <= e ->
  SFdiv prec emax (S754_finite s m e) (S754_finite false 4503599627370496 (-52))
  = S754_finite s m e.
Proof.
  intros Hb Hd He. cbn [SFdiv]. unfold SFdiv_core_binary.
  cbn [Zdigits2]. rewrite Hd.
  change (Zpos (digits2_pos 4503599627370496)) with 53.
  replace (fexp prec emax (53 + e - (53 + -52))) with (e - 1)
    by (unfold fexp, emin, prec, emax; lia).
  replace (Z.min (e - 1) (e - -52)) with (e - 1) by lia.
  replace (e - -52 - (e - 1)) with 53 by lia. cbv zeta.
  rewrite Z.shiftl_mul_pow2 by lia.
  replace (Zpos m * 2 ^ 53) with (Zpos m~0 * 4503599627370496)
    by (change (2 ^ 53) with (2 * 4503599627370496); lia).
  rewrite div_eucl_exact by lia.
  change (new_location 4503599627370496 0) with loc_Exact.
  rewrite xorb_false_r.
  exact (binary_round_aux_shifted s m 1 e Hb).
Qed.

End Binary64Quotient.

(** ** Counting: [n], [n - 1], its floor, ceiling and fractional part *)

Section Binary64Counting.
Local Open Scope Z_scope.

Lemma integer_mantissa (m : positive) (e k : Z) :
  bounded prec emax m e = true ->
  Zpos m * 2 ^ (e + 1074) = k * 2 ^ 1074 -> k < 2 ^ 53 ->
  -1074 < e <= 0 /\ Zpos m = k * 2 ^ (- e)
  /\ Zpos (digits2_pos m) = 53.
Proof.
  intros Hb Hv Hk.
  pose proof (mantissa_bounds _ _ Hb) as [Hm Hn].
  apply bounded_inv in Hb. cbv zeta in Hb. destruct Hb as (_ & He & _ & Hd).
  assert (Hu : 0 < 2 ^ (e + 1074)) by (apply Z.pow_pos_nonneg; lia).
  assert (He0 : e <= 0).
  { destruct (Z.le_gt_cases e 0) as [H | H]; [exact H | exfalso].
    replace (e + 1074) with (e + 1074 - 1074 + 1074) in Hv by lia.
    rewrite (Z.pow_add_r 2 (e + 1074 - 1074) 1074), Z.mul_assoc in Hv by lia.
    apply Z.mul_cancel_r in Hv; [| apply Z.pow_nonzero; lia].
    assert (2 ^ 1 <= 2 ^ (e + 1074 - 1074)) by (apply Z.pow_le_mono_r; lia).
    change (2 ^ 1) with 2 in *. change (2 ^ 53) with (2 * 2 ^ 52) in *.
    specialize (Hn ltac:(lia)). nia. }
  assert (Hmk : Zpos m = k * 2 ^ (- e)).
  { replace 1074 with (- e + (e + 1074)) in Hv at 2 by lia.
    rewrite (Z.pow_add_r 2 (- e) (e + 1074)), Z.mul_assoc in Hv by lia.
    apply Z.mul_cancel_r in Hv; [exact Hv | lia]. }
  assert (He1 : -1074 < e).
  { destruct (Z.eq_dec e (-1074)) as [-> | Hne]; [exfalso | lia].
    change (- -1074) with 1074 in Hmk.
    assert (2 ^ 53 <= 2 ^ 1074) by (apply Z.pow_le_mono_r; lia).
    assert (0 < k) by nia. nia. }
  split; [lia | split; [exact Hmk | lia]].
Qed.

(** [int k] is the integer [k], below [2^53]. *)
Lemma int_integer (p : positive) :
  Zpos p < 2 ^ 53 -> isInteger (int (Zpos p)) (Zpos p).
Proof.
  intros Hp. destruct (of_Z_integer p Hp) as (m & e & Hx & Hv).
  pose proof (Prim2SF_valid (Binary64.of_Z (Zpos p))) as Hb.
  rewrite Hx in Hb. cbn in Hb.
  destruct (integer_mantissa m e (Zpos p) Hb Hv Hp) as (He & _ & Hd).
  exists m, e. split; [| exact Hv].
  change (int (Zpos p))
    with (PrimFloat.div (Binary64.of_Z (Zpos p)) (Binary64.of_Z 1)).
  rewrite FloatAxioms.div_spec, Hx.
  change (Prim2SF (Binary64.of_Z 1))
    with (S754_finite false 4503599627370496 (-52)).
  apply SFdiv_one; [exact Hb | exact Hd | lia].
Qed.

Lemma sub_integer (x y : float) (a b : Z) :
  isInteger x a -> isInteger y b -> b < a < 2 ^ 53 ->
  isInteger (PrimFloat.sub x y) (a - b).
Proof.
  intros (mx & ex & Hx & Hvx) (my & ey & Hy & Hvy) Hab.
  pose proof (Prim2SF_valid x) as Hbx. rewrite Hx in Hbx. cbn in Hbx.
  pose proof (Prim2SF_valid y) as Hby. rewrite Hy in Hby. cbn in Hby.
  pose proof (bounded_inv _ _ Hbx) as (_ & Hex & _).
  pose proof (bounded_inv _ _ Hby) as (_ & Hey & _).
  destruct (a - b) as [| p | p] eqn:Hp; try lia.
  destruct (canonical_of_pos p ltac:(lia)) as (m & e & Hb & Hv).
  exists m, e. split; [| exact Hv].
  rewrite FloatAxioms.sub_spec, Hx, Hy. unfold SF64sub. cbn [SFsub].
  cbv zeta. set (ez := Z.min ex ey).
  assert (Hez : -1074 <= ez) by (subst ez; lia).
  pose proof (aligned_units false mx ex ez ltac:(subst ez; lia)) as Hux.
  pose proof (aligned_units false my ey ez ltac:(subst ez; lia)) as Huy.
  cbn [units cond_Zopp] in Hux, Huy. cbn [cond_Zopp].
  set (X := Zpos (fst (shl_align mx ex ez))) in *.
  set (Y := Zpos (fst (shl_align my ey ez))) in *.
  assert (Hu : 0 < 2 ^ (ez + 1074)) by (apply Z.pow_pos_nonneg; lia).
  assert (Hdiff : (X - Y) * 2 ^ (ez + 1074) = Zpos p * 2 ^ 1074)
    by (rewrite <- Hp; lia).
  assert (H0 : 0 < 2 ^ 1074) by (apply Z.pow_pos_nonneg; lia).
  destruct (X - Y) as [| q | q] eqn:Hq; try nia.
  cbn [binary_normalize].
  apply binary_round_exact; [exact Hb | lia | exact Hez].
Qed.

(** A finite number less itself is [+0]. *)
Lemma sub_same (x : float) :
  isFinite x = true -> PrimFloat.sub x x = PrimFloat.zero.
Proof.
  intros Hx. apply Prim2SF_inj. rewrite FloatAxioms.sub_spec.
  change (Prim2SF PrimFloat.zero) with (S754_zero false).
  unfold isFinite in Hx. unfold SF64sub.
  destruct (Prim2SF x) as [s | s | | s m e]; try discriminate.
  - now destruct s.
  - cbn [SFsub]. cbv zeta. now rewrite Z.sub_diag.
Qed.

Lemma SFmul_comm (x y : spec_float) :
  SFmul prec emax x y = SFmul prec emax y x.
Proof.
  destruct x as [sx | sx | | sx mx ex], y as [sy | sy | | sy my ey];
    cbn [SFmul]; try reflexivity; try (now rewrite xorb_comm).
  now rewrite xorb_comm, Pos.mul_comm, Z.add_comm.
Qed.

Lemma one_mul (x : float) :
  isFinite x = true -> PrimFloat.mul PrimFloat.one x = x.
Proof.
  intros Hx. apply Prim2SF_inj. rewrite FloatAxioms.mul_spec.
  unfold SF64mul. rewrite SFmul_comm.
  change (Prim2SF PrimFloat.one)
    with (S754_finite false 4503599627370496 (-52)).
  exact (SFmul_one _ (Prim2SF_valid x) Hx).
Qed.

Lemma zero_mul_integer (x : float) (k : Z) :
  isInteger x k -> PrimFloat.mul PrimFloat.zero x = PrimFloat.zero.
Proof.
  intros (m & e & Hx & _). apply Prim2SF_inj.
  rewrite FloatAxioms.mul_spec, Hx. reflexivity.
Qed.

Lemma floor_integer (x : float) (k : Z) :
  isInteger x k -> k < 2 ^ 53 -> Binary64.floor x = x.
Proof.
  intros Hint Hk. pose proof Hint as (m & e & Hx & Hv).
  pose proof (Prim2SF_valid x) as Hb. rewrite Hx in Hb. cbn in Hb.
  destruct (integer_mantissa m e k Hb Hv Hk) as (He & Hm & _).
  destruct (isInteger_finite x k Hint) as (_ & _ & Hpos).
  unfold Binary64.floor. rewrite Hx.
  destruct (0 <=? e); [reflexivity |].
  rewrite Z.shiftr_div_pow2, Hm, Z.div_mul by (try apply Z.pow_nonzero; lia).
  destruct k as [| p | p]; try lia.
  exact (isInteger_unique _ _ _ (of_Z_integer p Hk) Hint).
Qed.

Lemma opp_opp (x : float) : PrimFloat.opp (PrimFloat.opp x) = x.
Proof.
  apply Prim2SF_inj. rewrite !FloatAxioms.opp_spec.
  destruct (Prim2SF x) as [s | s | | s m e]; cbn [SFopp];
    now rewrite ?negb_involutive.
Qed.

Lemma ceil_integer (x : float) (k : Z) :
  isInteger x k -> k < 2 ^ 53 -> Binary64.ceil x = x.
Proof.
  intros Hint Hk. pose proof Hint as (m & e & Hx & Hv).
  pose proof (Prim2SF_valid x) as Hb. rewrite Hx in Hb. cbn in Hb.
  destruct (integer_mantissa m e k Hb Hv Hk) as (He & Hm & _).
  destruct (isInteger_finite x k Hint) as (_ & _ & Hpos).
  unfold Binary64.ceil.
  assert (Hfloor : Binary64.floor (PrimFloat.opp x) = PrimFloat.opp x).
  { unfold Binary64.floor. rewrite FloatAxioms.opp_spec, Hx. cbn [SFopp negb].
    destruct (0 <=? e); [reflexivity |].
    rewrite Z.shiftr_div_pow2, Hm, Z.div_mul by (try apply Z.pow_nonzero; lia).
    rewrite Z.shiftl_mul_pow2, Z.eqb_refl by lia.
    destruct k as [| p | p]; try lia.
    now rewrite (isInteger_unique _ _ _ (of_Z_integer p Hk) Hint). }
  rewrite Hfloor. apply opp_opp.
Qed.

Lemma get_sign_integer (x : float) (k : Z) :
  isInteger x k -> PrimFloat.get_sign x = false.
Proof.
  intros (m & e & Hx & _). unfold PrimFloat.get_sign, PrimFloat.is_zero.
  rewrite FloatAxioms.eqb_spec, Hx.
  change (Prim2SF PrimFloat.zero) with (S754_zero false).
  cbn [SFeqb SFcompare]. rewrite FloatAxioms.ltb_spec, Hx. reflexivity.
Qed.

Lemma frac_integer (x : float) (k : Z) :
  isInteger x k -> k < 2 ^ 53 -> Binary64.frac x = PrimFloat.zero.
Proof.
  intros Hint Hk. unfold Binary64.frac.
  rewrite (ceil_integer x k Hint Hk), (floor_integer x k Hint Hk).
  destruct (isInteger_finite x k Hint) as (Hfin & _).
  replace (if PrimFloat.ltb x PrimFloat.zero then x else x) with x
    by (now destruct (PrimFloat.ltb x PrimFloat.zero)).
  rewrite (sub_same x Hfin), (get_sign_integer x k Hint).
  reflexivity.
Qed.

Lemma indexZ_integer (x : float) (k : Z) :
  isInteger x k -> k < 2 ^ 53 -> indexZ x = Some k.
Proof.
  intros Hint Hk. pose proof Hint as (m & e & Hx & Hv).
  pose proof (Prim2SF_valid x) as Hb. rewrite Hx in Hb. cbn in Hb.
  destruct (integer_mantissa m e k Hb Hv Hk) as (He & Hm & _).
  destruct (isInteger_finite x k Hint) as (Hfin & _).
  unfold indexZ. rewrite Hx, (floor_integer x k Hint Hk).
  rewrite (eqb_units x x Hfin Hfin), Z.eqb_refl. f_equal.
  replace e with (- - e) by lia. change (Z.shiftl (Zpos m) (- - e))
    with (Z.shiftr (Zpos m) (- e)).
  rewrite Z.shiftr_div_pow2, Hm, Z.div_mul by (try apply Z.pow_nonzero; lia).
  reflexivity.
Qed.

End Binary64Counting.

(** ** Where the percentiles 0 and 100 are read *)

Section Binary64Located.
Local Open Scope Z_scope.

Lemma one_integer : isInteger (int 1) 1.
Proof.
  exists 4503599627370496%positive, (-52). split; vm_compute; reflexivity.
Qed.

(** The percentile 100 of [n] numbers is read at the index [n - 1]. *)
Lemma locate_last (p : positive) :
  1 < Zpos p < 2 ^ 53 ->
  isIndex (locate (int (Zpos p)) (int 100)) (Zpos p - 1) = true.
Proof.
  intros Hp.
  pose proof (int_integer p ltac:(lia)) as HL.
  remember (int (Zpos p)) as L eqn:EL. clear EL.
  pose proof (sub_integer L (int 1) _ _ HL one_integer ltac:(lia)) as Hy.
  destruct (isInteger_finite _ _ HL) as (HfL & HuL & _).
  destruct (isInteger_finite _ _ Hy) as (Hfy & Huy & _).
  assert (H0 : 0 < 2 ^ 1074) by (apply Z.pow_pos_nonneg; lia).
  unfold locate. cbv zeta.
  cbn [ndiv nmul nsub Math_floor Math_ceil rem1 binary64].
  replace (PrimFloat.div (int 100) (int 100)) with PrimFloat.one
    by (vm_compute; reflexivity).
  remember (PrimFloat.sub L (int 1)) as y eqn:Ey. clear Ey.
  rewrite (one_mul y Hfy).
  rewrite (ceil_integer y _ Hy), (floor_integer y _ Hy),
    (frac_integer y _ Hy) by lia.
  unfold ngeb. cbn [nltb neqb binary64].
  rewrite (ltb_units L y HfL Hfy), (eqb_units y L Hfy HfL).
  replace (unitsOf L <? unitsOf y) with false
    by (symmetry; apply Z.ltb_ge; nia).
  replace (unitsOf y =? unitsOf L) with false
    by (symmetry; apply Z.eqb_neq; nia).
  cbn [orb].
  replace (int 0) with PrimFloat.zero by (vm_compute; reflexivity).
  assert (Hzero : isFinite PrimFloat.zero = true) by reflexivity.
  rewrite (ltb_units y PrimFloat.zero Hfy Hzero).
  replace (unitsOf y <? unitsOf PrimFloat.zero) with false
    by (symmetry; apply Z.ltb_ge; change (unitsOf PrimFloat.zero) with 0; nia).
  cbn [isIndex]. rewrite (indexZ_integer y _ Hy) by lia.
  change (Prim2SF PrimFloat.zero) with (S754_zero false).
  now rewrite Z.eqb_refl.
Qed.

(** The percentile 0 is read at the index 0. *)
Lemma locate_first (p : positive) :
  1 < Zpos p < 2 ^ 53 ->
  isIndex (locate (int (Zpos p)) (int 0)) 0 = true.
Proof.
  intros Hp.
  pose proof (int_integer p ltac:(lia)) as HL.
  remember (int (Zpos p)) as L eqn:EL. clear EL.
  pose proof (sub_integer L (int 1) _ _ HL one_integer ltac:(lia)) as Hy.
  destruct (isInteger_finite _ _ HL) as (HfL & HuL & _).
  assert (H0 : 0 < 2 ^ 1074) by (apply Z.pow_pos_nonneg; lia).
  unfold locate. cbv zeta.
  cbn [ndiv nmul nsub Math_floor Math_ceil rem1 binary64].
  replace (PrimFloat.div (int 0) (int 100)) with PrimFloat.zero
    by (vm_compute; reflexivity).
  rewrite (zero_mul_integer _ _ Hy).
  replace (Binary64.ceil PrimFloat.zero) with PrimFloat.zero
    by (vm_compute; reflexivity).
  replace (Binary64.floor PrimFloat.zero) with PrimFloat.zero
    by (vm_compute; reflexivity).
  replace (Binary64.frac PrimFloat.zero) with PrimFloat.zero
    by (vm_compute; reflexivity).
  unfold ngeb. cbn [nltb neqb binary64].
  assert (Hzero : isFinite PrimFloat.zero = true) by reflexivity.
  rewrite (ltb_units L PrimFloat.zero HfL Hzero),
    (eqb_units PrimFloat.zero L Hzero HfL).
  change (unitsOf PrimFloat.zero) with 0.
  replace (unitsOf L <? 0) with false by (symmetry; apply Z.ltb_ge; nia).
  replace (0 =? unitsOf L) with false by (symmetry; apply Z.eqb_neq; nia).
  cbn [orb].
  replace (PrimFloat.ltb PrimFloat.zero (int 0)) with false
    by (vm_compute; reflexivity).
  reflexivity.
Qed.

(** So it is for every count of numbers below [2^53]. *)
Lemma endsAt_counts (n : Z) : 1 <= n < 2 ^ 53 -> endsAt n = true.
Proof.
  intros Hn. destruct (Z.eq_dec n 1) as [-> | Hne]; [vm_compute; reflexivity |].
  destruct n as [| p | p]; try lia.
  unfold endsAt. rewrite locate_first, locate_last by lia. reflexivity.
Qed.

End Binary64Located.

(** ** The percentiles at the ends, in binary64 *)

Section Binary64Percentiles.
Import PerformanceAnalyzer.
Local Open Scope Z_scope.

(** In binary64, of fewer than [2^53] finite numbers, the percentile 0 of
    the sorted array is [Math.min] and the percentile 100 is [Math.max]. *)
Lemma percentile_ends_finite (v : float) (vs : list float) :
  forallb isFinite (v :: vs) = true ->
  Z.of_nat (List.length (v :: vs)) < 2 ^ 53 ->
  PrimFloat.eqb (calculatePercentile (sort (v :: vs)) (int 0))
    (Math_min (v :: vs)) = true
  /\ PrimFloat.eqb (calculatePercentile (sort (v :: vs)) (int 100))
       (Math_max (v :: vs)) = true.
Proof.
  intros Hfin Hlen. rewrite forallb_forall in Hfin.
  apply Forall_forall in Hfin.
  pose proof (Permutation_length (sort_permutation (v :: vs))) as Hsame.
  destruct (sorted_ends_finite v vs Hfin) as (_ & _ & Hmin & Hmax).
  cbv zeta in Hmin, Hmax.
  destruct (percentile_ends (sort (v :: vs))) as [H0 H100].
  - apply endsAt_counts. rewrite Hsame. cbn [List.length] in *. lia.
  - rewrite Hsame. cbn [List.length]. lia.
  - now apply sort_finite.
  - rewrite H0, H100. now split.
Qed.

End Binary64Percentiles.

(** C6 as amended.  In every arithmetic the median of the summary is the
    50th percentile of the sorted array, its minimum is [Math.min] and its
    maximum [Math.max] of the array, each rounded to two decimals.  In
    binary64, for every non-empty array [V] of finite numbers, the
    percentile at 0 of the sorted array is [Math.min] of [V] and the
    percentile at 100 is [Math.max] of [V]; the array may hold any count of
    numbers below [2^53], and an array of JavaScript holds fewer than
    [2^32].  So it is in exact arithmetic, where in addition the summary has
    [min <= mean <= max], and in binary64 for the array 3, 1, 2, 10, 4.
    The numbers must be finite: of [-Infinity] and 1 the minimum is
    [-Infinity] and the percentile at 0 is NaN, the product of [-Infinity]
    and the weight 0; and the minimum of an array that holds NaN is NaN,
    which equals nothing. *)
Theorem percentiles_at_the_ends_of_finite_arrays :
  (forall (A : Type) (N : JSNumber A) (v : A) (vs : list A),
      exists s,
        PerformanceAnalyzer.calculateStatistics (v :: vs) = Ok s
        /\ median s
           = PerformanceAnalyzer.round2
               (PerformanceAnalyzer.calculatePercentile
                  (PerformanceAnalyzer.sort (v :: vs)) (int 50))
        /\ min s = PerformanceAnalyzer.round2 (Math_min (v :: vs))
        /\ max s = PerformanceAnalyzer.round2 (Math_max (v :: vs)))
  /\ (forall (v : float) (vs : list float),
        let V := v :: vs in
        forallb isFinite V = true ->
        (Z.of_nat (List.length V) < 2 ^ 53)%Z ->
        (PerformanceAnalyzer.calculatePercentile
           (PerformanceAnalyzer.sort V) (int 0) === Math_min V)%js = true
        /\ (PerformanceAnalyzer.calculatePercentile
              (PerformanceAnalyzer.sort V) (int 100) === Math_max V)%js = true)
  /\ (forall (sqrtQ : Q -> Q) (q : Q) (qs : list Q),
        let N := rationals sqrtQ in
        let V := map Exact.Fin (q :: qs) in
        neqb (PerformanceAnalyzer.calculatePercentile
                (PerformanceAnalyzer.sort V) (int 0)) (Math_min V) = true
        /\ neqb (PerformanceAnalyzer.calculatePercentile
                   (PerformanceAnalyzer.sort V) (int 100)) (Math_max V) = true
        /\ exists s,
             PerformanceAnalyzer.calculateStatistics V = Ok s
             /\ nleb (min s) (mean s) = true
             /\ nleb (mean s) (max s) = true)
  /\ (let V : list float := [int 3; int 1; int 2; int 10; int 4] in
      PerformanceAnalyzer.sort V = [int 1; int 2; int 3; int 4; int 10]
      /\ PerformanceAnalyzer.calculatePercentile (PerformanceAnalyzer.sort V)
           (int 0) = int 1
      /\ Math_min V = int 1
      /\ PerformanceAnalyzer.calculatePercentile (PerformanceAnalyzer.sort V)
           (int 100) = int 10
      /\ Math_max V = int 10
      /\ exists s,
           PerformanceAnalyzer.calculateStatistics V = Ok s
           /\ min s = int 1 /\ mean s = int 4 /\ median s = int 3
           /\ max s = int 10)
  /\ (let V : list float := [(int 0 - Infinity)%js; int 1] in
      forallb isFinite V = false
      /\ PerformanceAnalyzer.sort V = V
      /\ Math_min V = (int 0 - Infinity)%js
      /\ isNaN (PerformanceAnalyzer.calculatePercentile
                  (PerformanceAnalyzer.sort V) (int 0)) = true)
  /\ (let V : list float := [NaN] in
      isNaN (Math_min V) = true
      /\ (PerformanceAnalyzer.calculatePercentile
            (PerformanceAnalyzer.sort V) (int 0) === Math_min V)%js = false).
Proof.
  split; [| split; [| split; [| split; [| split]]]].
  - intros A N v vs.
    destruct (calculateStatistics_cons v vs)
      as (s & Hs & _ & Hmedian & Hmin & Hmax).
    exists s. now repeat split.
  - intros v vs V Hfin Hlen. exact (percentile_ends_finite v vs Hfin Hlen).
  - intros sqrtQ q qs N V. subst N V.
    split; [apply percentile_0_is_min | split; [apply percentile_100_is_max |]].
    destruct (summary_mean_between sqrtQ q qs) as (s & Hs & _ & Hlo & Hhi).
    exists s. now repeat split.
  - cbv zeta. repeat split; try (vm_compute; reflexivity).
    eexists. repeat split; vm_compute; reflexivity.
  - cbv zeta. repeat split; vm_compute; reflexivity.
  - cbv zeta. split; vm_compute; reflexivity.
Qed.

(** C6, the claim as it stands, fails in binary64: of three runs that each
    measured 0.175 the summary has minimum and maximum 0.18 and mean 0.17.
    The sum of the three is 0.5249999999999999, a third of it
    0.17499999999999996, which rounds down, while 0.175 * 100 is 17.5, which
    rounds up. *)
Lemma mean_below_min_in_binary64 :
  let v : float := lit (175 # 1000) in
  exists s,
    PerformanceAnalyzer.calculateStatistics [v; v; v] = Ok s
    /\ min s = lit (18 # 100)
    /\ max s = lit (18 # 100)
    /\ mean s = lit (17 # 100)
    /\ nleb (min s) (mean s) = false.
Proof.
  cbv zeta. eexists. split; [vm_compute; reflexivity |].
  repeat split; vm_compute; reflexivity.
Qed.

(** C1 (the code departs from it).  Two identical populations of one run
    whose CLS is 0.001: every improvement is zero, and eight metrics tie,
    but the CLS comparison names the candidate the winner.  The mean 0.001
    rounds to 0.00, [determineWinner 0 0] divides 0 by 0, and NaN is not
    below the 5% threshold.  Binary64 and exact arithmetic agree.  Over the
    rationals this is the only way the claim fails: for identical
    populations of finite values every improvement is zero, and a
    comparison is a tie unless its mean rounds to zero. *)
Theorem identical_populations_cls_not_tie :
  let expected :=
    [("lcp", Tie); ("fid", Tie); ("inp", Tie); ("cls", App2); ("ttfb", Tie);
     ("fcp", Tie); ("tti", Tie); ("totalPageLoadTime", Tie);
     ("domContentLoaded", Tie)]%string in
  winners (PerformanceAnalyzer.compareApplications (A := float)
             [stablePage] [stablePage] "login") = expected
  /\ forallb (fun p => PrimFloat.eqb (snd p) PrimFloat.zero)
       (improvements (PerformanceAnalyzer.compareApplications (A := float)
                        [stablePage] [stablePage] "login")) = true
  /\ (forall sqrtQ : Q -> Q,
        winners (PerformanceAnalyzer.compareApplications (N := rationals sqrtQ)
                   [stablePage (N := rationals sqrtQ)]
                   [stablePage (N := rationals sqrtQ)] "login") = expected)
  /\ PerformanceAnalyzer.determineWinner (A := float)
       PrimFloat.zero PrimFloat.zero "cls" = App2
  /\ PerformanceAnalyzer.calculateImprovement (A := float)
       PrimFloat.zero PrimFloat.zero = PrimFloat.zero
  /\ (forall (sqrtQ : Q -> Q) (X : list (MetricsResult Exact.xnum))
             (scenarioName : string),
        let N := rationals sqrtQ in
        (forall r m, In r X -> In m PerformanceAnalyzer.metrics ->
                     exists q, PerformanceAnalyzer.metricValue m r = Exact.Fin q) ->
        exists comparisons,
          PerformanceAnalyzer.compareApplications X X scenarioName
          = Ok comparisons
          /\ forall c, In c comparisons ->
               neqb (improvement c) (int 0) = true
               /\ (winner c = Tie <-> neqb (mean (app1 c)) (int 0) = false)
               /\ (winner c <> Tie -> winner c = App2)).
Proof.
  cbv zeta. split; [vm_compute; reflexivity |].
  split; [vm_compute; reflexivity |].
  split; [intros sqrtQ; vm_compute; reflexivity |].
  split; [vm_compute; reflexivity |].
  split; [vm_compute; reflexivity |].
  intros sqrtQ X scenarioName Hfin.
  exact (identical_populations_rational sqrtQ X scenarioName Hfin).
Qed.

(** C10.  On the empty list [calculatePerformanceScore] returns the rounding
    of [0 / 0], which is NaN in binary64 and over the rationals; it has no
    [throw] on any input, unlike [calculateStatistics], which throws on the
    empty array. *)
Theorem calculatePerformanceScore_empty_is_NaN :
  (forall (A : Type) (N : JSNumber A),
      PerformanceAnalyzer.calculatePerformanceScore (A := A) []
      = (Math_round ((int 0 / int 0) * int 100) / int 100)%js)
  /\ PrimFloat.is_nan
       (PerformanceAnalyzer.calculatePerformanceScore (A := float) []) = true
  /\ (forall sqrtQ : Q -> Q,
        PerformanceAnalyzer.calculatePerformanceScore (N := rationals sqrtQ) []
        = Exact.Nan)
  /\ PerformanceAnalyzer.calculateStatistics (A := float) []
     = Throw (Error "Cannot calculate statistics for empty array").
Proof.
  split; [intros A N; reflexivity |].
  split; [vm_compute; reflexivity |].
  split; [intros sqrtQ; reflexivity | reflexivity].
Qed.
(** * Strings, placeholders and test data *)

Section StringFacts.
Local Open Scope string_scope.

Lemma append_nil_r (s : string) : s ++ "" = s.
Proof. induction s as [| c s IH]; cbn; [reflexivity | now rewrite IH]. Qed.

Lemma append_assoc (a b c : string) : (a ++ b) ++ c = a ++ (b ++ c).
Proof. induction a as [| x a IH]; cbn; [reflexivity | now rewrite IH]. Qed.

Lemma prefix_append (a b : string) : String.prefix a (a ++ b) = true.
Proof.
  induction a as [| c a IH]; cbn; [now destruct b |].
  destruct (ascii_dec c c) as [_ | Hc]; [exact IH | now destruct Hc].
Qed.

Lemma prefix_of_longer (a b s : string) :
  String.prefix (a ++ b) s = true -> String.prefix a s = true.
Proof.
  revert s. induction a as [| c a IH]; intros s.
  - now destruct s.
  - destruct s as [| c' s]; cbn; [discriminate |].
    destruct (ascii_dec c c'); [apply IH | discriminate].
Qed.

Lemma prefix_other (c c' : ascii) (a s : string) :
  Ascii.eqb c' c = false -> String.prefix (String c a) (String c' s) = false.
Proof.
  intros H.
  change (String.prefix (String c a) (String c' s))
    with (if ascii_dec c c' then String.prefix a s else false).
  destruct (ascii_dec c c') as [-> | _]; [| reflexivity].
  now rewrite Ascii.eqb_refl in H.
Qed.

Lemma includes_prefix (sub s : string) :
  String.prefix sub s = true -> Str.includes sub s = true.
Proof. intros H. destruct s; cbn [Str.includes]; now rewrite H. Qed.

Lemma includes_append (sub before after : string) :
  Str.includes sub (before ++ sub ++ after) = true.
Proof.
  induction before as [| c before IH]; cbn [append].
  - apply includes_prefix, prefix_append.
  - cbn [Str.includes]. rewrite IH. apply orb_true_r.
Qed.

Lemma includes_of_longer (a b s : string) :
  Str.includes (a ++ b) s = true -> Str.includes a s = true.
Proof.
  induction s as [| c s IH]; cbn [Str.includes]; intros H.
  - rewrite orb_false_r in *. now apply prefix_of_longer with b.
  - apply orb_true_iff in H. apply orb_true_iff.
    destruct H as [H | H]; [left; now apply prefix_of_longer with b |].
    right. now apply IH.
Qed.

Lemma drop_append (a b : string) : Str.drop (String.length a) (a ++ b) = b.
Proof. induction a as [| c a IH]; cbn; [now destruct b | exact IH]. Qed.

Lemma drop_drop (n m : nat) (s : string) :
  Str.drop m (Str.drop n s) = Str.drop (n + m) s.
Proof.
  revert s. induction n as [| n IH]; intros s; cbn [Str.drop plus].
  - reflexivity.
  - destruct s as [| c s]; [now destruct m | apply IH].
Qed.

Lemma prefix_split (a s : string) :
  String.prefix a s = true -> s = a ++ Str.drop (String.length a) s.
Proof.
  revert s. induction a as [| c a IH]; intros s.
  - now destruct s.
  - destruct s as [| c' s]; cbn; [discriminate |].
    destruct (ascii_dec c c') as [<- | _]; [| discriminate].
    intros H. f_equal. now apply IH.
Qed.

Lemma word_split (s : string) :
  s = Str.word s ++ Str.drop (String.length (Str.word s)) s.
Proof.
  induction s as [| c s IH]; cbn; [reflexivity |].
  destruct (Str.is_word c); cbn; [now rewrite <- IH | reflexivity].
Qed.

(** A match of the placeholder pattern is the text [${key}] in front of the
    string. *)
Lemma placeholder_at_split (s key : string) :
  Str.placeholder_at s = Some key ->
  s = "${" ++ key ++ "}" ++ Str.drop (String.length key + 3) s.
Proof.
  unfold Str.placeholder_at.
  remember (Str.drop 2 s) as tail eqn:Htail.
  remember (Str.word tail) as key0 eqn:Hkey.
  destruct (String.prefix "${" s) eqn:Hp; [| discriminate].
  destruct ((0 <? String.length key0)%nat
            && String.prefix "}" (Str.drop (2 + String.length key0) s))
    eqn:Hk; [| discriminate].
  intros H. assert (Hsame : key0 = key) by congruence. clear H.
  subst key. apply andb_true_iff in Hk. destruct Hk as [_ Hk].
  rewrite (prefix_split _ _ Hp) at 1. change (String.length "${") with 2%nat.
  rewrite <- Htail. f_equal.
  rewrite (word_split tail) at 1. rewrite <- Hkey. f_equal.
  rewrite Htail, drop_drop.
  rewrite (prefix_split _ _ Hk) at 1. f_equal.
  rewrite drop_drop. f_equal. cbn. lia.
Qed.

Lemma word_free_of_dot (s : string) : free_of "." (Str.word s) = true.
Proof.
  induction s as [| c s IH]; [reflexivity |]. cbn [Str.word].
  destruct (Str.is_word c) eqn:Hc; [| reflexivity].
  cbn [free_of]. rewrite IH, andb_true_r. apply negb_true_iff.
  destruct (Ascii.eqb_spec c ".") as [-> | Hne]; [discriminate Hc | reflexivity].
Qed.

(** The key of a placeholder, a match of [\w+], holds no dot. *)
Lemma placeholder_key_free_of_dot (s key : string) :
  Str.placeholder_at s = Some key -> free_of "." key = true.
Proof.
  unfold Str.placeholder_at.
  destruct (String.prefix "${" s); [| discriminate].
  destruct (_ && _); [| discriminate].
  intros H. injection H as <-. apply word_free_of_dot.
Qed.

(** Replacing every placeholder by itself changes nothing. *)
Lemma replace_placeholders_same (f : string -> string -> string) :
  (forall m key, free_of "." key = true -> f m key = m) ->
  forall s skip, Str.replace_placeholders f skip s = Str.drop skip s.
Proof.
  intros Hf. induction s as [| c rest IH]; intros skip.
  - now destruct skip.
  - cbn [Str.replace_placeholders]. destruct skip as [| k].
    + destruct (Str.placeholder_at (String c rest)) as [key |] eqn:Hp.
      * rewrite (Hf _ _ (placeholder_key_free_of_dot _ _ Hp)), IH.
        cbn [Str.drop].
        pose proof (placeholder_at_split _ _ Hp) as Hs.
        replace (String.length key + 3)%nat
          with (S (String.length key + 2)) in Hs by lia.
        cbn [Str.drop] in Hs. symmetry.
        etransitivity; [exact Hs |]. cbn [append].
        now rewrite append_assoc.
      * rewrite IH. reflexivity.
    + cbn [Str.drop]. apply IH.
Qed.

Lemma free_of_append (c : ascii) (a b : string) :
  free_of c (a ++ b) = free_of c a && free_of c b.
Proof.
  induction a as [| x a IH]; cbn; [reflexivity |].
  now rewrite IH, andb_assoc.
Qed.

(** Without a dollar there is no placeholder. *)
Lemma replace_placeholders_dollar_free (f : string -> string -> string)
  (s : string) :
  free_of "$" s = true -> Str.replace_placeholders f 0 s = s.
Proof.
  induction s as [| c rest IH]; [reflexivity |].
  cbn [free_of Str.replace_placeholders]. intros H.
  apply andb_true_iff in H. destruct H as [Hc Hrest].
  apply negb_true_iff in Hc.
  unfold Str.placeholder_at. rewrite (prefix_other _ _ _ _ Hc).
  now rewrite IH.
Qed.

Lemma getSubstitution_dollar_free (matched before after r : string) :
  free_of "$" r = true -> Str.getSubstitution matched before after r = r.
Proof.
  induction r as [| c r IH]; [reflexivity |].
  cbn [free_of]. intros H. apply andb_true_iff in H. destruct H as [Hc Hr].
  cbn [Str.getSubstitution].
  destruct c as [[] [] [] [] [] [] [] []]; try discriminate Hc;
    now rewrite (IH Hr).
Qed.

(** The first occurrence of a pattern that starts with a dollar, after a
    text without dollars, is replaced by a replacement without dollars. *)
Lemma replace_first (pattern replacement before after : string) :
  free_of "$" before = true -> free_of "$" replacement = true ->
  Str.replace (String "$" pattern) replacement
    (before ++ String "$" pattern ++ after)
  = before ++ replacement ++ after.
Proof.
  intros Hb Hr. unfold Str.replace.
  assert (H : forall passed,
             Str.replace_from passed (String "$" pattern) replacement
               (before ++ String "$" pattern ++ after)
             = passed ++ before ++ replacement ++ after).
  { induction before as [| c before IH]; intros passed.
    - cbn [append Str.replace_from].
      change (String "$" (pattern ++ after))
        with (String "$" pattern ++ after).
      rewrite prefix_append, drop_append.
      now rewrite getSubstitution_dollar_free.
    - cbn [free_of] in Hb. apply andb_true_iff in Hb.
      destruct Hb as [Hc Hb].
      apply negb_true_iff in Hc.
      cbn [append Str.replace_from]. rewrite (prefix_other _ _ _ _ Hc).
      rewrite (IH Hb). rewrite append_assoc. reflexivity. }
  apply H.
Qed.

(** [split] undoes the joining of keys without dots. *)
Lemma split_dots_key (k current : string) :
  free_of "." k = true -> Str.split_dots current k = [current ++ k].
Proof.
  revert current. induction k as [| c k IH]; intros current; cbn.
  - intros _. now rewrite append_nil_r.
  - intros H. apply andb_true_iff in H. destruct H as [Hc Hk].
    apply negb_true_iff in Hc. rewrite Hc, (IH _ Hk).
    now rewrite append_assoc.
Qed.

End StringFacts.
(** * The threshold check and the recommendations *)

Section ReportFacts.
Context {A : Type} {N : JSNumber A}.
Import AnalyzerReports.
Local Open Scope string_scope.

Variable show : A -> string.
Variable toUpperCase : string -> string.

Lemma checkResult_app (thresholds : Thresholds.t A) (failures : list string)
  (result : MetricsResult A) :
  checkResult show thresholds failures result
  = (failures ++ checkResult show thresholds [] result)%list.
Proof.
  unfold checkResult, push.
  repeat match goal with
         | |- context [if ?b then _ else _] => destruct b
         end;
    cbn [app]; rewrite <- ?app_assoc; cbn [app]; rewrite ?app_nil_r;
    reflexivity.
Qed.

Lemma checkResults_flat_map (thresholds : Thresholds.t A)
  (results : list (MetricsResult A)) (failures : list string) :
  fold_left (checkResult show thresholds) results failures
  = (failures ++ flat_map (checkResult show thresholds []) results)%list.
Proof.
  revert failures.
  induction results as [| r rest IH]; intros failures; cbn.
  - now rewrite app_nil_r.
  - rewrite IH, (checkResult_app thresholds failures r).
    now rewrite <- app_assoc.
Qed.

Lemma checkResult_within (thresholds : Thresholds.t A)
  (result : MetricsResult A) :
  checkResult show thresholds [] result = []
  <-> withinThresholds thresholds result = true.
Proof.
  unfold checkResult, withinThresholds, push.
  repeat match goal with
         | |- context [if ?b then _ else _] => destruct b
         end;
    cbn; split; intros H; try reflexivity; try discriminate H;
    try (now destruct (app_cons_not_nil _ _ _ (eq_sym H))).
Qed.

Lemma checkResult_length (thresholds : Thresholds.t A)
  (result : MetricsResult A) :
  (List.length (checkResult show thresholds [] result) <= 5)%nat.
Proof.
  unfold checkResult, push.
  repeat match goal with
         | |- context [if ?b then _ else _] => destruct b
         end; cbn; lia.
Qed.

(** X1.  [checkThresholds] passes exactly when the five tests (LCP, FID or
    0, CLS, TTFB and the total load time above their thresholds) are
    negative on every sample; [passed] says that [failures] is empty.  The
    failures of two runs put together are those of the first followed by
    those of the second, and a sample adds five messages at most. *)
Theorem checkThresholds_passes_iff_within
  (thresholds : Thresholds.t A) (results more : list (MetricsResult A)) :
  (passed (checkThresholds show results thresholds) = true
   <-> forall result, In result results ->
                      withinThresholds thresholds result = true)
  /\ (passed (checkThresholds show results thresholds) = true
      <-> failures (checkThresholds show results thresholds) = [])
  /\ failures (checkThresholds show (results ++ more) thresholds)
     = (failures (checkThresholds show results thresholds)
        ++ failures (checkThresholds show more thresholds))%list
  /\ (List.length (failures (checkThresholds show results thresholds))
      <= 5 * List.length results)%nat.
Proof.
  unfold checkThresholds. cbn [passed failures].
  rewrite !checkResults_flat_map. cbn [app].
  assert (Hempty : forall l : list string,
             (List.length l =? 0)%nat = true <-> l = []).
  { intros l. rewrite Nat.eqb_eq. now destruct l. }
  split; [| split; [| split]].
  - rewrite Hempty. split.
    + intros H result Hin. apply checkResult_within.
      induction results as [| r rest IH]; [contradiction |].
      cbn in H. apply app_eq_nil in H. destruct H as [Hr Hrest].
      destruct Hin as [<- | Hin]; [exact Hr | now apply IH].
    + intros H. induction results as [| r rest IH]; [reflexivity |].
      cbn. rewrite (proj2 (checkResult_within thresholds r)).
      * apply IH. intros result Hin. apply H. now right.
      * apply H. now left.
  - apply Hempty.
  - apply flat_map_app.
  - induction results as [| r rest IH]; [cbn; lia |].
    cbn [flat_map List.length]. rewrite length_app.
    pose proof (checkResult_length thresholds r). lia.
Qed.

Lemma recommend_app (recommendations : list string)
  (comparison : ComparisonResult A) :
  recommend show toUpperCase recommendations comparison
  = (recommendations ++ recommend show toUpperCase [] comparison)%list.
Proof.
  unfold recommend, push.
  repeat match goal with
         | |- context [if ?b then _ else _] => destruct b
         end;
    cbn [app]; rewrite <- ?app_assoc; cbn [app]; rewrite ?app_nil_r;
    reflexivity.
Qed.

Lemma recommendations_flat_map (comparisons : list (ComparisonResult A))
  (recommendations : list string) :
  fold_left (recommend show toUpperCase) comparisons recommendations
  = (recommendations
     ++ flat_map (recommend show toUpperCase []) comparisons)%list.
Proof.
  revert recommendations.
  induction comparisons as [| c rest IH]; intros recommendations; cbn.
  - now rewrite app_nil_r.
  - rewrite IH, (recommend_app recommendations c).
    now rewrite <- app_assoc.
Qed.

Lemma recommend_length (comparison : ComparisonResult A) :
  (List.length (recommend show toUpperCase [] comparison) <= 2)%nat.
Proof.
  unfold recommend, push.
  destruct (String.eqb (metric comparison) "lcp") eqn:Hlcp.
  - apply String.eqb_eq in Hlcp. rewrite Hlcp. cbn [String.eqb Ascii.eqb Bool.eqb andb].
    repeat match goal with
           | |- context [if ?b then _ else _] => destruct b
           end; cbn; lia.
  - destruct (String.eqb (metric comparison) "cls") eqn:Hcls.
    + apply String.eqb_eq in Hcls. rewrite Hcls.
      cbn [String.eqb Ascii.eqb Bool.eqb andb].
      repeat match goal with
             | |- context [if ?b then _ else _] => destruct b
             end; cbn; lia.
    + cbn [andb].
      repeat match goal with
             | |- context [if ?b then _ else _] => destruct b
             end; cbn; lia.
Qed.

(** X2.  [generateRecommendations] treats the comparisons one by one, in
    order: the recommendations for two lists put together are those for the
    first followed by those for the second.  A comparison gives two
    recommendations at most (one on the speed of the new application, one on
    its metric), and none when it is a tie on a metric other than lcp, cls
    and ttfb. *)
Theorem generateRecommendations_per_comparison
  (comparisons more : list (ComparisonResult A)) :
  generateRecommendations show toUpperCase (comparisons ++ more)
  = (generateRecommendations show toUpperCase comparisons
     ++ generateRecommendations show toUpperCase more)%list
  /\ (List.length (generateRecommendations show toUpperCase comparisons)
      <= 2 * List.length comparisons)%nat
  /\ (forall c, winner c = Tie ->
        metric c <> "lcp" -> metric c <> "cls" -> metric c <> "ttfb" ->
        generateRecommendations show toUpperCase [c] = []).
Proof.
  unfold generateRecommendations.
  rewrite !recommendations_flat_map. cbn [app].
  split; [apply flat_map_app | split].
  - induction comparisons as [| c rest IH]; [cbn; lia |].
    cbn [flat_map List.length]. rewrite length_app.
    pose proof (recommend_length c). lia.
  - intros c Hw Hlcp Hcls Httfb. cbn. unfold recommend.
    rewrite Hw. cbn [Winner_eqb andb].
    apply String.eqb_neq in Hlcp, Hcls, Httfb.
    now rewrite Hlcp, Hcls, Httfb.
Qed.

End ReportFacts.
(** * Thresholds and NaN in binary64 *)

Section Binary64Thresholds.
Import AnalyzerReports.

Variable show : float -> string.

Lemma is_nan_Prim2SF (v : float) :
  PrimFloat.is_nan v = true -> Prim2SF v = S754_nan.
Proof.
  unfold PrimFloat.is_nan. rewrite FloatAxioms.eqb_spec.
  destruct (Prim2SF v) as [s | s | | s m e]; cbn; try reflexivity;
    try (destruct s; discriminate).
  unfold SFeqb. cbn. rewrite Z.compare_refl.
  change PosDef.Pos.compare_cont with Pos.compare_cont.
  rewrite Pos.compare_cont_refl. destruct s; discriminate.
Qed.

(** No number is below NaN. *)
Lemma ltb_nan_r (x v : float) :
  PrimFloat.is_nan v = true -> PrimFloat.ltb x v = false.
Proof.
  intros H. rewrite FloatAxioms.ltb_spec, (is_nan_Prim2SF v H).
  unfold SFltb. now destruct (Prim2SF x).
Qed.

Lemma or_zero_nan (x : option float) :
  match x with Some v => PrimFloat.is_nan v = true | None => True end ->
  PerformanceAnalyzer.or_zero x = PrimFloat.zero.
Proof.
  destruct x as [v |]; cbn; [| reflexivity].
  intros H. unfold truthy, isNaN. cbn.
  unfold PrimFloat.is_nan in H. rewrite H.
  now rewrite andb_false_r.
Qed.

(** X3.  In binary64 a sample whose LCP, CLS, TTFB and total load time are
    NaN, and whose FID is absent or NaN, passes [checkThresholds] for every
    threshold on the first four and every FID threshold that is not
    negative: a comparison with NaN is false, and [fid || 0] is 0. *)
Theorem checkThresholds_passes_NaN (thresholds : Thresholds.t float)
  (results : list (MetricsResult float)) :
  PrimFloat.ltb (Thresholds.fid thresholds) PrimFloat.zero = false ->
  (forall result, In result results ->
     PrimFloat.is_nan (lcp (coreWebVitals result)) = true
     /\ match fid (coreWebVitals result) with
        | Some v => PrimFloat.is_nan v = true
        | None => True
        end
     /\ PrimFloat.is_nan (cls (coreWebVitals result)) = true
     /\ PrimFloat.is_nan (ttfb (performanceMetrics result)) = true
     /\ PrimFloat.is_nan (totalPageLoadTime (performanceMetrics result))
        = true) ->
  checkThresholds show results thresholds
  = {| passed := true; failures := [] |}.
Proof.
  intros Hfid Hnan.
  assert (Hall : forall failures,
             fold_left (checkResult show thresholds) results failures
             = failures).
  { induction results as [| r rest IH]; intros failures; [reflexivity |].
    cbn [fold_left].
    destruct (Hnan r (or_introl eq_refl)) as (Hl & Hf & Hc & Ht & Hp).
    assert (Hr : checkResult show thresholds failures r = failures).
    { unfold checkResult. cbn [nltb binary64].
      rewrite (ltb_nan_r _ _ Hl), (ltb_nan_r _ _ Hc), (ltb_nan_r _ _ Ht),
        (ltb_nan_r _ _ Hp), (or_zero_nan _ Hf), Hfid.
      reflexivity. }
    rewrite Hr. apply IH. intros result Hin. apply Hnan. now right. }
  unfold checkThresholds. now rewrite Hall.
Qed.

End Binary64Thresholds.

Lemma checkThresholds_passes_NaN_witness :
  AnalyzerReports.checkThresholds (fun _ : float => "NaN"%string) [unmeasured]
    webVitalsThresholds
  = {| passed := true; failures := [] |}.
Proof.
  apply (checkThresholds_passes_NaN (fun _ => "NaN"%string)
           webVitalsThresholds [unmeasured]).
  - vm_compute. reflexivity.
  - intros result [<- | []]. vm_compute. repeat split; reflexivity.
Defined.

(** * The scenarios and their steps *)

Section ScenarioFacts.
Context {A : Type} {N : JSNumber A} {O : Outside A}.
Import ScenarioRunner Scenarios.
Local Open Scope string_scope.

Variable testData : option TestData.
Variable random : nat -> A.
Variable page : list (PageCall A) -> PageCall A -> option string.
Variable scenarios : option (list (TestScenario A)).
Variable baseUrl : string.
Variable appName : string.

Lemma find_first (T : Type) (p : T -> bool) (l : list T) (x : T) :
  find p l = Some x ->
  p x = true
  /\ exists before after,
       l = (before ++ x :: after)%list
       /\ forall y, In y before -> p y = false.
Proof.
  induction l as [| y rest IH]; cbn; [discriminate |].
  destruct (p y) eqn:Hy.
  - intros [= <-]. split; [exact Hy |].
    exists [], rest. split; [reflexivity | intros ? []].
  - intros H. destruct (IH H) as (Hx & before & after & -> & Hb).
    split; [exact Hx |].
    exists (y :: before), after. split; [reflexivity |].
    intros z [<- | Hz]; [exact Hy | now apply Hb].
Qed.

Lemma isValidScenario_getScenario (name : string) :
  isValidScenario scenarios name = true
  <-> exists s, getScenario scenarios name = Some s.
Proof.
  unfold isValidScenario, getAvailableScenarios, getScenario.
  induction (scenarios_or_empty scenarios) as [| s rest IH]; cbn.
  - split; [discriminate | intros [s [=]]].
  - rewrite (String.eqb_sym name (scenario_name s)).
    destruct (String.eqb (scenario_name s) name); cbn.
    + split; [intros _; now exists s | reflexivity].
    + exact IH.
Qed.

(** X4.  A name is valid for [isValidScenario] exactly when [getScenario]
    finds a scenario, and what it finds is the first scenario of that name in
    the data file: a later scenario of the same name is never run.  Without
    scenarios in the data file no name is valid, and the expected metrics of
    a scenario that is not found are the empty object. *)
Theorem getScenario_first_of_valid_name (name : string) :
  (isValidScenario scenarios name = true
   <-> exists s, getScenario scenarios name = Some s)
  /\ (forall s, getScenario scenarios name = Some s ->
        scenario_name s = name
        /\ exists before after,
             scenarios_or_empty scenarios = (before ++ s :: after)%list
             /\ forall s', In s' before -> scenario_name s' <> name)
  /\ (isValidScenario scenarios name = false ->
      getScenario scenarios name = None
      /\ getScenarioExpectedMetrics scenarios name
         = {| Thresholds.lcp := None; Thresholds.fid := None;
              Thresholds.cls := None; Thresholds.ttfb := None;
              Thresholds.totalLoadTime := None |})
  /\ isValidScenario (A := A) None name = false.
Proof.
  split; [apply isValidScenario_getScenario | split; [| split]].
  - intros s H. unfold getScenario in H.
    destruct (find_first _ _ _ _ H) as (Hs & before & after & Hl & Hb).
    apply String.eqb_eq in Hs. split; [exact Hs |].
    exists before, after. split; [exact Hl |].
    intros s' Hin. apply String.eqb_neq. now apply Hb.
  - intros H.
    assert (Hnone : getScenario scenarios name = None).
    { destruct (getScenario scenarios name) as [s |] eqn:Hs; [| reflexivity].
      rewrite (proj2 (isValidScenario_getScenario name)) in H;
        [discriminate | now exists s]. }
    split; [exact Hnone |].
    unfold getScenarioExpectedMetrics. now rewrite Hnone.
  - reflexivity.
Qed.

(** X5.  [runScenario] on a name that is not valid throws "Scenario '...'
    not found" before anything is done: no observer is set up, no step runs,
    no page call is made.  [runScenarioWithAuth] looks the scenario up after
    the login only: without login it throws the same error at once, and with
    a successful login it throws it in the world the login has left. *)
Theorem runScenario_unknown_name (name environment : string) (iteration : A)
  (w : World A) :
  isValidScenario scenarios name = false ->
  let notFound := Error ("Scenario '" ++ name ++ "' not found") in
  runScenario testData random page scenarios baseUrl appName
    name environment iteration w
  = (Throw notFound, w)
  /\ runScenarioWithAuth testData random page scenarios baseUrl appName
       name environment iteration (Some false) w
     = (Throw notFound, w)
  /\ (forall w1,
        seq navigateToLogin (fun _ =>
        seq performLogin (fun _ => LoginPage.isLoginSuccessful page)) w
        = (Ok true, w1) ->
        runScenarioWithAuth testData random page scenarios baseUrl appName
          name environment iteration None w
        = (Throw notFound, w1)).
Proof.
  intros Hvalid notFound.
  assert (Hnone : getScenario scenarios name = None).
  { destruct (getScenario scenarios name) as [s |] eqn:Hs; [| reflexivity].
    rewrite (proj2 (isValidScenario_getScenario name)) in Hvalid;
      [discriminate | now exists s]. }
  assert (Hrun : forall w0,
             runScenario testData random page scenarios baseUrl appName
               name environment iteration w0 = (Throw notFound, w0)).
  { intros w0. unfold runScenario. now rewrite Hnone. }
  split; [apply Hrun | split].
  - unfold runScenarioWithAuth, seq, ret. apply Hrun.
  - intros w1 Hlogin. unfold runScenarioWithAuth.
    unfold seq in *.
    destruct (navigateToLogin w) as [[[] | e1] wa]; [| discriminate].
    destruct (performLogin wa) as [[[] | e2] wb]; [| discriminate].
    destruct (LoginPage.isLoginSuccessful page wb) as [[[] | e3] wc];
      try discriminate.
    injection Hlogin as <-. cbn. apply Hrun.
Qed.

Lemma executeSteps_app (before after : list (TestStep A)) (name url : string)
  (w : World A) :
  executeSteps testData random page baseUrl (before ++ after) name url w
  = seq (executeSteps testData random page baseUrl before name url)
      (fun url' =>
         executeSteps testData random page baseUrl after name url') w.
Proof.
  revert url w. induction before as [| s rest IH]; intros url w.
  - reflexivity.
  - cbn [app executeSteps]. unfold seq.
    destruct (executeStep testData random page baseUrl s name w)
      as [[[] | e] w']; [| reflexivity].
    rewrite IH. reflexivity.
Qed.

(** X6.  The steps of a scenario run in order, and the first step that
    throws ends the scenario with its error: the steps after it are not run,
    the page load is not awaited and no metrics are collected. *)
Theorem runScenario_stops_at_failing_step
  (name environment : string) (iteration : A) (scenario : TestScenario A)
  (before after : list (TestStep A)) (step : TestStep A) (url : string)
  (e : exn) (w w0 w1 w2 : World A) :
  getScenario scenarios name = Some scenario ->
  steps scenario = (before ++ step :: after)%list ->
  seq setupPerformanceObservers (fun _ => injectWebVitalsLibrary) w
  = (Ok tt, w0) ->
  executeSteps testData random page baseUrl before name baseUrl w0
  = (Ok url, w1) ->
  executeStep testData random page baseUrl step name w1 = (Throw e, w2) ->
  runScenario testData random page scenarios baseUrl appName
    name environment iteration w
  = (Throw e, w2).
Proof.
  intros Hget Hsteps Hsetup Hbefore Hstep.
  unfold runScenario. rewrite Hget, Hsteps.
  unfold seq in Hsetup. unfold seq at 1.
  destruct (setupPerformanceObservers w) as [[[] | e1] wa]; [| discriminate].
  unfold seq at 1. rewrite Hsetup.
  unfold seq at 1. rewrite executeSteps_app.
  unfold seq at 1. rewrite Hbefore.
  cbn [executeSteps]. unfold seq at 1. now rewrite Hstep.
Qed.

(** X7.  A [timeout] of a step that is falsy (0 or NaN) counts as no
    timeout at all: the step runs with the default of its action, as if the
    field were absent. *)
Theorem executeStep_falsy_timeout_is_default (step : TestStep A) (t : A)
  (name : string) (w : World A) :
  truthy t = false ->
  executeStep testData random page baseUrl (withTimeout step (Some t)) name w
  = executeStep testData random page baseUrl (withTimeout step None) name w.
Proof.
  intros Ht. unfold executeStep, executeNavigateStep, executeClickStep,
    executeFillStep, executeWaitStep, executeCustomStep, withTimeout, or_default.
  cbn [action selector value url timeout customFunction]. now rewrite Ht.
Qed.

(** X8.  A navigate step is not validated: without [url] it goes to the
    base address followed by "undefined".  An address that starts with "http"
    is taken as it is, any other is appended to the base address, so that the
    target starts with "http" or with the base address; the load may take
    30000 ms unless the step has a truthy [timeout]. *)
Theorem navigate_step_target (step : TestStep A) (name : string) (w : World A) :
  action step = "navigate" ->
  exists target,
    executeStep testData random page baseUrl step name w
    = goto target "domcontentloaded" (or_default (timeout step) (int 30000)) w
    /\ (url step = None -> target = baseUrl ++ "undefined")
    /\ (String.prefix "http" target = true
        \/ String.prefix baseUrl target = true)
    /\ (forall u, url step = Some u ->
          target = if String.prefix "http" u then u else baseUrl ++ u).
Proof.
  intros Ha. unfold executeStep. rewrite Ha. cbn [String.eqb Ascii.eqb Bool.eqb].
  unfold executeNavigateStep.
  destruct (url step) as [u |] eqn:Hu.
  - destruct (String.prefix "http" u) eqn:Hp.
    + exists u. repeat split; try discriminate; [now left |].
      intros u' [= <-]. now rewrite Hp.
    + exists (baseUrl ++ u). repeat split; try discriminate.
      * right. apply prefix_append.
      * intros u' [= <-]. now rewrite Hp.
  - exists (baseUrl ++ "undefined"). repeat split; try discriminate.
    right. apply prefix_append.
Qed.

(** X9.  What the runner skips without a word: a step whose action is none
    of the five, and a custom step whose function is none of the four, do
    nothing and do not fail.  The custom steps "uploadTestFile" and
    "measureApiResponseTime" never fail either, whatever the page and the
    network do: their errors are caught.  Only a custom step without
    [customFunction] throws, before anything is done. *)
Theorem skipped_and_unfailing_steps (step : TestStep A) (name : string)
  (w : World A) :
  (action step <> "navigate" -> action step <> "click" ->
   action step <> "fill" -> action step <> "wait" ->
   action step <> "custom" ->
   executeStep testData random page baseUrl step name w = (Ok tt, w))
  /\ (forall f, customFunction step = Some f -> f <> "" ->
        f <> "measureDashboardWidgets" -> f <> "uploadTestFile" ->
        f <> "measureApiResponseTime" -> f <> "simulateUserInteractions" ->
        executeCustomStep random page baseUrl step name w = (Ok tt, w))
  /\ (customFunction step = Some "uploadTestFile"
      \/ customFunction step = Some "measureApiResponseTime" ->
      exists w', executeCustomStep random page baseUrl step name w
                 = (Ok tt, w'))
  /\ (missing (customFunction step) = true ->
      executeCustomStep random page baseUrl step name w
      = (Throw (Error "Custom step requires customFunction"), w)).
Proof.
  split; [| split; [| split]].
  - intros H1 H2 H3 H4 H5. unfold executeStep.
    apply String.eqb_neq in H1, H2, H3, H4, H5.
    now rewrite H1, H2, H3, H4, H5.
  - intros f Hf H0 H1 H2 H3 H4. unfold executeCustomStep.
    rewrite Hf. cbn [missing text].
    assert (Hlen : (String.length f =? 0)%nat = false)
      by (destruct f; [congruence | reflexivity]).
    apply String.eqb_neq in H1, H2, H3, H4.
    now rewrite Hlen, H1, H2, H3, H4.
  - assert (Hattempt : forall (body : ScenarioRunner.M (A := A) unit) w0,
               exists w', attempt body w0 = (Ok tt, w')).
    { intros body w0. unfold attempt.
      destruct (body w0) as [[[] | e] w']; now exists w'. }
    intros [Hf | Hf]; unfold executeCustomStep; rewrite Hf; cbn.
    + apply Hattempt.
    + unfold measureApiResponses, commonEndpoints. cbn [fold_left].
      unfold seq at 1 2 3. unfold ret at 1.
      match goal with |- context [attempt ?b w] =>
        destruct (Hattempt b w) as [w1 ->] end.
      match goal with |- context [attempt ?b w1] =>
        destruct (Hattempt b w1) as [w2 ->] end.
      apply Hattempt.
  - intros Hm. unfold executeCustomStep. now rewrite Hm.
Qed.

End ScenarioFacts.
Section ScenarioExamples.
Local Open Scope string_scope.

Lemma runScenario_unknown_name_witness :
  Scenarios.runScenario (A := float) (O := idle "about:blank" stablePage)
    None (fun _ => int 0) acceptingPage None "http://legacy.test" "legacy"
    "checkout" "pre" (int 1) freshWorld
  = (Throw (Error "Scenario 'checkout' not found"), freshWorld).
Proof.
  apply (proj1 (runScenario_unknown_name
                  (O := idle "about:blank" stablePage)
                  None (fun _ => int 0) acceptingPage None
                  "http://legacy.test" "legacy" "checkout" "pre" (int 1)
                  freshWorld eq_refl)).
Defined.

Lemma runScenario_stops_at_failing_step_witness :
  Scenarios.runScenario (A := float) (O := idle "about:blank" stablePage)
    None (fun _ => int 0) acceptingPage (Some [brokenLogin])
    "http://legacy.test" "legacy" "login" "pre" (int 1) freshWorld
  = (Throw (Error "Click step requires selector"), freshWorld).
Proof.
  apply (runScenario_stops_at_failing_step
           (O := idle "about:blank" stablePage)
           None (fun _ => int 0) acceptingPage (Some [brokenLogin])
           "http://legacy.test" "legacy" "login" "pre" (int 1) brokenLogin
           [{| action := "navigate"; selector := None; value := None;
               url := Some "/login"; timeout := None;
               customFunction := None |}]
           [bareStep "wait"] (bareStep "click") "about:blank"
           (Error "Click step requires selector")
           freshWorld freshWorld freshWorld freshWorld);
    reflexivity.
Defined.

Lemma executeStep_falsy_timeout_is_default_witness :
  Scenarios.executeStep (A := float) (O := idle "about:blank" stablePage)
    None (fun _ => int 0) acceptingPage "http://legacy.test"
    (withTimeout (bareStep "wait") (Some (int 0))) "login" freshWorld
  = Scenarios.executeStep (A := float) (O := idle "about:blank" stablePage)
      None (fun _ => int 0) acceptingPage "http://legacy.test"
      (withTimeout (bareStep "wait") None) "login" freshWorld.
Proof.
  apply (executeStep_falsy_timeout_is_default
           (O := idle "about:blank" stablePage)
           None (fun _ => int 0) acceptingPage "http://legacy.test"
           (bareStep "wait") (int 0) "login" freshWorld).
  vm_compute. reflexivity.
Defined.

Lemma navigate_step_target_witness :
  exists target,
    Scenarios.executeStep (A := float) (O := idle "about:blank" stablePage)
      None (fun _ => int 0) acceptingPage "http://legacy.test"
      (bareStep "navigate") "login" freshWorld
    = goto (Outside := idle "about:blank" stablePage) target
        "domcontentloaded" (int 30000) freshWorld
    /\ target = "http://legacy.testundefined".
Proof.
  destruct (navigate_step_target (O := idle "about:blank" stablePage)
              None (fun _ => int 0) acceptingPage "http://legacy.test"
              (bareStep "navigate") "login" freshWorld eq_refl)
    as (target & Hrun & Hnone & _).
  exists target. split; [exact Hrun | exact (Hnone eq_refl)].
Defined.

End ScenarioExamples.

(** * How long a wait step waits *)

Section WaitFacts.
Import ScenarioRunner Scenarios.
Local Open Scope string_scope.

Variable testData : option TestData.
Variable baseUrl : string.

Lemma wait_step_runs (A : Type) (N : JSNumber A) (O : Outside A)
  (random : nat -> A) (page : list (PageCall A) -> PageCall A -> option string)
  (step : TestStep A) (name : string) :
  action step = "wait" -> missing (selector step) = true ->
  executeStep testData random page baseUrl step name
  = await page
      (WaitForTimeout
         (Math_min [or_default (timeout step) (int 10000); int 10000])).
Proof.
  intros Ha Hs. unfold executeStep. rewrite Ha.
  cbn [String.eqb Ascii.eqb Bool.eqb].
  unfold executeWaitStep. now rewrite Hs.
Qed.

Lemma binary64_wait_bound (t : option float) :
  let d := Math_min [or_default t (int 10000); int 10000] in
  PrimFloat.ltb (int 10000) d = false /\ PrimFloat.is_nan d = false.
Proof.
  assert (Hnan : PrimFloat.is_nan (or_default t (int 10000)) = false).
  { unfold or_default. destruct t as [v |]; [| vm_compute; reflexivity].
    destruct (truthy v) eqn:Hv; [| vm_compute; reflexivity].
    unfold truthy in Hv. apply andb_true_iff in Hv. destruct Hv as [_ Hv].
    apply negb_true_iff in Hv. exact Hv. }
  set (t' := or_default t (int 10000)) in *.
  cbv zeta. unfold Math_min. cbn [fold_left].
  assert (Hinf : min2 Infinity t' = if PrimFloat.ltb t' Infinity then t' else Infinity).
  { unfold min2. replace (isNaN (Infinity (A := float))) with false
      by (vm_compute; reflexivity).
    unfold isNaN. cbn [neqb nltb binary64].
    unfold PrimFloat.is_nan in Hnan. now rewrite Hnan. }
  rewrite Hinf.
  set (x := if PrimFloat.ltb t' Infinity then t' else Infinity).
  assert (Hx : PrimFloat.is_nan x = false).
  { unfold x. destruct (PrimFloat.ltb t' Infinity); [exact Hnan |].
    vm_compute. reflexivity. }
  unfold min2, isNaN. cbn [neqb nltb binary64].
  unfold PrimFloat.is_nan in Hx. rewrite Hx.
  replace (negb (PrimFloat.eqb (int 10000) (int 10000))) with false
    by (vm_compute; reflexivity).
  destruct (PrimFloat.ltb (int 10000) x) eqn:Hlt.
  - split; vm_compute; reflexivity.
  - split; [exact Hlt | exact Hx].
Qed.

Lemma rational_wait_bound (sqrtQ : Q -> Q) (t : option Exact.xnum) :
  let N := rationals sqrtQ in
  let d := Math_min [or_default t (int 10000); int 10000] in
  d = Exact.NegInf \/ exists q, d = Exact.Fin q /\ q <= 10000.
Proof.
  intros N.
  assert (Hfin : forall r,
             exists q, Math_min [Exact.Fin r; int 10000] = Exact.Fin q
                       /\ q <= 10000).
  { intros r. exists (Rat.min2 r (inject_Z 10000)). split.
    - exact (Math_min_Fin sqrtQ r [inject_Z 10000]).
    - unfold Rat.min2.
      destruct (negb (Qle_bool r (inject_Z 10000))) eqn:Hle;
        [apply Qle_refl |].
      apply negb_false_iff in Hle. now apply Qle_bool_iff. }
  cbv zeta. unfold or_default.
  destruct t as [[q | | |] |].
  - right. destruct (truthy (Exact.Fin q)); apply Hfin.
  - right. apply (Hfin (inject_Z 10000)).
  - right. exists (inject_Z 10000). split; [reflexivity | apply Qle_refl].
  - now left.
  - right. apply (Hfin (inject_Z 10000)).
Qed.

(** X10.  A wait step without a selector never waits more than 10000 ms,
    whatever its [timeout]: it waits [Math.min(timeout || 10000, 10000)]
    milliseconds, a number that is not NaN and not above 10000 in binary64,
    and is a rational up to 10000 or [-Infinity] in exact arithmetic. *)
Theorem wait_step_waits_at_most_10000 :
  (forall (O : Outside float) (random : nat -> float)
          (page : list (PageCall float) -> PageCall float -> option string)
          (step : TestStep float) (name : string),
      action step = "wait" -> missing (selector step) = true ->
      exists d,
        executeStep testData random page baseUrl step name
        = await page (WaitForTimeout d)
        /\ PrimFloat.ltb (int 10000) d = false
        /\ PrimFloat.is_nan d = false)
  /\ (forall (sqrtQ : Q -> Q) (O : Outside Exact.xnum)
             (random : nat -> Exact.xnum),
        let N := rationals sqrtQ in
        forall
             (page : list (PageCall Exact.xnum) -> PageCall Exact.xnum
                     -> option string)
             (step : TestStep Exact.xnum) (name : string),
        action step = "wait" -> missing (selector step) = true ->
        exists d,
          executeStep testData random page baseUrl step name
          = await page (WaitForTimeout d)
          /\ (d = Exact.NegInf \/ exists q, d = Exact.Fin q /\ q <= 10000)).
Proof.
  split.
  - intros O random page step name Ha Hs.
    eexists. split; [now apply wait_step_runs |].
    apply binary64_wait_bound.
  - intros sqrtQ O random N page step name Ha Hs.
    eexists. split; [now apply (wait_step_runs _ (rationals sqrtQ)) |].
    apply rational_wait_bound.
Qed.

End WaitFacts.

Section WaitExample.
Local Open Scope string_scope.

Lemma wait_step_waits_at_most_10000_witness :
  exists d : float,
    Scenarios.executeStep (O := idle "about:blank" stablePage)
      None (fun _ => int 0) acceptingPage "http://legacy.test"
      (withTimeout (bareStep "wait") (Some (int 60000))) "login"
    = ScenarioRunner.await acceptingPage (WaitForTimeout d)
    /\ PrimFloat.ltb (int 10000) d = false
    /\ PrimFloat.is_nan d = false.
Proof.
  apply (proj1 (wait_step_waits_at_most_10000 None "http://legacy.test")
           (idle "about:blank" stablePage) (fun _ => int 0) acceptingPage
           (withTimeout (bareStep "wait") (Some (int 60000))) "login");
    reflexivity.
Defined.

End WaitExample.
(** * The login before a scenario *)

Section LoginFacts.
Context {A : Type} {N : JSNumber A} {O : Outside A}.
Import ScenarioRunner Scenarios.
Local Open Scope string_scope.

Variable testData : option TestData.
Variable random : nat -> A.
Variable page : list (PageCall A) -> PageCall A -> option string.
Variable scenarios : option (list (TestScenario A)).
Variable baseUrl : string.
Variable appName : string.

(** X29.  [isLoginSuccessful] never throws and makes one call on the page:
    it waits up to 2000 ms for an error message to be visible.  The login
    counts as successful exactly when the current address does not hold
    "/login" and that wait has failed, so a successful check takes the whole
    time allowed.  When the address still holds "/login" after the login,
    [runScenarioWithAuth] throws "Login failed before running scenario"
    whatever the page shows, and no step of the scenario runs. *)
Theorem isLoginSuccessful_needs_no_error (w : World A) :
  let call := WaitFor LoginPage.errorMessage "visible" (int 2000) in
  let w' := {| calls := (calls w ++ [call])%list; draws := draws w |} in
  LoginPage.isLoginSuccessful page w
  = (Ok (negb (Str.includes "/login" (current_url w))
         && match page (calls w) call with
            | Some _ => true
            | None => false
            end), w')
  /\ (forall name environment iteration w0 wa,
        navigateToLogin w0 = (Ok tt, wa) ->
        performLogin wa = (Ok tt, w) ->
        Str.includes "/login" (current_url w) = true ->
        runScenarioWithAuth testData random page scenarios baseUrl appName
          name environment iteration None w0
        = (Throw (Error "Login failed before running scenario"), w')).
Proof.
  intros call w'.
  assert (Hcheck :
            LoginPage.isLoginSuccessful page w
            = (Ok (negb (Str.includes "/login" (current_url w))
                   && match page (calls w) call with
                      | Some _ => true
                      | None => false
                      end), w')).
  { unfold LoginPage.isLoginSuccessful, LoginPage.elementExists,
      LoginPage.getCurrentUrl, seq, await, ret.
    fold call. destruct (page (calls w) call); reflexivity. }
  split; [exact Hcheck |].
  intros name environment iteration w0 wa Hnav Hlogin Hurl.
  unfold runScenarioWithAuth, seq.
  rewrite Hnav, Hlogin, Hcheck, Hurl. reflexivity.
Qed.

End LoginFacts.

Section LoginExample.
Local Open Scope string_scope.

Lemma isLoginSuccessful_needs_no_error_witness :
  Scenarios.runScenarioWithAuth (A := float)
    (O := idle "http://legacy.test/login" stablePage)
    None (fun _ => int 0) acceptingPage (Some [brokenLogin])
    "http://legacy.test" "legacy" "login" "pre" (int 1) None freshWorld
  = (Throw (Error "Login failed before running scenario"),
     {| calls := [WaitFor LoginPage.errorMessage "visible" (int 2000)];
        draws := 0 |}).
Proof.
  apply (proj2 (isLoginSuccessful_needs_no_error (A := float)
                  (O := idle "http://legacy.test/login" stablePage)
                  None (fun _ => int 0) acceptingPage (Some [brokenLogin])
                  "http://legacy.test" "legacy" freshWorld)
           "login" "pre" (int 1) freshWorld freshWorld);
    reflexivity.
Defined.

End LoginExample.
(** * The values of the fill steps *)

Section ValueFacts.
Context {A : Type} {N : JSNumber A}.
Import ScenarioRunner.
Local Open Scope string_scope.

Variable random : nat -> A.

Lemma seq_ok {T U : Type} (m : M (A := A) T) (k : T -> M U)
  (w w' : World A) (v : T) :
  m w = (Ok v, w') -> seq m k w = k v w'.
Proof. intros H. unfold seq. now rewrite H. Qed.

(** Without test data a key without a dot finds nothing: the object read
    is empty, and what it inherits is no string. *)
Lemma getTestDataValue_no_data (key : string) :
  free_of "." key = true -> getTestDataValue None key = "".
Proof.
  intros Hkey. unfold getTestDataValue, Str.split.
  now rewrite (split_dots_key key "" Hkey).
Qed.

(** X11.  Without test data (the file is missing or has no [testData])
    [processValue] fails open: a value that holds neither [${username}] nor
    [${password}] comes back as it is, whatever placeholders it holds, and
    nothing is drawn. *)
Theorem processValue_without_test_data (value : string) (w : World A) :
  Str.includes "${username}" value = false ->
  Str.includes "${password}" value = false ->
  processValue None random value w = (Ok value, w).
Proof.
  intros Hu Hp. unfold processValue.
  destruct (Str.includes "${" value); [| reflexivity].
  cbn [negb]. rewrite Hu. unfold seq at 1. unfold ret at 1.
  rewrite Hp. unfold seq, ret.
  rewrite replace_placeholders_same; [reflexivity |].
  intros m key Hkey. now rewrite (getTestDataValue_no_data key Hkey).
Qed.

Lemma getRandomUser_empty (data : TestData) (w : World A) :
  users data = Some [] ->
  getRandomUser (Some data) random w
  = (Ok None, {| calls := calls w; draws := S (draws w) |}).
Proof.
  intros Hd. unfold getRandomUser. rewrite Hd.
  unfold seq, Math_random, ret.
  destruct (to_index _) as [[| i] |]; reflexivity.
Qed.

(** X13.  With an empty user pool in the test data, every value that holds
    [${username}] or [${password}] makes [processValue] throw a TypeError
    (the user read off the empty array is [undefined]), after one draw: the
    default user is used only when the data has no [users] at all. *)
Theorem processValue_empty_pool (data : TestData) (value : string)
  (w : World A) :
  users data = Some [] ->
  Str.includes "${username}" value = true
  \/ Str.includes "${password}" value = true ->
  processValue (Some data) random value w
  = (Throw (TypeError "Cannot read properties of undefined"),
     {| calls := calls w; draws := S (draws w) |}).
Proof.
  intros Hd Hv.
  assert (Hdollar : Str.includes "${" value = true).
  { destruct Hv as [Hv | Hv].
    - now apply (includes_of_longer "${" "username}").
    - now apply (includes_of_longer "${" "password}"). }
  unfold processValue. rewrite Hdollar. cbn [negb].
  destruct (Str.includes "${username}" value) eqn:Hu.
  - unfold seq at 1 2. now rewrite (getRandomUser_empty data w Hd).
  - destruct Hv as [Hv | Hv]; [discriminate |].
    unfold seq at 1. unfold ret at 1. rewrite Hv.
    unfold seq at 1 2. now rewrite (getRandomUser_empty data w Hd).
Qed.

Lemma getRandomUser_at (testData : option TestData) (w : World A)
  (i : nat) :
  to_index (Math_floor (random (draws w) * len (userPool testData))%js)
  = Some i ->
  getRandomUser testData random w
  = (Ok (nth_error (userPool testData) i),
     {| calls := calls w; draws := S (draws w) |}).
Proof.
  intros Hi. unfold getRandomUser, seq, Math_random, ret.
  fold (userPool testData). now rewrite Hi.
Qed.

(** X14.  The user name and the password of one value come from two
    draws: in a value that holds [${username}] and then [${password}], the
    first is replaced by the user name of the user drawn first and the second
    by the password of the user drawn next, who can be another user.  (The
    texts around the placeholders, the user name and the password are taken
    without dollars.) *)
Theorem processValue_draws_user_twice (testData : option TestData)
  (before between after : string) (i j : nat) (u v : User) (w : World A) :
  to_index (Math_floor (random (draws w) * len (userPool testData))%js)
  = Some i ->
  to_index (Math_floor (random (S (draws w)) * len (userPool testData))%js)
  = Some j ->
  nth_error (userPool testData) i = Some u ->
  nth_error (userPool testData) j = Some v ->
  forallb (free_of "$") [before; between; after; username u; password v]
  = true ->
  processValue testData random
    (before ++ "${username}" ++ between ++ "${password}" ++ after) w
  = (Ok (before ++ username u ++ between ++ password v ++ after),
     {| calls := calls w; draws := S (S (draws w)) |}).
Proof.
  intros Hi Hj Hu Hv Hfree.
  cbn [forallb] in Hfree. rewrite andb_true_r in Hfree.
  apply andb_true_iff in Hfree. destruct Hfree as [Hb Hfree].
  apply andb_true_iff in Hfree. destruct Hfree as [Hm Hfree].
  apply andb_true_iff in Hfree. destruct Hfree as [Ha Hfree].
  apply andb_true_iff in Hfree. destruct Hfree as [Hname Hpass].
  set (value := before ++ "${username}" ++ between ++ "${password}" ++ after).
  set (w1 := {| calls := calls w; draws := S (draws w) |}).
  assert (Hinc : Str.includes "${username}" value = true)
    by apply includes_append.
  assert (Hfirst :
            seq (getRandomUser testData random) (fun user =>
            seq (field username user) (fun name =>
            ret (Str.replace "${username}" name value))) w
            = (Ok (before ++ username u ++ between ++ "${password}" ++ after),
               w1)).
  { unfold seq. rewrite (getRandomUser_at testData w i Hi), Hu.
    cbn [field]. unfold ret. f_equal. f_equal.
    exact (replace_first "{username}" (username u) before
             (between ++ "${password}" ++ after) Hb Hname). }
  set (value1 := before ++ username u ++ between ++ "${password}" ++ after)
    in *.
  assert (Hvalue1 : value1
                    = (before ++ username u ++ between)
                      ++ "${password}" ++ after)
    by (unfold value1; now rewrite !append_assoc).
  assert (Hinc1 : Str.includes "${password}" value1 = true)
    by (rewrite Hvalue1; apply includes_append).
  assert (Hsecond :
            seq (getRandomUser testData random) (fun user =>
            seq (field password user) (fun pass =>
            ret (Str.replace "${password}" pass value1))) w1
            = (Ok (before ++ username u ++ between ++ password v ++ after),
               {| calls := calls w; draws := S (S (draws w)) |})).
  { unfold seq. rewrite (getRandomUser_at testData w1 j Hj), Hv.
    cbn [field]. unfold ret. f_equal. f_equal. rewrite Hvalue1.
    rewrite (replace_first "{password}" (password v)
               (before ++ username u ++ between) after).
    - now rewrite !append_assoc.
    - rewrite !free_of_append. now rewrite Hb, Hname, Hm.
    - exact Hpass. }
  unfold processValue.
  rewrite (includes_of_longer "${" "username}" value Hinc). cbn [negb].
  rewrite Hinc. rewrite (seq_ok _ _ _ _ _ Hfirst).
  rewrite Hinc1. rewrite (seq_ok _ _ _ _ _ Hsecond).
  unfold ret. rewrite replace_placeholders_dollar_free; [reflexivity |].
  rewrite !free_of_append. now rewrite Hb, Hname, Hm, Hpass, Ha.
Qed.

End ValueFacts.

Section ValueExamples.
Local Open Scope string_scope.

Lemma processValue_without_test_data_witness :
  ScenarioRunner.processValue (A := float) None (fun _ => int 0)
    "Dear ${title} ${name}" freshWorld
  = (Ok "Dear ${title} ${name}", freshWorld).
Proof.
  apply (processValue_without_test_data (fun _ : nat => int 0)
           "Dear ${title} ${name}" freshWorld eq_refl eq_refl).
Defined.

Lemma processValue_empty_pool_witness :
  ScenarioRunner.processValue (A := float)
    (Some {| users := Some []; entries := [] |}) (fun _ => int 0)
    "${username}" freshWorld
  = (Throw (TypeError "Cannot read properties of undefined"),
     {| calls := []; draws := 1 |}).
Proof.
  apply (processValue_empty_pool (fun _ : nat => int 0)
           {| users := Some []; entries := [] |} "${username}" freshWorld
           eq_refl (or_introl eq_refl)).
Defined.

Lemma processValue_draws_user_twice_witness :
  ScenarioRunner.processValue (A := float) (Some twoUsers)
    (fun k => if (k =? 0)%nat then lit (1 # 10) else lit (9 # 10))
    "${username}:${password}" freshWorld
  = (Ok "alice:hunter2", {| calls := []; draws := 2 |}).
Proof.
  apply (processValue_draws_user_twice
           (fun k => if (k =? 0)%nat then lit (1 # 10) else lit (9 # 10))
           (Some twoUsers) "" ":" "" 0 1
           {| username := "alice"; password := "secret" |}
           {| username := "bob"; password := "hunter2" |}
           freshWorld);
    vm_compute; reflexivity.
Defined.

End ValueExamples.

(** * The user drawn from a pool of one, in binary64 *)

Section Binary64Draw.
Import ScenarioRunner.
Local Open Scope Z_scope.

(** A number of [[0, 1)] has the floor 0, which denotes the index 0. *)
Lemma floor_below_one (r : float) :
  PrimFloat.ltb r PrimFloat.one = true ->
  PrimFloat.ltb r PrimFloat.zero = false ->
  isFinite r = true /\ Binary64.index (Binary64.floor r) = Some 0%nat.
Proof.
  intros H1 H0. pose proof (Prim2SF_valid r) as Hb.
  rewrite FloatAxioms.ltb_spec in H1, H0. unfold SFltb in H1, H0.
  change (Prim2SF PrimFloat.zero) with (S754_zero false) in H0.
  change (Prim2SF PrimFloat.one)
    with (S754_finite false 4503599627370496 (-52)) in H1.
  unfold isFinite, Binary64.index, Binary64.floor.
  destruct (Prim2SF r) as [s | s | | s m e] eqn:Er.
  - rewrite Er. now split.
  - destruct s; discriminate.
  - discriminate.
  - destruct s; [discriminate H0 |]. split; [reflexivity |].
    cbn in Hb.
    rewrite (SFcompare_units (S754_finite false m e)
               (S754_finite false 4503599627370496 (-52)) Hb eq_refl
               eq_refl eq_refl) in H1.
    cbn [units cond_Zopp] in H1.
    destruct (Z.compare_spec (Zpos m * 2 ^ (e + 1074))
                (4503599627370496 * 2 ^ (-52 + 1074))) as [| Hlt |];
      try discriminate.
    apply bounded_inv in Hb. cbv zeta in Hb. destruct Hb as (_ & He & _).
    assert (Hu : 0 < 2 ^ (e + 1074)) by (apply Z.pow_pos_nonneg; lia).
    replace (4503599627370496 * 2 ^ (-52 + 1074)) with (2 ^ 1074) in Hlt
      by (vm_compute; reflexivity).
    assert (Hneg : e < 0).
    { destruct (Z.lt_ge_cases e 0) as [H | H]; [exact H | exfalso].
      assert (2 ^ 1074 <= 2 ^ (e + 1074)) by (apply Z.pow_le_mono_r; lia).
      nia. }
    replace (0 <=? e) with false by (symmetry; apply Z.leb_gt; exact Hneg).
    assert (Hsmall : Zpos m < 2 ^ (- e)).
    { replace 1074 with (- e + (e + 1074)) in Hlt at 2 by lia.
      rewrite (Z.pow_add_r 2 (- e) (e + 1074)) in Hlt by lia.
      apply Z.mul_lt_mono_pos_r in Hlt; assumption. }
    rewrite Z.shiftr_div_pow2, Z.div_small by lia.
    reflexivity.
Qed.

(** X23.  In binary64, when the pool holds one user (the default user when
    the test data lists none), [getRandomUser] returns that user for every
    [Math.random()] of [[0, 1)], after one draw. *)
Theorem getRandomUser_single_user (testData : option TestData)
  (random : nat -> float) (w : World float) (u : User) :
  userPool testData = [u] ->
  PrimFloat.ltb (random (draws w)) PrimFloat.one = true ->
  PrimFloat.ltb (random (draws w)) PrimFloat.zero = false ->
  getRandomUser testData random w
  = (Ok (Some u), {| calls := calls w; draws := S (draws w) |}).
Proof.
  intros Hpool H1 H0.
  destruct (floor_below_one _ H1 H0) as [Hfin Hindex].
  rewrite (getRandomUser_at random testData w 0).
  - now rewrite Hpool.
  - rewrite Hpool. cbn [to_index Math_floor nmul binary64].
    replace (len [u]) with PrimFloat.one by (vm_compute; reflexivity).
    replace (PrimFloat.mul (random (draws w)) PrimFloat.one)
      with (random (draws w)); [exact Hindex |].
    symmetry. apply Prim2SF_inj. rewrite FloatAxioms.mul_spec.
    change (Prim2SF PrimFloat.one)
      with (S754_finite false 4503599627370496 (-52)).
    exact (SFmul_one _ (Prim2SF_valid _) Hfin).
Qed.

End Binary64Draw.

Section Binary64DrawExample.

Lemma getRandomUser_single_user_witness :
  ScenarioRunner.getRandomUser None (fun _ => lit (999 # 1000)) freshWorld
  = (Ok (Some {| username := "testuser@example.com";
                 password := "testpass" |}),
     {| calls := []; draws := 1 |}).
Proof.
  apply (getRandomUser_single_user None (fun _ => lit (999 # 1000))
           freshWorld); [reflexivity | vm_compute; reflexivity ..].
Defined.

End Binary64DrawExample.
(** * The shape of a comparison *)

Section ComparisonShape.
Context {A : Type} {N : JSNumber A}.
Import PerformanceAnalyzer.
Local Open Scope string_scope.

Variables app1Results app2Results : list (MetricsResult A).
Variable scenarioName : string.

Lemma pushed_not_compared (m : string) :
  compared app1Results app2Results m = false ->
  pushed app1Results app2Results scenarioName m = [].
Proof.
  unfold compared, pushed. cbv zeta.
  destruct (extractMetricValues app1Results m) as [| a1 r1]; [reflexivity |].
  destruct (extractMetricValues app2Results m) as [| a2 r2]; [| discriminate].
  intros _. now destruct (calculateStatistics (a1 :: r1)).
Qed.

Lemma pushed_compared (m : string) :
  compared app1Results app2Results m = true ->
  exists c,
    pushed app1Results app2Results scenarioName m = [c]
    /\ scenario c = scenarioName
    /\ metric c = m
    /\ isSignificantDifference (extractMetricValues app1Results m)
         (extractMetricValues app2Results m)
       = Ok (significantDifference c)
    /\ winner c = determineWinner (mean (app1 c)) (mean (app2 c)) m.
Proof.
  unfold compared, pushed. cbv zeta.
  destruct (extractMetricValues app1Results m) as [| a1 r1] eqn:H1;
    [discriminate |].
  destruct (extractMetricValues app2Results m) as [| a2 r2] eqn:H2;
    [discriminate |].
  intros _.
  destruct (calculateStatistics_cons a1 r1) as (s1 & -> & _).
  destruct (calculateStatistics_cons a2 r2) as (s2 & -> & _).
  destruct (isSignificantDifference_total (a1 :: r1) (a2 :: r2)) as [b ->].
  eexists. repeat split.
Qed.

Lemma metrics_of_pushed (ms : list string) :
  map (fun c => metric c)
    (flat_map (pushed app1Results app2Results scenarioName) ms)
  = filter (compared app1Results app2Results) ms.
Proof.
  induction ms as [| m ms IH]; [reflexivity |].
  cbn [flat_map filter]. rewrite map_app, IH.
  destruct (compared app1Results app2Results m) eqn:Hm.
  - destruct (pushed_compared m Hm) as (c & -> & _ & <- & _). reflexivity.
  - now rewrite (pushed_not_compared m Hm).
Qed.

Lemma NoDup_metrics : NoDup metrics.
Proof.
  unfold metrics.
  repeat (constructor; [cbn; intuition discriminate |]). constructor.
Qed.

(** X15.  [compareApplications] never throws and returns one comparison
    for each of the nine metrics of which both applications have a usable
    value, in the order of the list [lcp, fid, inp, cls, ttfb, fcp, tti,
    totalPageLoadTime, domContentLoaded]: no metric twice, nine comparisons
    at most, each with the scenario name that was passed. *)
Theorem compareApplications_one_per_metric_in_order :
  exists comparisons,
    compareApplications app1Results app2Results scenarioName = Ok comparisons
    /\ map (fun c => metric c) comparisons
       = filter (compared app1Results app2Results) metrics
    /\ NoDup (map (fun c => metric c) comparisons)
    /\ (List.length comparisons <= 9)%nat
    /\ forall c, In c comparisons -> scenario c = scenarioName.
Proof.
  exists (flat_map (pushed app1Results app2Results scenarioName) metrics).
  split; [apply compareApplications_pushed |].
  split; [apply metrics_of_pushed |].
  split; [| split].
  - rewrite metrics_of_pushed. apply NoDup_filter, NoDup_metrics.
  - rewrite <- (length_map (fun c => metric c)), metrics_of_pushed.
    apply (filter_length_le (compared app1Results app2Results) metrics).
  - intros c Hc. apply in_flat_map in Hc. destruct Hc as (m & _ & Hc).
    destruct (compared app1Results app2Results m) eqn:Hm.
    + destruct (pushed_compared m Hm) as (c' & Hp & Hs & _).
      rewrite Hp in Hc. destruct Hc as [<- | []]. exact Hs.
    + rewrite (pushed_not_compared m Hm) in Hc. contradiction.
Qed.

(** X16.  A regression that [detectRegressions] reports among the
    comparisons of [compareApplications] is one where the mean of the first
    application is below the mean of the second ([mean1 < mean2] is true),
    on one of the nine metrics, and with two usable values at least on each
    side: with fewer the difference is never significant. *)
Theorem regressions_of_a_comparison (threshold : option A)
  (comparisons : list (ComparisonResult A)) (c : ComparisonResult A) :
  compareApplications app1Results app2Results scenarioName = Ok comparisons ->
  In c (detectRegressions comparisons threshold) ->
  (mean (app1 c) <? mean (app2 c))%js = true
  /\ In (metric c) metrics
  /\ (2 <= List.length (extractMetricValues app1Results (metric c)))%nat
  /\ (2 <= List.length (extractMetricValues app2Results (metric c)))%nat.
Proof.
  rewrite compareApplications_pushed. intros Hcs Hc.
  assert (Hsame : comparisons
                  = flat_map (pushed app1Results app2Results scenarioName)
                      metrics) by congruence.
  subst comparisons. clear Hcs.
  unfold detectRegressions in Hc. apply filter_In in Hc.
  destruct Hc as [Hin Hkeep].
  apply andb_true_iff in Hkeep. destruct Hkeep as [Hkeep Hsig].
  apply andb_true_iff in Hkeep. destruct Hkeep as [Hwin _].
  apply Winner_eqb_eq in Hwin.
  apply in_flat_map in Hin. destruct Hin as (m & Hm & Hin).
  destruct (compared app1Results app2Results m) eqn:Hcmp.
  2:{ rewrite (pushed_not_compared m Hcmp) in Hin. contradiction. }
  destruct (pushed_compared m Hcmp) as (c' & Hp & _ & Hmc & Hsd & Hw).
  rewrite Hp in Hin. destruct Hin as [<- | []].
  rewrite Hmc. split; [| split; [exact Hm |]].
  - rewrite Hw, (determineWinner_lower _ _ m Hm) in Hwin.
    destruct (_ <? lit (5 # 100))%js; [discriminate |].
    now destruct (mean (app1 c') <? mean (app2 c'))%js.
  - rewrite Hsig in Hsd.
    destruct (isSignificantDifference_cases
                (extractMetricValues app1Results m)
                (extractMetricValues app2Results m)) as [Hfew _].
    assert (Hnot : ~ ((List.length (extractMetricValues app1Results m) < 2)%nat
                      \/ (List.length (extractMetricValues app2Results m) < 2)
                         %nat)).
    { intros H. rewrite (Hfew H) in Hsd. discriminate. }
    lia.
Qed.

End ComparisonShape.

Section ComparisonExample.
Local Open Scope string_scope.

Lemma regressions_of_a_comparison_witness :
  let slower :=
    comparisonsOf
      (PerformanceAnalyzer.compareApplications (A := float)
         (runsWithLcp [1000; 1010; 990]) (runsWithLcp [2000; 2010; 1990])
         "login") in
  map (fun c => metric c) (PerformanceAnalyzer.detectRegressions slower None)
  = ["lcp"]
  /\ Forall (fun c => PrimFloat.ltb (mean (app1 c)) (mean (app2 c)) = true)
       (PerformanceAnalyzer.detectRegressions slower None).
Proof.
  cbv zeta. split; [vm_compute; reflexivity |].
  apply Forall_forall. intros c Hc.
  refine (proj1 (regressions_of_a_comparison (A := float)
                   (runsWithLcp [1000; 1010; 990])
                   (runsWithLcp [2000; 2010; 1990]) "login" None
                   (comparisonsOf
                      (PerformanceAnalyzer.compareApplications
                         (runsWithLcp [1000; 1010; 990])
                         (runsWithLcp [2000; 2010; 1990]) "login"))
                   c _ Hc)).
  vm_compute. reflexivity.
Defined.

End ComparisonExample.

(** * The analysis after the runs *)

Section AnalysisFacts.
Context {A : Type} {N : JSNumber A}.
Import PerformanceAnalyzer ComparisonTest.
Local Open Scope string_scope.

Variables app1Results app2Results : list (MetricsResult A).

Lemma extractMetricValues_nil (m : string) :
  extractMetricValues (A := A) [] m = [].
Proof. reflexivity. Qed.

Lemma compareApplications_nothing (results : list (MetricsResult A))
  (name : string) :
  compareApplications [] results name = Ok []
  /\ compareApplications results [] name = Ok [].
Proof.
  split; rewrite compareApplications_pushed.
  - assert (H : forall ms, flat_map (pushed [] results name) ms = []).
    { induction ms as [| m ms IH]; [reflexivity |]. cbn [flat_map].
      now rewrite IH, (pushed_not_compared [] results name m). }
    now rewrite H.
  - assert (H : forall ms, flat_map (pushed results [] name) ms = []).
    { induction ms as [| m ms IH]; [reflexivity |]. cbn [flat_map].
      rewrite IH, (pushed_not_compared results [] name m); [reflexivity |].
      unfold compared. cbn. apply andb_false_r. }
    now rewrite H.
Qed.

Lemma analyzeScenario_appends (comparisonResults : list (ComparisonResult A))
  (name : string) :
  analyzeScenario app1Results app2Results comparisonResults name
  = Ok (comparisonResults
        ++ comparisonsOf
             (compareApplications (ofScenario name app1Results)
                (ofScenario name app2Results) name))%list.
Proof.
  unfold analyzeScenario. fold (ofScenario name app1Results).
  fold (ofScenario name app2Results).
  destruct (ofScenario name app1Results) as [| r1 l1].
  - cbn [List.length Nat.ltb Nat.leb andb].
    rewrite (proj1 (compareApplications_nothing _ name)). cbn.
    now rewrite app_nil_r.
  - destruct (ofScenario name app2Results) as [| r2 l2].
    + cbn [List.length Nat.ltb Nat.leb andb].
      rewrite (proj2 (compareApplications_nothing _ name)). cbn.
      now rewrite app_nil_r.
    + cbn [List.length Nat.ltb Nat.leb andb].
      rewrite compareApplications_pushed. reflexivity.
Qed.

Lemma analyzeResults_loop (names : list string)
  (comparisonResults : list (ComparisonResult A)) :
  fold_left
    (fun acc name =>
       bind acc (fun comparisonResults =>
         analyzeScenario app1Results app2Results comparisonResults name))
    names (Ok comparisonResults)
  = Ok (comparisonResults
        ++ flat_map
             (fun name =>
                comparisonsOf
                  (compareApplications (ofScenario name app1Results)
                     (ofScenario name app2Results) name)) names)%list.
Proof.
  revert comparisonResults.
  induction names as [| name names IH]; intros comparisonResults.
  - cbn. now rewrite app_nil_r.
  - cbn [fold_left bind flat_map]. rewrite analyzeScenario_appends, IH.
    now rewrite app_assoc.
Qed.

(** X17.  The analysis after the runs never throws.  Its comparisons are
    those of [compareApplications] on the samples of each configured
    scenario, scenario after scenario in the order of the configuration; the
    test that both applications have samples of the scenario changes
    nothing, since a comparison with no sample on one side is empty.  So a
    comparison belongs to a configured scenario of which both applications
    have a sample, and a scenario that only one application completed is
    left out without a word. *)
Theorem analyzeResults_by_scenario (names : list string) :
  analyzeResults names app1Results app2Results
  = Ok (flat_map
          (fun name =>
             comparisonsOf
               (compareApplications (ofScenario name app1Results)
                  (ofScenario name app2Results) name)) names)
  /\ forall c,
       In c (comparisonsOf (analyzeResults names app1Results app2Results)) ->
       In (scenario c) names
       /\ (exists r, In r app1Results /\ run_scenario r = scenario c)
       /\ (exists r, In r app2Results /\ run_scenario r = scenario c).
Proof.
  assert (Hall : analyzeResults names app1Results app2Results
                 = Ok (flat_map
                         (fun name =>
                            comparisonsOf
                              (compareApplications
                                 (ofScenario name app1Results)
                                 (ofScenario name app2Results) name)) names)).
  { unfold analyzeResults. now rewrite analyzeResults_loop. }
  split; [exact Hall |].
  rewrite Hall. cbn [comparisonsOf]. intros c Hc.
  apply in_flat_map in Hc. destruct Hc as (name & Hname & Hc).
  rewrite compareApplications_pushed in Hc. cbn [comparisonsOf] in Hc.
  apply in_flat_map in Hc. destruct Hc as (m & _ & Hc).
  destruct (compared (ofScenario name app1Results)
              (ofScenario name app2Results) m) eqn:Hm.
  2:{ rewrite (pushed_not_compared _ _ name m Hm) in Hc. contradiction. }
  destruct (pushed_compared _ _ name m Hm) as (c' & Hp & Hs & _).
  rewrite Hp in Hc. destruct Hc as [<- | []]. rewrite Hs.
  split; [exact Hname |].
  unfold compared in Hm. apply andb_true_iff in Hm. destruct Hm as [H1 H2].
  assert (Hsample : forall results,
             negb (List.length
                     (extractMetricValues (ofScenario name results) m)
                   =? 0)%nat = true ->
             exists r, In r results /\ run_scenario r = name).
  { intros results H.
    destruct (ofScenario name results) as [| r l] eqn:Hr; [discriminate |].
    assert (Hin : In r (ofScenario name results)) by (rewrite Hr; now left).
    unfold ofScenario in Hin. apply filter_In in Hin.
    destruct Hin as [Hin Heq]. apply String.eqb_eq in Heq. now exists r. }
  split; now apply Hsample.
Qed.

End AnalysisFacts.

(** * The type of a resource *)

Section ResourceFacts.
Local Open Scope string_scope.

(** X18.  [getResourceType] calls every address that holds ".js" a
    script, wherever it stands and whatever follows: "data.json",
    "index.jsp" and "logo.png?from=app.js" are scripts. *)
Theorem getResourceType_script_anywhere (before after : string) :
  MetricsCollector.getResourceType (before ++ ".js" ++ after) = "script"
  /\ MetricsCollector.getResourceType (before ++ ".json") = "script"
  /\ MetricsCollector.getResourceType "logo.png?from=app.js" = "script"
  /\ MetricsCollector.getResourceType "logo.PNG" = "image"
  /\ MetricsCollector.getResourceType "logo.png?v=2" = "other".
Proof.
  assert (H : forall a b,
             MetricsCollector.getResourceType (a ++ ".js" ++ b) = "script").
  { intros a b. unfold MetricsCollector.getResourceType.
    now rewrite includes_append. }
  split; [apply H | split; [apply (H before "on") |]].
  repeat split; reflexivity.
Qed.

End ResourceFacts.
(** * The threshold of the regressions *)

Section RationalVerdicts.
Variable sqrtQ : Q -> Q.
Let E : JSNumber Exact.xnum := rationals sqrtQ.
Local Existing Instance E.
Import PerformanceAnalyzer.

Lemma above_threshold (t1 t2 : Q) (x : Exact.xnum) :
  t1 <= t2 -> Exact.ltb (Exact.Fin t2) x = true ->
  Exact.ltb (Exact.Fin t1) x = true.
Proof.
  intros Ht. destruct x as [v | | |]; cbn; try (intros H; exact H).
  intros H. apply Qlt_bool_iff in H. apply Qlt_bool_iff. lra.
Qed.

(** X22.  Raising the threshold of [detectRegressions] only removes
    regressions: what is reported at a threshold is reported at every lower
    one.  The regressions that the comparison test reports, at 15 %, are
    among those of the default threshold, 10 %. *)
Theorem regressions_shrink_with_threshold
  (comparisons : list (ComparisonResult Exact.xnum)) (t1 t2 : Q) :
  t1 <= t2 ->
  incl (detectRegressions comparisons (Some (Exact.Fin t2)))
    (detectRegressions comparisons (Some (Exact.Fin t1)))
  /\ incl (ComparisonTest.checkForRegressions comparisons)
       (detectRegressions comparisons None).
Proof.
  intros Ht.
  assert (H : forall a b, a <= b ->
             incl (detectRegressions comparisons (Some (Exact.Fin b)))
               (detectRegressions comparisons (Some (Exact.Fin a)))).
  { intros a b Hab c Hc. unfold detectRegressions in *.
    apply filter_In in Hc. destruct Hc as [Hin Hkeep].
    apply filter_In. split; [exact Hin |].
    apply andb_true_iff in Hkeep. destruct Hkeep as [Hkeep Hsig].
    apply andb_true_iff in Hkeep. destruct Hkeep as [Hwin Habove].
    rewrite Hwin, Hsig. cbn [andb]. rewrite andb_true_r.
    exact (above_threshold a b _ Hab Habove). }
  split; [now apply H |].
  unfold ComparisonTest.checkForRegressions.
  apply (H (inject_Z 10) (inject_Z 15)). now compute.
Qed.

End RationalVerdicts.
Section RationalVerdictExamples.
Local Open Scope string_scope.

Lemma regressions_shrink_with_threshold_witness :
  incl
    (PerformanceAnalyzer.detectRegressions (N := rationals (fun q => q))
       [slowerLcp] (Some (Exact.Fin 15)))
    (PerformanceAnalyzer.detectRegressions (N := rationals (fun q => q))
       [slowerLcp] (Some (Exact.Fin 10))).
Proof.
  apply (regressions_shrink_with_threshold (fun q => q) [slowerLcp] 10 15).
  vm_compute. discriminate.
Defined.

End RationalVerdictExamples.

(** * Winner and significance in binary64 *)

Section Binary64Verdicts.
Import PerformanceAnalyzer.
Local Open Scope Z_scope.

(** The sign given to a rounded number is all that depends on it. *)
Lemma SFabs_binary_round (s : bool) (p : positive) (e : Z) :
  SFabs (binary_round prec emax s p e)
  = SFabs (binary_round prec emax false p e).
Proof.
  unfold binary_round.
  destruct (shl_align p e (fexp prec emax (Zpos (digits2_pos p) + e)))
    as [mz ez].
  unfold binary_round_aux.
  destruct (shr_fexp prec emax (Zpos mz) ez loc_Exact) as [mrs1 e1].
  destruct (shr_fexp prec emax
              (round_nearest_even (shr_m mrs1) (loc_of_shr_record mrs1))
              e1 loc_Exact) as [mrs2 e2].
  destruct (shr_m mrs2); [reflexivity | | reflexivity].
  destruct (e2 <=? emax - prec); reflexivity.
Qed.

Lemma SFabs_binary_normalize (z : Z) (e : Z) :
  SFabs (binary_normalize prec emax (- z) e false)
  = SFabs (binary_normalize prec emax z e false).
Proof.
  destruct z as [| p | p]; cbn [Z.opp binary_normalize]; [reflexivity | |].
  - apply SFabs_binary_round.
  - symmetry. apply SFabs_binary_round.
Qed.

Lemma SFabs_sub_comm (x y : spec_float) :
  SFabs (SFsub prec emax x y) = SFabs (SFsub prec emax y x).
Proof.
  destruct x as [sx | sx | | sx mx ex], y as [sy | sy | | sy my ey];
    cbn [SFsub SFabs]; try reflexivity;
    try (destruct sx, sy; reflexivity).
  cbv zeta. rewrite (Z.min_comm ey ex).
  rewrite <- SFabs_binary_normalize. f_equal. f_equal. lia.
Qed.

Lemma SFadd_comm (x y : spec_float) :
  SFadd prec emax x y = SFadd prec emax y x.
Proof.
  destruct x as [sx | sx | | sx mx ex], y as [sy | sy | | sy my ey];
    cbn [SFadd]; try reflexivity;
    try (destruct sx, sy; reflexivity).
  cbv zeta. rewrite (Z.min_comm ey ex). f_equal. lia.
Qed.

(** [|a - b|] is [|b - a|] and [a + b] is [b + a], to the bit. *)
Lemma abs_sub_comm (a b : float) :
  PrimFloat.abs (PrimFloat.sub a b) = PrimFloat.abs (PrimFloat.sub b a).
Proof.
  apply Prim2SF_inj. rewrite !FloatAxioms.abs_spec, !FloatAxioms.sub_spec.
  apply SFabs_sub_comm.
Qed.

Lemma add_comm (a b : float) : PrimFloat.add a b = PrimFloat.add b a.
Proof.
  apply Prim2SF_inj. rewrite !FloatAxioms.add_spec. apply SFadd_comm.
Qed.

(** X21.  In binary64 the verdict of [determineWinner] does not depend on
    which application comes first: for two means of which one is less than
    the other, and every metric, exchanging the means exchanges [app1] and
    [app2], and a tie stays a tie. *)
Theorem determineWinner_exchanged (a b : float) (metric : string) :
  PrimFloat.ltb a b || PrimFloat.ltb b a = true ->
  determineWinner b a metric = swapped (determineWinner a b metric).
Proof.
  intros Hab. unfold determineWinner. cbv zeta.
  cbn [Math_abs nsub nadd ndiv nltb binary64].
  rewrite (abs_sub_comm b a), (add_comm b a).
  destruct (PrimFloat.ltb _ (lit (5 # 100))); [reflexivity |].
  assert (Hone : PrimFloat.ltb b a = negb (PrimFloat.ltb a b)).
  { destruct (PrimFloat.ltb a b) eqn:Hlt.
    - now rewrite (binary64_lt_asym _ _ Hlt).
    - cbn [orb] in Hab. now rewrite Hab. }
  rewrite Hone.
  destruct (includes lowerIsBetter metric), (PrimFloat.ltb a b); reflexivity.
Qed.

(** A difference of two equal numbers is [+0], or NaN when they are
    infinite. *)
Lemma SFsub_equal (x y : spec_float) :
  SFeqb x y = true ->
  SFabs (SFsub prec emax x y) = S754_zero false
  \/ SFabs (SFsub prec emax x y) = S754_nan.
Proof.
  unfold SFeqb.
  destruct x as [sx | sx | | sx mx ex], y as [sy | sy | | sy my ey];
    cbn [SFcompare]; try discriminate;
    try (destruct sx; discriminate); try (destruct sy; discriminate).
  - intros _. destruct sx, sy; now left.
  - destruct sx, sy; try discriminate; intros _; now right.
  - destruct sx, sy; try discriminate;
      destruct (Z.compare_spec ex ey) as [-> | _ | _]; try discriminate;
      destruct (Pos.compare_cont Eq mx my) eqn:Hm; try discriminate;
      apply Pos.compare_eq in Hm; subst my; intros _; left;
      cbn [SFsub]; cbv zeta; now rewrite Z.sub_diag.
Qed.

Lemma SFdiv_of_zero (y : spec_float) :
  SFltb (S754_finite false 4503599627370496 (-51))
    (SFdiv prec emax (S754_zero false) y) = false
  /\ SFltb (S754_finite false 4503599627370496 (-51))
       (SFdiv prec emax S754_nan y) = false.
Proof. destruct y as [s | s | | s m e]; split; reflexivity. Qed.

(** X24.  In binary64 two samples whose summaries have the same mean are
    never significantly different: the test statistic is then 0 or NaN, and
    neither exceeds 2. *)
Theorem equal_means_never_significant (values1 values2 : list float)
  (stats1 stats2 : StatisticalSummary float) :
  calculateStatistics values1 = Ok stats1 ->
  calculateStatistics values2 = Ok stats2 ->
  PrimFloat.eqb (mean stats1) (mean stats2) = true ->
  isSignificantDifference values1 values2 = Ok false.
Proof.
  intros H1 H2 Hm. unfold isSignificantDifference.
  destruct ((List.length values1 <? 2)%nat || (List.length values2 <? 2)%nat);
    [reflexivity |].
  rewrite H1, H2. cbn [bind]. cbv zeta. f_equal.
  cbn [nltb ndiv Math_abs nsub lit binary64].
  rewrite FloatAxioms.ltb_spec, FloatAxioms.div_spec, FloatAxioms.abs_spec,
    FloatAxioms.sub_spec.
  replace (Prim2SF (Binary64.of_Q (2 # 1)))
    with (S754_finite false 4503599627370496 (-51))
    by (vm_compute; reflexivity).
  rewrite FloatAxioms.eqb_spec in Hm. unfold SF64div, SF64sub.
  destruct (SFsub_equal _ _ Hm) as [-> | ->]; apply SFdiv_of_zero.
Qed.

End Binary64Verdicts.

Section Binary64VerdictExamples.
Local Open Scope string_scope.

Lemma determineWinner_exchanged_witness :
  PerformanceAnalyzer.determineWinner (A := float) (int 110) (int 100) "lcp"
  = swapped
      (PerformanceAnalyzer.determineWinner (A := float) (int 100) (int 110)
         "lcp").
Proof.
  apply (determineWinner_exchanged (int 100) (int 110) "lcp").
  vm_compute. reflexivity.
Defined.

Lemma equal_means_never_significant_witness :
  PerformanceAnalyzer.isSignificantDifference (A := float)
    [int 90; int 110] [int 50; int 150] = Ok false.
Proof.
  eapply equal_means_never_significant.
  - reflexivity.
  - reflexivity.
  - vm_compute. reflexivity.
Defined.

End Binary64VerdictExamples.

(** * The sign of the variance in binary64 *)

Section Binary64Signs.
Import PerformanceAnalyzer.
Local Open Scope Z_scope.

Lemma binary_round_aux_plus (m e : Z) (l : location) :
  SFplus (binary_round_aux prec emax false m e l) = true.
Proof.
  unfold binary_round_aux.
  destruct (shr_fexp prec emax m e l) as [mrs1 e1].
  destruct (shr_fexp prec emax
              (round_nearest_even (shr_m mrs1) (loc_of_shr_record mrs1))
              e1 loc_Exact) as [mrs2 e2].
  destruct (shr_m mrs2); [reflexivity | | reflexivity].
  destruct (e2 <=? emax - prec); reflexivity.
Qed.

Lemma binary_normalize_plus (z e : Z) :
  0 <= z -> SFplus (binary_normalize prec emax z e false) = true.
Proof.
  destruct z as [| p | p]; [reflexivity | | lia]. intros _.
  cbn [binary_normalize]. unfold binary_round.
  destruct (shl_align p e (fexp prec emax (Zpos (digits2_pos p) + e)))
    as [mz ez].
  apply binary_round_aux_plus.
Qed.

Lemma SFadd_plus (x y : spec_float) :
  SFplus x = true -> SFplus y = true -> SFplus (SFadd prec emax x y) = true.
Proof.
  destruct x as [[|] | [|] | | [|] mx ex], y as [[|] | [|] | | [|] my ey];
    cbn [SFplus negb]; try discriminate; intros _ _; try reflexivity.
  cbn [SFadd cond_Zopp]. cbv zeta. apply binary_normalize_plus. lia.
Qed.

Lemma SFmul_plus (x y : spec_float) :
  SFplus x = true -> SFplus y = true -> SFplus (SFmul prec emax x y) = true.
Proof.
  destruct x as [[|] | [|] | | [|] mx ex], y as [[|] | [|] | | [|] my ey];
    cbn [SFplus negb]; try discriminate; intros _ _; try reflexivity.
  cbn [SFmul xorb]. apply binary_round_aux_plus.
Qed.

(** A square is not negative, whatever is squared. *)
Lemma SFmul_square (x : spec_float) : SFplus (SFmul prec emax x x) = true.
Proof.
  destruct x as [[|] | [|] | | [|] mx ex]; try reflexivity;
    cbn [SFmul xorb]; apply binary_round_aux_plus.
Qed.

Lemma SFdiv_plus (x y : spec_float) :
  SFplus x = true -> SFplus y = true -> SFplus (SFdiv prec emax x y) = true.
Proof.
  destruct x as [[|] | [|] | | [|] mx ex], y as [[|] | [|] | | [|] my ey];
    cbn [SFplus negb]; try discriminate; intros _ _; try reflexivity.
  cbn [SFdiv xorb].
  destruct (SFdiv_core_binary prec emax (Zpos mx) ex (Zpos my) ey)
    as [[mz ez] lz].
  apply binary_round_aux_plus.
Qed.

Lemma SFsqrt_plus (x : spec_float) :
  SFplus x = true -> SFplus (SFsqrt prec emax x) = true.
Proof.
  destruct x as [[|] | [|] | | [|] mx ex]; cbn [SFplus negb];
    try discriminate; intros _; try reflexivity.
  cbn [SFsqrt].
  destruct (SFsqrt_core_binary prec emax (Zpos mx) ex) as [[mz ez] lz].
  apply binary_round_aux_plus.
Qed.

Lemma add_plus (x y : float) :
  isPlus x = true -> isPlus y = true -> isPlus (PrimFloat.add x y) = true.
Proof.
  unfold isPlus. rewrite FloatAxioms.add_spec. apply SFadd_plus.
Qed.

Lemma mul_plus (x y : float) :
  isPlus x = true -> isPlus y = true -> isPlus (PrimFloat.mul x y) = true.
Proof.
  unfold isPlus. rewrite FloatAxioms.mul_spec. apply SFmul_plus.
Qed.

Lemma square_plus (x : float) : isPlus (PrimFloat.mul x x) = true.
Proof. unfold isPlus. rewrite FloatAxioms.mul_spec. apply SFmul_square. Qed.

Lemma div_plus (x y : float) :
  isPlus x = true -> isPlus y = true -> isPlus (PrimFloat.div x y) = true.
Proof.
  unfold isPlus. rewrite FloatAxioms.div_spec. apply SFdiv_plus.
Qed.

Lemma sqrt_plus (x : float) :
  isPlus x = true -> isPlus (PrimFloat.sqrt x) = true.
Proof.
  unfold isPlus. rewrite FloatAxioms.sqrt_spec. apply SFsqrt_plus.
Qed.

Lemma of_Z_plus (z : Z) : 0 <= z -> isPlus (Binary64.of_Z z) = true.
Proof.
  destruct z as [| p | p]; [reflexivity | | lia]. intros _.
  unfold isPlus, Binary64.of_Z. rewrite FloatAxioms.of_uint63_spec.
  apply binary_normalize_plus. apply Uint63.to_Z_bounded.
Qed.

Lemma int_plus (z : Z) : 0 <= z -> isPlus (int z) = true.
Proof.
  intros Hz.
  change (int z) with (PrimFloat.div (Binary64.of_Z z) (Binary64.of_Z 1)).
  apply div_plus; [now apply of_Z_plus | reflexivity].
Qed.

Lemma plus_not_below_zero (x : float) :
  isPlus x = true -> PrimFloat.ltb x PrimFloat.zero = false.
Proof.
  unfold isPlus. rewrite FloatAxioms.ltb_spec.
  change (Prim2SF PrimFloat.zero) with (S754_zero false).
  destruct (Prim2SF x) as [[|] | [|] | | [|] m e]; cbn [SFplus negb];
    try discriminate; reflexivity.
Qed.

Lemma floor_plus (x : float) :
  isPlus x = true -> isPlus (Binary64.floor x) = true.
Proof.
  intros Hx. unfold Binary64.floor.
  destruct (Prim2SF x) as [s | s | | s m e] eqn:Ex; try exact Hx.
  destruct (0 <=? e); [exact Hx |].
  unfold isPlus in Hx. rewrite Ex in Hx. cbn [SFplus] in Hx.
  destruct s; [discriminate |].
  apply of_Z_plus. apply Z.shiftr_nonneg. lia.
Qed.

Lemma round_plus (x : float) :
  isPlus x = true -> isPlus (Binary64.round x) = true.
Proof.
  intros Hx. unfold Binary64.round. cbv zeta.
  rewrite (plus_not_below_zero x Hx), andb_false_r.
  destruct (PrimFloat.ltb _ _); [now apply floor_plus |].
  apply add_plus; [now apply floor_plus | reflexivity].
Qed.

Lemma round2_plus (x : float) : isPlus x = true -> isPlus (round2 x) = true.
Proof.
  intros Hx. unfold round2. cbn [Math_round nmul ndiv binary64].
  apply div_plus; [| now apply int_plus].
  apply round_plus. apply mul_plus; [exact Hx | now apply int_plus].
Qed.

Lemma squares_plus (values : list float) (m a : float) :
  isPlus a = true ->
  isPlus (fold_left (fun sum val => nadd sum (square (nsub val m))) values a)
  = true.
Proof.
  revert a. induction values as [| v values IH]; intros a Ha; [exact Ha |].
  cbn [fold_left]. apply IH. cbn [nadd binary64].
  apply add_plus; [exact Ha | apply square_plus].
Qed.

(** X26.  In binary64 the variance and the standard deviation of a summary
    are never negative, whatever the array holds: each is NaN or has the
    sign [+]. *)
Theorem variance_is_not_negative :
  forall (values : list float) (s : StatisticalSummary float),
    calculateStatistics values = Ok s ->
    isPlus (variance s) = true
    /\ isPlus (standardDeviation s) = true
    /\ PrimFloat.ltb (variance s) PrimFloat.zero = false
    /\ PrimFloat.ltb (standardDeviation s) PrimFloat.zero = false.
Proof.
  intros values s. unfold calculateStatistics.
  destruct (List.length values =? 0)%nat; [discriminate |].
  cbv zeta. intros H. injection H as <-. cbn [variance standardDeviation].
  set (m := ndiv (fold_left (fun sum val => nadd sum val) values (int 0))
              (len values)).
  assert (Hvar : isPlus
            (ndiv (fold_left
                     (fun sum val => nadd sum (square (nsub val m)))
                     values (int 0)) (len values)) = true).
  { cbn [ndiv binary64]. apply div_plus.
    - apply squares_plus. reflexivity.
    - unfold len. apply int_plus. lia. }
  assert (H1 : isPlus (round2 (ndiv (fold_left
                     (fun sum val => nadd sum (square (nsub val m)))
                     values (int 0)) (len values))) = true)
    by (now apply round2_plus).
  assert (H2 : isPlus (round2 (Math_sqrt (ndiv (fold_left
                     (fun sum val => nadd sum (square (nsub val m)))
                     values (int 0)) (len values)))) = true)
    by (apply round2_plus; cbn [Math_sqrt binary64]; now apply sqrt_plus).
  split; [exact H1 | split; [exact H2 | split]];
    now apply plus_not_below_zero.
Qed.

End Binary64Signs.

Section Binary64SignExample.

Lemma variance_is_not_negative_witness :
  exists s,
    PerformanceAnalyzer.calculateStatistics (A := float)
      [lit (1 # 1); lit (5 # 2)] = Ok s
    /\ PrimFloat.ltb (variance s) PrimFloat.zero = false.
Proof.
  eexists. split; [reflexivity |].
  apply (fun H => proj1 (proj2 (proj2
           (variance_is_not_negative [lit (1 # 1); lit (5 # 2)] _ H)))).
  reflexivity.
Defined.

End Binary64SignExample.

(** * The sign of the performance score in binary64 *)

Section Binary64Score.
Import PerformanceAnalyzer.
Local Open Scope Z_scope.

Lemma positive_plus (x : float) :
  PrimFloat.ltb PrimFloat.zero x = true -> isPlus x = true.
Proof.
  unfold isPlus. rewrite FloatAxioms.ltb_spec.
  change (Prim2SF PrimFloat.zero) with (S754_zero false).
  destruct (Prim2SF x) as [[|] | [|] | | [|] m e]; cbn; try discriminate;
    reflexivity.
Qed.

(** [Math.max(0, x)] is not negative. *)
Lemma max2_zero_plus (x : float) : isPlus (max2 (int 0) x) = true.
Proof.
  unfold max2.
  replace (isNaN (@int float _ 0)) with false by (vm_compute; reflexivity).
  destruct (isNaN x) eqn:Hnan.
  - unfold isNaN in Hnan. cbn [neqb binary64] in Hnan.
    rewrite FloatAxioms.eqb_spec in Hnan. unfold isPlus.
    destruct (Prim2SF x) as [s | s | | s m e]; try reflexivity; exfalso.
    + discriminate Hnan.
    + destruct s; discriminate Hnan.
    + unfold SFeqb in Hnan. cbn [SFcompare] in Hnan.
      rewrite Z.compare_refl, Pos.compare_cont_refl in Hnan.
      destruct s; discriminate Hnan.
  - cbn [nltb binary64].
    replace (@int float _ 0) with PrimFloat.zero by (vm_compute; reflexivity).
    destruct (PrimFloat.ltb PrimFloat.zero x) eqn:Hpos;
      [now apply positive_plus | reflexivity].
Qed.

Lemma scoreStep_plus (totals : float * float) (result : MetricsResult float) :
  isPlus (fst totals) = true -> isPlus (fst (scoreStep totals result)) = true.
Proof.
  intros Ht. unfold scoreStep. cbv zeta. cbn [fst nadd nmul binary64].
  apply add_plus; [exact Ht |].
  repeat (apply add_plus;
          [| apply mul_plus; [vm_compute; reflexivity | apply max2_zero_plus]]).
  reflexivity.
Qed.

Lemma score_loop_plus (results : list (MetricsResult float))
  (totals : float * float) :
  isPlus (fst totals) = true ->
  isPlus (fst (fold_left scoreStep results totals)) = true.
Proof.
  revert totals. induction results as [| r results IH]; intros totals Ht;
    [exact Ht |].
  cbn [fold_left]. apply IH. now apply scoreStep_plus.
Qed.

(** X25.  In binary64 [calculatePerformanceScore] never returns a negative
    number, whatever the samples hold: the score is NaN or has the sign
    [+]. *)
Theorem calculatePerformanceScore_not_negative :
  forall results : list (MetricsResult float),
    isPlus (calculatePerformanceScore results) = true
    /\ PrimFloat.ltb (calculatePerformanceScore results) PrimFloat.zero
       = false.
Proof.
  intros results.
  assert (H : isPlus (calculatePerformanceScore results) = true).
  { unfold calculatePerformanceScore. cbv zeta.
    change (isPlus (round2 (ndiv (fst (fold_left scoreStep results
                                         (int 0, int 0)))
                              (len results))) = true).
    apply round2_plus. cbn [ndiv binary64]. apply div_plus.
    - apply score_loop_plus. reflexivity.
    - unfold len. apply int_plus. lia. }
  split; [exact H | now apply plus_not_below_zero].
Qed.

End Binary64Score.

(** * The signs of the improvement and the winner in binary64 *)

Section Binary64Improvement.
Import PerformanceAnalyzer.
Local Open Scope Z_scope.

Lemma binary_round_aux_minus (m e : Z) (l : location) :
  SFminus (binary_round_aux prec emax true m e l) = true.
Proof.
  unfold binary_round_aux.
  destruct (shr_fexp prec emax m e l) as [mrs1 e1].
  destruct (shr_fexp prec emax
              (round_nearest_even (shr_m mrs1) (loc_of_shr_record mrs1))
              e1 loc_Exact) as [mrs2 e2].
  destruct (shr_m mrs2); [reflexivity | | reflexivity].
  destruct (e2 <=? emax - prec); reflexivity.
Qed.

Lemma binary_round_minus (p : positive) (e : Z) :
  SFminus (binary_round prec emax true p e) = true.
Proof.
  unfold binary_round.
  destruct (shl_align p e (fexp prec emax (Zpos (digits2_pos p) + e)))
    as [mz ez].
  apply binary_round_aux_minus.
Qed.

Lemma SFdiv_minus (x y : spec_float) :
  SFminus x = true -> SFplus y = true -> SFminus (SFdiv prec emax x y) = true.
Proof.
  destruct x as [[|] | [|] | | [|] mx ex], y as [[|] | [|] | | [|] my ey];
    cbn [SFminus SFplus negb]; try discriminate; intros _ _; try reflexivity.
  cbn [SFdiv xorb].
  destruct (SFdiv_core_binary prec emax (Zpos mx) ex (Zpos my) ey)
    as [[mz ez] lz].
  apply binary_round_aux_minus.
Qed.

Lemma SFmul_minus (x y : spec_float) :
  SFminus x = true -> SFplus y = true -> SFminus (SFmul prec emax x y) = true.
Proof.
  destruct x as [[|] | [|] | | [|] mx ex], y as [[|] | [|] | | [|] my ey];
    cbn [SFminus SFplus negb]; try discriminate; intros _ _; try reflexivity.
  cbn [SFmul xorb]. apply binary_round_aux_minus.
Qed.

Lemma div_minus (x y : float) :
  isMinus x = true -> isPlus y = true -> isMinus (PrimFloat.div x y) = true.
Proof.
  unfold isMinus, isPlus. rewrite FloatAxioms.div_spec. apply SFdiv_minus.
Qed.

Lemma mul_minus (x y : float) :
  isMinus x = true -> isPlus y = true -> isMinus (PrimFloat.mul x y) = true.
Proof.
  unfold isMinus, isPlus. rewrite FloatAxioms.mul_spec. apply SFmul_minus.
Qed.

Lemma minus_not_above_zero (x : float) :
  isMinus x = true -> PrimFloat.ltb PrimFloat.zero x = false.
Proof.
  unfold isMinus. rewrite FloatAxioms.ltb_spec.
  change (Prim2SF PrimFloat.zero) with (S754_zero false).
  destruct (Prim2SF x) as [[|] | [|] | | [|] m e]; cbn [SFminus];
    try discriminate; reflexivity.
Qed.

(** The difference of a positive number and a smaller or equal one has the
    sign [+], that of a number and a greater one the sign [-]. *)
Lemma sub_sign (x y : float) :
  isFinite x = true -> isFinite y = true ->
  PrimFloat.ltb PrimFloat.zero x = true ->
  if PrimFloat.ltb x y then isMinus (PrimFloat.sub x y) = true
  else isPlus (PrimFloat.sub x y) = true.
Proof.
  intros Hx Hy Hpos.
  rewrite (ltb_units x y Hx Hy).
  assert (Hzero : isFinite PrimFloat.zero = true) by reflexivity.
  rewrite (ltb_units _ _ Hzero Hx) in Hpos. clear Hzero.
  change (unitsOf PrimFloat.zero) with 0 in Hpos. apply Z.ltb_lt in Hpos.
  unfold isMinus, isPlus, unitsOf in *. rewrite FloatAxioms.sub_spec.
  pose proof (Prim2SF_valid x) as Hbx. pose proof (Prim2SF_valid y) as Hby.
  unfold isFinite in Hx, Hy. unfold SF64sub.
  destruct (Prim2SF x) as [sx | sx | | sx mx ex]; try discriminate.
  cbn in Hbx. pose proof (units_sign sx mx ex Hbx) as Hsx.
  destruct sx; [lia |].
  destruct (Prim2SF y) as [sy | sy | | sy my ey]; try discriminate.
  - change (units (S754_zero sy)) with 0.
    replace (units (S754_finite false mx ex) <? 0) with false
      by (symmetry; apply Z.ltb_ge; lia).
    reflexivity.
  - cbn in Hby.
    pose proof (bounded_inv _ _ Hbx) as (_ & Hex & _).
    pose proof (bounded_inv _ _ Hby) as (_ & Hey & _).
    cbn [SFsub]. cbv zeta. set (ez := Z.min ex ey).
    assert (Hez : -1074 <= ez) by (subst ez; lia).
    rewrite (aligned_units false mx ex ez), (aligned_units sy my ey ez)
      by (subst ez; lia).
    set (X := cond_Zopp false (Zpos (fst (shl_align mx ex ez)))).
    set (Y := cond_Zopp sy (Zpos (fst (shl_align my ey ez)))).
    assert (Hu : 0 < 2 ^ (ez + 1074)) by (apply Z.pow_pos_nonneg; lia).
    destruct (Z.ltb_spec (X * 2 ^ (ez + 1074)) (Y * 2 ^ (ez + 1074)))
      as [Hlt | Hge].
    + destruct (X - Y) as [| p | p] eqn:HD; try nia.
      cbn [binary_normalize]. apply binary_round_minus.
    + apply binary_normalize_plus. nia.
Qed.

(** [Math.floor] keeps the sign [-]. *)
Lemma floor_minus (x : float) :
  isMinus x = true -> isMinus (Binary64.floor x) = true.
Proof.
  intros Hx. unfold Binary64.floor.
  destruct (Prim2SF x) as [s | s | | s m e] eqn:Ex; try exact Hx.
  destruct (0 <=? e); [exact Hx |].
  unfold isMinus in Hx. rewrite Ex in Hx. cbn [SFminus] in Hx. subst s.
  unfold isMinus. rewrite FloatAxioms.opp_spec.
  set (q := if (_ =? _) then _ else _).
  assert (Hq : 0 <= q).
  { subst q. assert (0 <= Z.shiftr (Zpos m) (- e))
      by (apply Z.shiftr_nonneg; lia).
    destruct (_ =? _); lia. }
  pose proof (of_Z_plus q Hq) as Hp. unfold isPlus in Hp.
  destruct (Prim2SF (Binary64.of_Z q)) as [[|] | [|] | | [|] m' e'];
    cbn [SFplus negb] in Hp; try discriminate; reflexivity.
Qed.

Lemma finite_minus_below_zero (x : float) (m : positive) (e : Z) :
  Prim2SF x = S754_finite true m e ->
  PrimFloat.ltb x PrimFloat.zero = true.
Proof. intros Hx. rewrite FloatAxioms.ltb_spec, Hx. reflexivity. Qed.

(** The floor of a negative number that is no integer is a negative
    integer: adding one to it does not exceed zero. *)
Lemma add_one_to_negative (q : positive) :
  Zpos q < 2 ^ 53 ->
  let r := PrimFloat.add (PrimFloat.opp (Binary64.of_Z (Zpos q)))
             PrimFloat.one in
  Prim2SF r = S754_zero false \/ isMinus r = true.
Proof.
  intros Hq r. subst r.
  destruct (of_Z_integer q Hq) as (m & e & Hx & Hv).
  pose proof (Prim2SF_valid (Binary64.of_Z (Zpos q))) as Hb.
  rewrite Hx in Hb. cbn in Hb.
  pose proof (bounded_inv _ _ Hb) as (_ & He & _).
  unfold isMinus. rewrite FloatAxioms.add_spec, FloatAxioms.opp_spec, Hx.
  change (Prim2SF PrimFloat.one)
    with (S754_finite false 4503599627370496 (-52)).
  unfold SF64add. cbn [SFopp negb SFadd]. cbv zeta.
  set (ez := Z.min e (-52)).
  assert (Hez : -1074 <= ez) by (subst ez; lia).
  pose proof (aligned_units false m e ez ltac:(subst ez; lia)) as Hux.
  pose proof (aligned_units false 4503599627370496 (-52) ez
                ltac:(subst ez; lia)) as Huy.
  cbn [units cond_Zopp] in Hux, Huy. cbn [cond_Zopp].
  set (X := Zpos (fst (shl_align m e ez))) in *.
  set (Y := Zpos (fst (shl_align 4503599627370496 (-52) ez))) in *.
  assert (Hu : 0 < 2 ^ (ez + 1074)) by (apply Z.pow_pos_nonneg; lia).
  replace (4503599627370496 * 2 ^ (-52 + 1074)) with (2 ^ 1074) in Huy
    by (vm_compute; reflexivity).
  assert (H0 : 0 < 2 ^ 1074) by (apply Z.pow_pos_nonneg; lia).
  destruct (- X + Y) as [| p | p] eqn:HD.
  - now left.
  - exfalso. nia.
  - right. cbn [binary_normalize]. apply binary_round_minus.
Qed.

(** [Math.round] keeps the sign [-]. *)
Lemma round_minus (x : float) :
  isMinus x = true -> isMinus (Binary64.round x) = true.
Proof.
  intros Hx. pose proof (floor_minus x Hx) as Hf.
  unfold Binary64.round. cbv zeta.
  assert (Hkeep : forall c : bool,
            isMinus (if c then PrimFloat.neg_zero else Binary64.floor x)
            = true) by (intros [|]; [reflexivity | exact Hf]).
  assert (Hsame : isFinite x = true ->
            Binary64.floor x = x ->
            isMinus
              (if PrimFloat.is_zero
                    (if PrimFloat.ltb (PrimFloat.sub x (Binary64.floor x)) 0.5
                     then Binary64.floor x
                     else PrimFloat.add (Binary64.floor x) PrimFloat.one)
                  && PrimFloat.ltb x PrimFloat.zero
               then PrimFloat.neg_zero
               else if PrimFloat.ltb (PrimFloat.sub x (Binary64.floor x)) 0.5
                    then Binary64.floor x
                    else PrimFloat.add (Binary64.floor x) PrimFloat.one)
            = true).
  { intros Hfin Hfl. rewrite Hfl, (sub_same x Hfin).
    replace (PrimFloat.ltb PrimFloat.zero 0.5) with true
      by (vm_compute; reflexivity).
    rewrite <- Hfl. apply Hkeep. }
  unfold isMinus in Hx.
  destruct (Prim2SF x) as [s | s | | s m e] eqn:Ex; cbn [SFminus] in Hx;
    try subst s.
  - apply Hsame; [unfold isFinite; now rewrite Ex |].
    unfold Binary64.floor. now rewrite Ex.
  - assert (Hfl : Binary64.floor x = x)
      by (unfold Binary64.floor; now rewrite Ex).
    rewrite Hfl.
    assert (Hinf : x = PrimFloat.neg_infinity)
      by (apply Prim2SF_inj; rewrite Ex; reflexivity).
    subst x. vm_compute. reflexivity.
  - assert (Hnan : x = PrimFloat.nan)
      by (apply Prim2SF_inj; rewrite Ex; reflexivity).
    subst x. vm_compute. reflexivity.
  - destruct (0 <=? e) eqn:He.
    + apply Hsame; [unfold isFinite; now rewrite Ex |].
      unfold Binary64.floor. now rewrite Ex, He.
    + destruct (PrimFloat.ltb (PrimFloat.sub x (Binary64.floor x)) 0.5);
        [apply Hkeep |].
      rewrite (finite_minus_below_zero x m e Ex), andb_true_r.
      apply Z.leb_gt in He.
      pose proof (Prim2SF_valid x) as Hb. rewrite Ex in Hb. cbn in Hb.
      pose proof (mantissa_bounds _ _ Hb) as [Hm _].
      assert (Hq : 0 <= Z.shiftr (Zpos m) (- e) < 2 ^ 52).
      { rewrite Z.shiftr_div_pow2 by lia. split.
        - apply Z.div_pos; [lia | apply Z.pow_pos_nonneg; lia].
        - apply Z.div_lt_upper_bound; [apply Z.pow_pos_nonneg; lia |].
          assert (2 ^ 1 <= 2 ^ (- e)) by (apply Z.pow_le_mono_r; lia).
          change (2 ^ 1) with 2 in *. change (2 ^ 53) with (2 * 2 ^ 52) in Hm.
          nia. }
      assert (Hfloor : exists q : positive,
                Zpos q < 2 ^ 53
                /\ Binary64.floor x
                   = PrimFloat.opp (Binary64.of_Z (Zpos q))).
      { unfold Binary64.floor. rewrite Ex.
        replace (0 <=? e) with false by (symmetry; apply Z.leb_gt; exact He).
        destruct (Z.shiftl (Z.shiftr (Zpos m) (- e)) (- e) =? Zpos m)
          eqn:Hexact.
        - apply Z.eqb_eq in Hexact.
          destruct (Z.shiftr (Zpos m) (- e)) as [| q | q] eqn:Eq; try lia.
          + rewrite Z.shiftl_0_l in Hexact. discriminate Hexact.
          + exists q. split; [| reflexivity].
            change (2 ^ 53) with (2 * 2 ^ 52). lia.
        - destruct (Z.shiftr (Zpos m) (- e) + 1) as [| q | q] eqn:Eq; try lia.
          exists q. split; [| reflexivity].
          change (2 ^ 53) with (2 * 2 ^ 52). lia. }
      clear Hsame Hkeep Hf. destruct Hfloor as (q & Hq53 & ->).
      destruct (add_one_to_negative q Hq53) as [Hzero | Hminus].
      * unfold PrimFloat.is_zero. rewrite FloatAxioms.eqb_spec, Hzero.
        reflexivity.
      * destruct (PrimFloat.is_zero
                    (PrimFloat.add (PrimFloat.opp (Binary64.of_Z (Zpos q)))
                       PrimFloat.one)); [reflexivity | exact Hminus].
Qed.

(** X20.  In binary64 the improvement and the winner agree in sign: for
    finite means, the first positive, and one of the nine metrics, the
    improvement is not negative when the second application wins, and not
    positive when the first wins. *)
Theorem improvement_agrees_with_winner (m1 m2 : float) (metric : string) :
  isFinite m1 = true -> isFinite m2 = true ->
  PrimFloat.ltb PrimFloat.zero m1 = true ->
  In metric lowerIsBetter ->
  (determineWinner m1 m2 metric = App2 ->
   PrimFloat.ltb (calculateImprovement m1 m2) PrimFloat.zero = false)
  /\ (determineWinner m1 m2 metric = App1 ->
      PrimFloat.ltb PrimFloat.zero (calculateImprovement m1 m2) = false).
Proof.
  intros H1 H2 Hpos Hm.
  destruct (determineWinner_tie_iff m1 m2 metric Hm) as [_ Hside].
  cbv zeta in Hside. cbn [nltb binary64] in Hside.
  pose proof (sub_sign m1 m2 H1 H2 Hpos) as Hd.
  destruct (binary64_positive m1 Hpos) as (_ & Hnz & _).
  assert (Himp : calculateImprovement m1 m2
                 = PrimFloat.div
                     (Binary64.round
                        (PrimFloat.mul
                           (PrimFloat.mul
                              (PrimFloat.div (PrimFloat.sub m1 m2) m1)
                              (int 100)) (int 100))) (int 100)).
  { unfold calculateImprovement. cbn [neqb binary64].
    replace (@int float _ 0) with PrimFloat.zero by (vm_compute; reflexivity).
    now rewrite Hnz. }
  rewrite Himp. clear Himp.
  assert (Hp1 : isPlus m1 = true) by (now apply positive_plus).
  assert (Hhundred : isPlus (@int float _ 100) = true) by (now apply int_plus).
  split; intros Hw.
  - rewrite Hside in Hw by congruence.
    destruct (PrimFloat.ltb m1 m2); [discriminate Hw |].
    apply plus_not_below_zero. apply div_plus; [| exact Hhundred].
    apply round_plus. repeat (apply mul_plus; [| exact Hhundred]).
    now apply div_plus.
  - rewrite Hside in Hw by congruence.
    destruct (PrimFloat.ltb m1 m2); [| discriminate Hw].
    apply minus_not_above_zero. apply div_minus; [| exact Hhundred].
    apply round_minus. repeat (apply mul_minus; [| exact Hhundred]).
    now apply div_minus.
Qed.

End Binary64Improvement.

Section Binary64ImprovementExample.
Local Open Scope string_scope.

Lemma improvement_agrees_with_winner_witness :
  PrimFloat.ltb PrimFloat.zero
    (PerformanceAnalyzer.calculateImprovement (A := float) (int 100) (int 110))
  = false.
Proof.
  apply (improvement_agrees_with_winner (int 100) (int 110) "lcp");
    try (vm_compute; reflexivity).
  now left.
Defined.

End Binary64ImprovementExample.
